(** * osfs: the read/write data path of a small block filesystem

    A shallow embedding of [osfs_read] and [osfs_write] as found in
    [lab4/file.c] (one data block per file) and [lab4_bonus/file.c]
    (an array of direct block pointers per file), together with the
    properties of the data path.

    The C functions work on kernel objects reached through the [struct file]:
    the VFS inode, the filesystem's own inode ([inode->i_private]), the
    superblock information ([inode->i_sb->s_fs_info]) that owns the block
    arena, the caller's buffer in user space and the position cursor
    [*ppos].  All of these are gathered in one record, [world], which every
    function receives and returns. *)

From Stdlib Require Import ZArith Lia Bool List.
From stdpp Require Import base list.
Import ListNotations.

Local Open Scope Z_scope.

(** ** Machine integers

    [uint32_t] and [size_t] values wrap modulo a power of two; [loff_t] and
    [ssize_t] are 64-bit two's complement (the kernel is built with
    wrapping signed arithmetic). *)

Definition u32 (x : Z) : Z := x mod 2 ^ 32.
Definition u64 (x : Z) : Z := x mod 2 ^ 64.
Definition s64 (x : Z) : Z := (x + 2 ^ 63) mod 2 ^ 64 - 2 ^ 63.

(** ** Constants of [osfs.h] and [errno.h]

    [osfs.h] is not part of the two files at hand.  The value of
    [BLOCK_SIZE] is the one the comment in [lab4/file.c] gives (a position
    may not pass 4096), the value of [MAX_BLOCKS_PER_FILE] the one the
    comment in [lab4_bonus/file.c] gives (at most 5 blocks). *)

Definition BLOCK_SIZE : Z := 4096.
Definition MAX_BLOCKS_PER_FILE : Z := 5.
Definition ENOSPC : Z := 28.
Definition EFAULT : Z := 14.

(** ** Bytes and the block arena

    [sb_info->data_blocks] is a flat region of bytes; physical block [b]
    occupies the offsets [b * BLOCK_SIZE .. b * BLOCK_SIZE + BLOCK_SIZE - 1]. *)

Definition byte : Type := Byte.byte.
Definition zero_byte : byte := Byte.x00.

Definition mem := Z -> byte.

Definition in_range (addr n a : Z) : bool := (addr <=? a) && (a <? addr + n).

(** [memset (m + addr, 0, n)] *)
Definition memset0 (m : mem) (addr n : Z) : mem :=
  fun a => if in_range addr n a then zero_byte else m a.

(** The bytes [m[addr .. addr + n - 1]]. *)
Definition load_bytes (m : mem) (addr : Z) (n : nat) : list byte :=
  map (fun i => m (addr + Z.of_nat i)) (seq 0 n).

(** [m] with the bytes [bs] stored from [addr] on. *)
Definition store_bytes (m : mem) (addr : Z) (bs : list byte) : mem :=
  fun a => if in_range addr (Z.of_nat (length bs)) a
           then nth (Z.to_nat (a - addr)) bs zero_byte else m a.

(** ** User space

    A user address is accessible or not; [copy_to_user] and
    [copy_from_user] move bytes while the addresses are accessible and
    return the number of bytes they could NOT move.  [copy_from_user] pads
    what it could not read with zero bytes. *)

Record umem := mkUmem { u_ok : Z -> bool; u_byte : mem }.

Fixpoint accessible_prefix (ok : Z -> bool) (addr : Z) (n : nat) : nat :=
  match n with
  | O => O
  | S n' => if ok addr then S (accessible_prefix ok (addr + 1) n') else O
  end.

Definition copy_from_user (um : umem) (from n : Z) : Z * list byte :=
  let k := accessible_prefix (u_ok um) from (Z.to_nat n) in
  (n - Z.of_nat k,
   load_bytes (u_byte um) from k ++ repeat zero_byte (Z.to_nat n - k)).

Definition copy_to_user (um : umem) (to : Z) (bs : list byte) : Z * umem :=
  let k := accessible_prefix (u_ok um) to (length bs) in
  (Z.of_nat (length bs) - Z.of_nat k,
   mkUmem (u_ok um) (store_bytes (u_byte um) to (firstn k bs))).

(** ** The superblock information and the block allocator *)

Record osfs_sb_info := mkSb {
  data_blocks : mem;
  block_bitmap : list bool   (* bit [i] set: physical block [i] is in use *)
}.

Fixpoint find_free (i : nat) (bm : list bool) : option nat :=
  match bm with
  | [] => None
  | b :: bm' => if b then find_free (S i) bm' else Some i
  end.

(** Modelled from the spec: [osfs_alloc_data_block] is declared in [osfs.h]
    and defined outside the two files; the call sites show its shape (an
    [int] result, zero on success, and the block number stored through the
    pointer).  Following the spec it hands out the lowest-numbered free
    physical block, never block 0, which the arena reserves, and reports
    exhaustion with [-ENOSPC], leaving [*block_no] alone.  The result is the
    return value, the new superblock information and the block number
    (meaningful when the return value is 0). *)
Definition osfs_alloc_data_block (sb : osfs_sb_info) : Z * osfs_sb_info * Z :=
  match find_free 1 (tail (block_bitmap sb)) with
  | Some i => (0, mkSb (data_blocks sb) (<[i := true]> (block_bitmap sb)), Z.of_nat i)
  | None => (- ENOSPC, sb, 0)
  end.

(** ** The VFS inode: the fields the data path touches *)

Module VFS.
Record inode := mkInode {
  i_size : Z;
  i_mtime : Z;
  i_ctime : Z;
  i_dirty : bool   (* the inode is on the superblock's dirty list *)
}.
End VFS.

(** ** Calls to the kernel, in the order the code makes them

    The log is ghost state: every call of the C code to one of these
    functions appends one event. *)

Inductive event :=
| Ev_alloc (ret blk : Z)                        (* osfs_alloc_data_block *)
| Ev_memset (addr n : Z)                        (* memset (data_blocks + addr, 0, n) *)
| Ev_copy_from_user (dst src n uncopied : Z)        (* copy_from_user (data_blocks + dst, src, n) *)
| Ev_copy_to_user (dst src n uncopied : Z)          (* copy_to_user (dst, data_blocks + src, n) *)
| Ev_set_mtime (t : Z)                          (* inode_set_mtime_to_ts *)
| Ev_set_ctime (t : Z)                          (* inode_set_ctime_to_ts *)
| Ev_mark_inode_dirty.                          (* mark_inode_dirty *)

Definition is_metadata_event (e : event) : bool :=
  match e with
  | Ev_set_mtime _ | Ev_set_ctime _ | Ev_mark_inode_dirty => true
  | _ => false
  end.

(** ** The world a call runs in *)

Record world {I : Type} := mkWorld {
  w_inode : VFS.inode;       (* file_inode (filp) *)
  w_osfs : I;                (* inode->i_private *)
  w_sb : osfs_sb_info;       (* inode->i_sb->s_fs_info *)
  w_user : umem;             (* the caller's address space *)
  w_pos : Z;                 (* *ppos *)
  w_clock : Z;               (* what current_time (inode) returns *)
  w_log : list event
}.
Arguments world : clear implicits.
Arguments mkWorld {I}.

Section Setters.
Context {I : Type}.
Implicit Type w : world I.

Definition set_inode w x := mkWorld x (w_osfs w) (w_sb w) (w_user w) (w_pos w) (w_clock w) (w_log w).
Definition set_osfs w (x : I) := mkWorld (w_inode w) x (w_sb w) (w_user w) (w_pos w) (w_clock w) (w_log w).
Definition set_sb w x := mkWorld (w_inode w) (w_osfs w) x (w_user w) (w_pos w) (w_clock w) (w_log w).
Definition set_user w x := mkWorld (w_inode w) (w_osfs w) (w_sb w) x (w_pos w) (w_clock w) (w_log w).
Definition set_pos w x := mkWorld (w_inode w) (w_osfs w) (w_sb w) (w_user w) x (w_clock w) (w_log w).
Definition emit w (e : event) := mkWorld (w_inode w) (w_osfs w) (w_sb w) (w_user w) (w_pos w) (w_clock w) (w_log w ++ [e]).

Definition set_data w (m : mem) := set_sb w (mkSb m (block_bitmap (w_sb w))).
Definition set_vfs_size w (n : Z) :=
    set_inode w (VFS.mkInode n (VFS.i_mtime (w_inode w)) (VFS.i_ctime (w_inode w)) (VFS.i_dirty (w_inode w))).

(** [inode_set_mtime_to_ts (inode, current_time (inode))] *)
Definition inode_set_mtime w :=
    emit (set_inode w (VFS.mkInode (VFS.i_size (w_inode w)) (w_clock w) (VFS.i_ctime (w_inode w)) (VFS.i_dirty (w_inode w))))
         (Ev_set_mtime (w_clock w)).
(** [inode_set_ctime_to_ts (inode, current_time (inode))] *)
Definition inode_set_ctime w :=
    emit (set_inode w (VFS.mkInode (VFS.i_size (w_inode w)) (VFS.i_mtime (w_inode w)) (w_clock w) (VFS.i_dirty (w_inode w))))
         (Ev_set_ctime (w_clock w)).
Definition mark_inode_dirty w :=
    emit (set_inode w (VFS.mkInode (VFS.i_size (w_inode w)) (VFS.i_mtime (w_inode w)) (VFS.i_ctime (w_inode w)) true))
         Ev_mark_inode_dirty.

(** The three closing statements of [osfs_write]. *)
Definition touch w := mark_inode_dirty (inode_set_ctime (inode_set_mtime w)).
End Setters.

(** ** [while (guard) { body }], where the body may [return] *)

Fixpoint while {C R : Type} (guard : C -> bool) (body : C -> C + R)
    (fuel : nat) (c : C) : option (C + R) :=
  match fuel with
  | O => None
  | S fuel' =>
      if guard c then
        match body c with
        | inl c' => while guard body fuel' c'
        | inr r => Some (inr r)
        end
      else Some (inl c)
  end.

(** * The single-block variant, [lab4/file.c]

    [struct osfs_inode] is declared in [osfs.h]; the data path uses the
    fields [i_size], [i_blocks] (the number of blocks the file owns) and
    [i_block] (the physical number of its one data block).  Their values
    are kept as integers; the arithmetic of [file.c] on [loff_t] and
    [size_t] values is written with its wrap-around. *)

Module Lab4.

Record osfs_inode := mkOsfsInode {
  i_size : Z;
  i_blocks : Z;
  i_block : Z
}.

Definition W : Type := world osfs_inode.

Definition osfs_read (w : W) (buf len : Z) : Z * W :=
  let osfs_inode := w_osfs w in
  if i_blocks osfs_inode =? 0 then (0, w)
  else if w_pos w >=? i_size osfs_inode then (0, w)
  else
    let len := if u64 (w_pos w + len) >? i_size osfs_inode
               then u64 (i_size osfs_inode - w_pos w) else len in
    let data_block := i_block osfs_inode * BLOCK_SIZE + w_pos w in
    let '(uncopied, um) :=
      copy_to_user (w_user w) buf
        (load_bytes (data_blocks (w_sb w)) data_block (Z.to_nat len)) in
    let w := emit (set_user w um) (Ev_copy_to_user buf data_block len uncopied) in
    if uncopied =? 0 then (s64 len, set_pos w (s64 (w_pos w + len)))
    else (- EFAULT, w).

(** Steps 3 to 6 of [osfs_write]: everything after the allocation. *)
Definition write_steps_3_to_6 (w : W) (buf len : Z) : Z * W :=
  if w_pos w >=? BLOCK_SIZE then (- ENOSPC, w)
  else
    let len := if u64 (w_pos w + len) >? BLOCK_SIZE
               then u64 (BLOCK_SIZE - w_pos w) else len in
    let data_block := i_block (w_osfs w) * BLOCK_SIZE + w_pos w in
    let '(uncopied, bs) := copy_from_user (w_user w) buf len in
    let w := emit (set_data w (store_bytes (data_blocks (w_sb w)) data_block bs))
                  (Ev_copy_from_user data_block buf len uncopied) in
    if uncopied =? 0 then
      let w := set_pos w (s64 (w_pos w + len)) in
      let bytes_written := s64 len in
      let w :=
        if w_pos w >? i_size (w_osfs w)
        then set_vfs_size
               (set_osfs w (mkOsfsInode (w_pos w) (i_blocks (w_osfs w)) (i_block (w_osfs w))))
               (w_pos w)
        else w in
      (bytes_written, touch w)
    else (- EFAULT, w).

Definition osfs_write (w : W) (buf len : Z) : Z * W :=
  if i_blocks (w_osfs w) =? 0 then
    let '(ret, sb, blk) := osfs_alloc_data_block (w_sb w) in
    let w := emit (set_sb w sb) (Ev_alloc ret blk) in
    if ret =? 0 then
      let w := set_osfs w (mkOsfsInode (i_size (w_osfs w)) (i_blocks (w_osfs w)) blk) in
      let w := set_osfs w (mkOsfsInode (i_size (w_osfs w)) 1 (i_block (w_osfs w))) in
      let addr := i_block (w_osfs w) * BLOCK_SIZE in
      let w := emit (set_data w (memset0 (data_blocks (w_sb w)) addr BLOCK_SIZE))
                    (Ev_memset addr BLOCK_SIZE) in
      write_steps_3_to_6 w buf len
    else (ret, w)
  else write_steps_3_to_6 w buf len.

End Lab4.

(** * The multi-block variant, [lab4_bonus/file.c]

    Here [struct osfs_inode] carries [blocks], an array of
    [MAX_BLOCKS_PER_FILE] physical block numbers in which 0 stands for a
    slot without a block. *)

Module Bonus.

Record osfs_inode := mkOsfsInode {
  i_size : Z;
  i_blocks : Z;
  blocks : list Z
}.

Definition W : Type := world osfs_inode.

(** [osfs_inode->blocks[i]]; the array has [MAX_BLOCKS_PER_FILE] entries and
    C gives no meaning to a read past its end, here it yields 0. *)
Definition slot (o : osfs_inode) (i : Z) : Z := default 0 (blocks o !! Z.to_nat i).

Definition set_slot (o : osfs_inode) (i b : Z) : osfs_inode :=
  mkOsfsInode (i_size o) (i_blocks o) (<[Z.to_nat i := b]> (blocks o)).

Definition set_size (w : W) (n : Z) : W :=
  set_vfs_size
    (set_osfs w (mkOsfsInode n (i_blocks (w_osfs w)) (blocks (w_osfs w)))) n.

(** The first three locals of both loop bodies, as functions of [*ppos] and
    [len]: [block_index] and [offset_in_block] are [uint32_t], and
    [copy_len] starts as [BLOCK_SIZE - offset_in_block], an unsigned int. *)
Definition blk_index (pos : Z) : Z := u32 (Z.quot pos BLOCK_SIZE).
Definition blk_offset (pos : Z) : Z := u32 (Z.rem pos BLOCK_SIZE).
Definition seg_len (pos len : Z) : Z :=
  let copy_len := u32 (BLOCK_SIZE - blk_offset pos) in
  if copy_len >? len then len else copy_len.

(** The variables of the two loops: the world, [buf], [len] and the byte
    count ([bytes_read], [bytes_written]). *)
Record loop := mkLoop {
  l_w : W;
  l_buf : Z;
  l_len : Z;
  l_bytes : Z
}.

Definition loop_guard (c : loop) : bool := l_len c >? 0.

(** In the body of the read loop the block number is copied into the
    local [phy_block_no], a [uint32_t], and [phy_block_no * BLOCK_SIZE] is a
    product of unsigned ints: both wrap modulo [2 ^ 32].  The sum with
    [sb_info->data_blocks] and [offset_in_block] is pointer arithmetic and
    does not. *)
Definition read_body (c : loop) : loop + Z * W :=
  let w := l_w c in
  let block_index := blk_index (w_pos w) in
  let offset_in_block := blk_offset (w_pos w) in
  let copy_len := seg_len (w_pos w) (l_len c) in
  let phy_block_no := u32 (slot (w_osfs w) block_index) in
  let data_block := u32 (phy_block_no * BLOCK_SIZE) + offset_in_block in
  let '(uncopied, um) :=
    copy_to_user (w_user w) (l_buf c)
      (load_bytes (data_blocks (w_sb w)) data_block (Z.to_nat copy_len)) in
  let w := emit (set_user w um) (Ev_copy_to_user (l_buf c) data_block copy_len uncopied) in
  if uncopied =? 0 then
    inl (mkLoop (set_pos w (s64 (w_pos w + copy_len)))
                (l_buf c + copy_len)
                (u64 (l_len c - copy_len))
                (s64 (l_bytes c + copy_len)))
  else inr (- EFAULT, w).

Definition osfs_read (w : W) (buf len : Z) : option (Z * W) :=
  if w_pos w >=? i_size (w_osfs w) then Some (0, w)
  else
    let len := if u64 (w_pos w + len) >? i_size (w_osfs w)
               then u64 (i_size (w_osfs w) - w_pos w) else len in
    match while loop_guard read_body (S (Z.to_nat len)) (mkLoop w buf len 0) with
    | None => None
    | Some (inr r) => Some r
    | Some (inl c) => Some (l_bytes c, l_w c)
    end.

(** Step 3 of the body of the write loop: give the slot a block when it has
    none.  The result is the world to go on with, or the allocator's error. *)
Definition alloc_if_needed (w : W) (block_index : Z) : W + Z * W :=
  if slot (w_osfs w) block_index =? 0 then
    let '(ret, sb, blk) := osfs_alloc_data_block (w_sb w) in
    let w := emit (set_sb w sb) (Ev_alloc ret blk) in
    if ret =? 0 then
      let w := set_osfs w (set_slot (w_osfs w) block_index blk) in
      let w := set_osfs w (mkOsfsInode (i_size (w_osfs w)) (i_blocks (w_osfs w) + 1)
                                       (blocks (w_osfs w))) in
      let addr := slot (w_osfs w) block_index * BLOCK_SIZE in
      inl (emit (set_data w (memset0 (data_blocks (w_sb w)) addr BLOCK_SIZE))
                (Ev_memset addr BLOCK_SIZE))
    else inr (ret, w)
  else inl w.

Definition write_body (c : loop) : loop + Z * W :=
  let w := l_w c in
  let block_index := blk_index (w_pos w) in
  let offset_in_block := blk_offset (w_pos w) in
  let copy_len := seg_len (w_pos w) (l_len c) in
  if block_index >=? MAX_BLOCKS_PER_FILE then
    inr (if l_bytes c >? 0 then l_bytes c else - ENOSPC, w)
  else
    match alloc_if_needed w block_index with
    | inr (ret, w) => inr (if l_bytes c >? 0 then l_bytes c else ret, w)
    | inl w =>
        let data_block := slot (w_osfs w) block_index * BLOCK_SIZE + offset_in_block in
        let '(uncopied, bs) := copy_from_user (w_user w) (l_buf c) copy_len in
        let w := emit (set_data w (store_bytes (data_blocks (w_sb w)) data_block bs))
                      (Ev_copy_from_user data_block (l_buf c) copy_len uncopied) in
        if uncopied =? 0 then
          let w := set_pos w (s64 (w_pos w + copy_len)) in
          let w := if w_pos w >? i_size (w_osfs w) then set_size w (w_pos w) else w in
          inl (mkLoop w (l_buf c + copy_len)
                        (u64 (l_len c - copy_len))
                        (s64 (l_bytes c + copy_len)))
        else inr (- EFAULT, w)
    end.

Definition osfs_write (w : W) (buf len : Z) : option (Z * W) :=
  match while loop_guard write_body (S (Z.to_nat len)) (mkLoop w buf len 0) with
  | None => None
  | Some (inr r) => Some r
  | Some (inl c) => Some (l_bytes c, touch (l_w c))
  end.

End Bonus.

(** * Concrete worlds, for running the code *)

Definition no_user : umem := mkUmem (fun _ => false) (fun _ => zero_byte).

(** A user space in which the addresses [lo .. hi - 1] are accessible and
    hold the byte [b]. *)
Definition flat_user (lo hi : Z) (b : byte) : umem :=
  mkUmem (fun a => (lo <=? a) && (a <? hi)) (fun _ => b).

(** An arena of [n] blocks, none in use, every byte [b]. *)
Definition fresh_sb (n : nat) (b : byte) : osfs_sb_info :=
  mkSb (fun _ => b) (repeat false n).

Definition fresh_inode : VFS.inode := VFS.mkInode 0 0 0 false.

Definition lab4_fresh (sb : osfs_sb_info) (um : umem) (pos : Z) : Lab4.W :=
  mkWorld fresh_inode (Lab4.mkOsfsInode 0 0 0) sb um pos 1 [].

Definition bonus_fresh (sb : osfs_sb_info) (um : umem) (pos : Z) : Bonus.W :=
  mkWorld fresh_inode (Bonus.mkOsfsInode 0 0 (repeat 0 (Z.to_nat MAX_BLOCKS_PER_FILE)))
          sb um pos 1 [].

(** A file of two blocks and a file of one block, both written before. *)
Definition two_block_file (um : umem) (pos : Z) : Bonus.W :=
  mkWorld (VFS.mkInode 8192 0 0 false) (Bonus.mkOsfsInode 8192 2 [1; 2; 0; 0; 0])
          (mkSb (fun _ => Byte.x41) [false; true; true; false]) um pos 1 [].

Definition one_block_file (um : umem) (pos : Z) : Lab4.W :=
  mkWorld (VFS.mkInode 100 0 0 false) (Lab4.mkOsfsInode 100 1 1)
          (mkSb (fun _ => Byte.x41) [false; true; false; false]) um pos 1 [].

(** A user space in which the addresses [lo .. hi - 1] are accessible and
    hold two bytes in turn. *)
Definition striped_user (lo hi : Z) : umem :=
  mkUmem (fun a => (lo <=? a) && (a <? hi))
         (fun a => if Z.even a then Byte.x41 else Byte.x42).

(** * Vocabulary of the properties *)

(** What a call appended to the log. *)
Definition new_events {I : Type} (w w' : world I) : list event :=
  drop (length (w_log w)) (w_log w').

(** The events of the three closing statements of [osfs_write]. *)
Definition touch_events (t : Z) : list event :=
  [Ev_set_mtime t; Ev_set_ctime t; Ev_mark_inode_dirty].

Definition no_metadata_event (evs : list event) : Prop :=
  Forall (fun e => is_metadata_event e = false) evs.

(** The Metadata Updater ran once, as the last thing. *)
Definition touched_once_at_end (t : Z) (evs : list event) : Prop :=
  exists pre, evs = pre ++ touch_events t /\ no_metadata_event pre.

Definition same_times (a b : VFS.inode) : Prop :=
  VFS.i_mtime a = VFS.i_mtime b /\ VFS.i_ctime a = VFS.i_ctime b /\
  VFS.i_dirty a = VFS.i_dirty b.

(** The call from [w] to [w'] ran the Metadata Updater once, as its last
    step: both times are the current time and the inode is dirty. *)
Definition metadata_updated {I : Type} (w w' : world I) : Prop :=
  touched_once_at_end (w_clock w) (new_events w w') /\
  VFS.i_mtime (w_inode w') = w_clock w /\
  VFS.i_ctime (w_inode w') = w_clock w /\
  VFS.i_dirty (w_inode w') = true.

(** The call from [w] to [w'] did not run it. *)
Definition metadata_untouched {I : Type} (w w' : world I) : Prop :=
  no_metadata_event (new_events w w') /\ same_times (w_inode w') (w_inode w).

Definition is_failed_copy_to_user (e : event) : bool :=
  match e with
  | Ev_copy_to_user _ _ _ uncopied => negb (uncopied =? 0)
  | _ => false
  end.

(** Every address of [addr .. addr + n - 1] is accessible. *)
Definition user_ok (um : umem) (addr n : Z) : bool :=
  Nat.eqb (accessible_prefix (u_ok um) addr (Z.to_nat n)) (Z.to_nat n).

(** What the VFS guarantees about a position and a length before it calls
    [->read] or [->write] ([rw_verify_area]): neither is negative and their
    sum is a position too. *)
Definition vfs_range (pos len : Z) : Prop :=
  0 <= pos /\ 0 <= len /\ pos + len < 2 ^ 63.

(** [c'] is the state of the loop variables at the head of the loop after
    some number of complete turns from [c]. *)
Inductive turns {C R : Type} (guard : C -> bool) (body : C -> C + R) : C -> C -> Prop :=
| turns_none c : turns guard body c c
| turns_more c c' c'' :
    guard c = true -> body c = inl c' -> turns guard body c' c'' ->
    turns guard body c c''.

(** The worlds a file of the multi-block variant can be in.  A new file has
    size 0 and no block; between two calls the caller may move the
    position, the user program may change its memory and time passes; the
    calls are reads and writes.  [may_write] says at which worlds a write
    may start. *)
Inductive reachable (may_write : Bonus.W -> Prop) : Bonus.W -> Prop :=
| reach_fresh sb um pos :
    reachable may_write (bonus_fresh sb um pos)
| reach_caller w um pos t :
    reachable may_write w ->
    reachable may_write (mkWorld (w_inode w) (w_osfs w) (w_sb w) um pos t (w_log w))
| reach_read w buf len r w' :
    reachable may_write w ->
    Bonus.osfs_read w buf len = Some (r, w') ->
    reachable may_write w'
| reach_write w buf len r w' :
    reachable may_write w -> may_write w ->
    Bonus.osfs_write w buf len = Some (r, w') ->
    reachable may_write w'.

Definition any_write (w : Bonus.W) : Prop := True.

(** Writes that start inside the file or at its end. *)
Definition write_within_size (w : Bonus.W) : Prop :=
  0 <= w_pos w <= Bonus.i_size (w_osfs w).

(** The slots of the extent map that hold a block hold distinct blocks,
    none of them block 0, all of them marked in the bitmap. *)
Definition extent_ok (w : Bonus.W) : Prop :=
  length (Bonus.blocks (w_osfs w)) = Z.to_nat MAX_BLOCKS_PER_FILE /\
  (forall (i : nat) (b : Z), Bonus.blocks (w_osfs w) !! i = Some b -> b <> 0 ->
     0 < b /\ block_bitmap (w_sb w) !! Z.to_nat b = Some true) /\
  (forall (i j : nat) (b : Z), Bonus.blocks (w_osfs w) !! i = Some b ->
     Bonus.blocks (w_osfs w) !! j = Some b -> b <> 0 -> i = j).

(** The length [osfs_read] goes into its loop with. *)
Definition read_len (w : Bonus.W) (len : Z) : Z :=
  if u64 (w_pos w + len) >? Bonus.i_size (w_osfs w)
  then u64 (Bonus.i_size (w_osfs w) - w_pos w) else len.

(** The invariant of the write loop about positions, counts, size and log. *)
Definition write_progress (w : Bonus.W) (len : Z) (c : Bonus.loop) : Prop :=
  0 <= Bonus.l_bytes c /\ 0 <= Bonus.l_len c /\
  Bonus.l_bytes c + Bonus.l_len c = len /\
  w_pos (Bonus.l_w c) = w_pos w + Bonus.l_bytes c /\
  Bonus.i_size (w_osfs (Bonus.l_w c))
  = (if Bonus.l_bytes c >? 0 then Z.max (Bonus.i_size (w_osfs w)) (w_pos w + Bonus.l_bytes c)
     else Bonus.i_size (w_osfs w)) /\
  w_clock (Bonus.l_w c) = w_clock w /\
  w_user (Bonus.l_w c) = w_user w /\
  same_times (w_inode (Bonus.l_w c)) (w_inode w) /\
  exists evs, w_log (Bonus.l_w c) = w_log w ++ evs /\ no_metadata_event evs.

(** Every block index below the size boundary has a block. *)
Definition no_holes (w : Bonus.W) : Prop :=
  forall i, 0 <= i -> i * BLOCK_SIZE < Bonus.i_size (w_osfs w) ->
            Bonus.slot (w_osfs w) i <> 0.

Definition hole_inv (w : Bonus.W) : Prop :=
  no_holes w /\
  0 <= Bonus.i_size (w_osfs w) <= MAX_BLOCKS_PER_FILE * BLOCK_SIZE /\
  length (Bonus.blocks (w_osfs w)) = Z.to_nat MAX_BLOCKS_PER_FILE.


(** The world a turn of a loop leaves, whether the loop goes on or the
    function returns. *)
Definition after_turn (o : Bonus.loop + Z * Bonus.W) : Bonus.W :=
  match o with
  | inl c' => Bonus.l_w c'
  | inr (_, w') => w'
  end.

(** The block indices of the positions that the turns of the write loop
    from [c0] to [c] went over. *)
Definition block_written (c0 c : Bonus.loop) (j : Z) : Prop :=
  Bonus.blk_index (w_pos (Bonus.l_w c0)) <= j /\
  j * BLOCK_SIZE < w_pos (Bonus.l_w c) /\
  w_pos (Bonus.l_w c0) < w_pos (Bonus.l_w c).

(** What these turns did to the extent map: the slots of the blocks they
    went over hold a block, the slots that held a block kept it, and no
    other slot changed. *)
Definition blocks_completed (c0 c : Bonus.loop) : Prop :=
  w_pos (Bonus.l_w c) = w_pos (Bonus.l_w c0) + (Bonus.l_bytes c - Bonus.l_bytes c0) /\
  Bonus.l_bytes c0 <= Bonus.l_bytes c /\
  (forall j, block_written c0 c j -> Bonus.slot (w_osfs (Bonus.l_w c)) j <> 0) /\
  (forall j, 0 <= j -> Bonus.slot (w_osfs (Bonus.l_w c0)) j <> 0 ->
             Bonus.slot (w_osfs (Bonus.l_w c)) j = Bonus.slot (w_osfs (Bonus.l_w c0)) j) /\
  (forall j, 0 <= j -> ~ block_written c0 c j ->
             Bonus.slot (w_osfs (Bonus.l_w c)) j = Bonus.slot (w_osfs (Bonus.l_w c0)) j).

(** The positions and counts of a loop state stay below the bounds within
    which no arithmetic of the loop wraps. *)
Definition loop_in_range (c : Bonus.loop) : Prop :=
  0 <= w_pos (Bonus.l_w c) /\ 0 <= Bonus.l_bytes c /\ 0 <= Bonus.l_len c /\
  w_pos (Bonus.l_w c) + Bonus.l_len c < 2 ^ 32 * BLOCK_SIZE /\
  Bonus.l_bytes c + Bonus.l_len c < 2 ^ 63 /\
  length (Bonus.blocks (w_osfs (Bonus.l_w c))) = Z.to_nat MAX_BLOCKS_PER_FILE.

(** The loop variables after one more turn of the write loop (the same
    variables when the turn returns). *)
Definition next_turn (c : Bonus.loop) : Bonus.loop :=
  match Bonus.write_body c with
  | inl c' => c'
  | inr _ => c
  end.

Definition turn_goes_on (c : Bonus.loop) : bool :=
  match Bonus.write_body c with
  | inl _ => true
  | inr _ => false
  end.

(** The invariant of the write loop for a request of [k] bytes from the
    buffer [wbuf], started in the world [w]: every position the loop went
    over has a block, and the block holds the byte of the buffer there. *)
Definition written_so_far (w : Bonus.W) (wbuf k : Z) (c : Bonus.loop) : Prop :=
  0 <= Bonus.l_bytes c /\ 0 <= Bonus.l_len c /\ Bonus.l_bytes c + Bonus.l_len c = k /\
  w_pos (Bonus.l_w c) = w_pos w + Bonus.l_bytes c /\
  Bonus.l_buf c = wbuf + Bonus.l_bytes c /\
  w_user (Bonus.l_w c) = w_user w /\
  extent_ok (Bonus.l_w c) /\
  forall p, w_pos w <= p < w_pos (Bonus.l_w c) ->
    Bonus.slot (w_osfs (Bonus.l_w c)) (p / BLOCK_SIZE) <> 0 /\
    data_blocks (w_sb (Bonus.l_w c))
      (Bonus.slot (w_osfs (Bonus.l_w c)) (p / BLOCK_SIZE) * BLOCK_SIZE + p mod BLOCK_SIZE)
    = u_byte (w_user w) (wbuf + (p - w_pos w)).

(** The address in the arena from which [osfs_read] takes the byte at
    position [p] of a file with extent map [o]: the block number and its
    product with [BLOCK_SIZE] are unsigned ints there. *)
Definition read_addr (o : Bonus.osfs_inode) (p : Z) : Z :=
  u32 (u32 (Bonus.slot o (p / BLOCK_SIZE)) * BLOCK_SIZE) + p mod BLOCK_SIZE.

(** The block numbers of the extent map are such that this product does
    not wrap: they address bytes of the first [2 ^ 32] bytes of the arena. *)
Definition blocks_addressable (o : Bonus.osfs_inode) : Prop :=
  forall j, 0 <= Bonus.slot o j /\ Bonus.slot o j * BLOCK_SIZE < 2 ^ 32.

(** The arena is no larger than an unsigned int can address. *)
Definition arena_addressable (sb : osfs_sb_info) : Prop :=
  Z.of_nat (length (block_bitmap sb)) * BLOCK_SIZE <= 2 ^ 32.

(** The invariant of the read loop for a request of [k] bytes into the
    buffer [rbuf], started in the world [w]. *)
Definition read_so_far (w : Bonus.W) (rbuf k : Z) (c : Bonus.loop) : Prop :=
  0 <= Bonus.l_bytes c /\ 0 <= Bonus.l_len c /\ Bonus.l_bytes c + Bonus.l_len c = k /\
  w_pos (Bonus.l_w c) = w_pos w + Bonus.l_bytes c /\
  Bonus.l_buf c = rbuf + Bonus.l_bytes c /\
  w_osfs (Bonus.l_w c) = w_osfs w /\ w_sb (Bonus.l_w c) = w_sb w /\
  u_ok (w_user (Bonus.l_w c)) = u_ok (w_user w) /\
  forall j, 0 <= j < Bonus.l_bytes c ->
    u_byte (w_user (Bonus.l_w c)) (rbuf + j)
    = data_blocks (w_sb w) (read_addr (w_osfs w) (w_pos w + j)).

(** * Vocabulary of the further properties *)

(** The number of slots of the extent map that hold a block. *)
Definition allocated_slots (o : Bonus.osfs_inode) : nat :=
  length (List.filter (fun b => negb (b =? 0)) (Bonus.blocks o)).

(** The address [a] of the arena lies in the physical block [blk]. *)
Definition in_block (blk a : Z) : Prop :=
  blk * BLOCK_SIZE <= a < blk * BLOCK_SIZE + BLOCK_SIZE.

(** What a write started in [w0] has done when it is in [w]: a byte of the
    arena that differs lies in a block the file holds; a block the file
    holds is one it held in [w0] or one that was free in [w0]; a block
    that is free was free in [w0]; the slots of [w0] that held a block
    hold it still. *)
Definition within_own_blocks (w0 w : Bonus.W) : Prop :=
  length (Bonus.blocks (w_osfs w)) = Z.to_nat MAX_BLOCKS_PER_FILE /\
  (forall a, data_blocks (w_sb w) a <> data_blocks (w_sb w0) a ->
     exists j, 0 <= j < MAX_BLOCKS_PER_FILE /\ Bonus.slot (w_osfs w) j <> 0 /\
               in_block (Bonus.slot (w_osfs w) j) a) /\
  (forall j, 0 <= j < MAX_BLOCKS_PER_FILE -> Bonus.slot (w_osfs w) j <> 0 ->
     Bonus.slot (w_osfs w) j = Bonus.slot (w_osfs w0) j \/
     (Bonus.slot (w_osfs w0) j = 0 /\
      block_bitmap (w_sb w0) !! Z.to_nat (Bonus.slot (w_osfs w) j) = Some false)) /\
  (forall b : nat, block_bitmap (w_sb w) !! b = Some false ->
     block_bitmap (w_sb w0) !! b = Some false) /\
  (forall j, 0 <= j -> Bonus.slot (w_osfs w0) j <> 0 ->
     Bonus.slot (w_osfs w) j = Bonus.slot (w_osfs w0) j).

(** A byte of the arena that a turn of the write loop changes lies in the
    block of the turn's slot: anywhere in it when the turn allocated the
    block, which was free before, and else among the bytes the turn
    copied. *)
Definition turn_changes (c : Bonus.loop) (a : Z) : Prop :=
  let w := Bonus.l_w c in
  let w' := after_turn (Bonus.write_body c) in
  let idx := Bonus.blk_index (w_pos w) in
  let blk := Bonus.slot (w_osfs w') idx in
  idx < MAX_BLOCKS_PER_FILE /\ blk <> 0 /\
  ((Bonus.slot (w_osfs w) idx = 0 /\
    block_bitmap (w_sb w) !! Z.to_nat blk = Some false /\
    blk * BLOCK_SIZE <= a < blk * BLOCK_SIZE + BLOCK_SIZE) \/
   (blk * BLOCK_SIZE + w_pos w mod BLOCK_SIZE <= a
    < blk * BLOCK_SIZE + w_pos w mod BLOCK_SIZE
      + Z.min (Bonus.l_len c) (BLOCK_SIZE - w_pos w mod BLOCK_SIZE))).

(** The address in the arena of the byte at position [p] of a file with
    extent map [o]. *)
Definition byte_addr (o : Bonus.osfs_inode) (p : Z) : Z :=
  Bonus.slot o (p / BLOCK_SIZE) * BLOCK_SIZE + p mod BLOCK_SIZE.

(** What a write of [len] bytes started in [w0] leaves alone when it is in
    [w]: the slots that held a block, and the bytes of the file at the
    positions outside the request. *)
Definition keeps_other_content (w0 : Bonus.W) (len : Z) (w : Bonus.W) : Prop :=
  (forall j, 0 <= j -> Bonus.slot (w_osfs w0) j <> 0 ->
     Bonus.slot (w_osfs w) j = Bonus.slot (w_osfs w0) j) /\
  (forall p, 0 <= p -> Bonus.slot (w_osfs w0) (p / BLOCK_SIZE) <> 0 ->
     ~ (w_pos w0 <= p < w_pos w0 + len) ->
     data_blocks (w_sb w) (byte_addr (w_osfs w0) p)
     = data_blocks (w_sb w0) (byte_addr (w_osfs w0) p)).

(** The number of bytes a read of [len] bytes at [pos] can deliver from a
    file of [size] bytes. *)
Definition available (size pos len : Z) : Z := Z.max 0 (Z.min len (size - pos)).

(** A file that holds all the blocks it can hold. *)
Definition five_block_file (um : umem) (pos : Z) : Bonus.W :=
  mkWorld (VFS.mkInode 20480 0 0 false) (Bonus.mkOsfsInode 20480 5 [1; 2; 3; 4; 5])
          (mkSb (fun _ => Byte.x41) [false; true; true; true; true; true]) um pos 1 [].

(** The [n] bytes from the address [src] on lie in the physical block
    [blk]. *)
Definition span_in_block (blk src n : Z) : Prop :=
  0 <= n /\ blk * BLOCK_SIZE <= src /\ src + n <= blk * BLOCK_SIZE + BLOCK_SIZE.

(** The event is a [copy_to_user] whose source and length satisfy [P]. *)
Definition copies_out (P : Z -> Z -> Prop) (e : event) : Prop :=
  match e with
  | Ev_copy_to_user _ src n _ => P src n
  | _ => False
  end.

(** A file of the single-block variant and a file of the multi-block
    variant are the same file: they live in the same filesystem, are used
    by the same caller at the same position, have the same size, and the
    block of the first, when it has one, is the block of slot 0 of the
    second. *)
Definition same_file (wl : Lab4.W) (wb : Bonus.W) : Prop :=
  w_inode wl = w_inode wb /\ w_sb wl = w_sb wb /\ w_user wl = w_user wb /\
  w_pos wl = w_pos wb /\ w_clock wl = w_clock wb /\ w_log wl = w_log wb /\
  Lab4.i_size (w_osfs wl) = Bonus.i_size (w_osfs wb) /\
  length (Bonus.blocks (w_osfs wb)) = Z.to_nat MAX_BLOCKS_PER_FILE /\
  ((Lab4.i_blocks (w_osfs wl) = 0 /\ Bonus.slot (w_osfs wb) 0 = 0) \/
   (Lab4.i_blocks (w_osfs wl) <> 0 /\ Bonus.slot (w_osfs wb) 0 <> 0 /\
    Lab4.i_block (w_osfs wl) = Bonus.slot (w_osfs wb) 0)).

(** Unfolds the setters of a world and the projections of the records. *)
Ltac world_norm :=
  cbn [w_inode w_osfs w_sb w_user w_pos w_clock w_log
       set_inode set_osfs set_sb set_user set_pos emit set_data set_vfs_size
       inode_set_mtime inode_set_ctime mark_inode_dirty touch
       Bonus.set_slot Bonus.set_size Bonus.i_size Bonus.i_blocks Bonus.blocks
       Bonus.l_w Bonus.l_buf Bonus.l_len Bonus.l_bytes
       Lab4.i_size Lab4.i_blocks Lab4.i_block data_blocks block_bitmap
       VFS.i_size VFS.i_mtime VFS.i_ctime VFS.i_dirty fst snd].

(** * Properties *)

Arguments u32 : simpl never.
Arguments u64 : simpl never.
Arguments s64 : simpl never.
Arguments Z.mul : simpl never.
Arguments Z.add : simpl never.
Arguments Z.sub : simpl never.
Arguments Z.quot : simpl never.
Arguments Z.rem : simpl never.
Arguments Z.of_nat : simpl never.
Arguments Z.to_nat : simpl never.

(** ** Machine integers *)

Lemma u32_small x : 0 <= x < 2 ^ 32 -> u32 x = x.
Proof. intros H. unfold u32. apply Z.mod_small. lia. Qed.

Lemma u64_small x : 0 <= x < 2 ^ 64 -> u64 x = x.
Proof. intros H. unfold u64. apply Z.mod_small. lia. Qed.

Lemma s64_small x : - 2 ^ 63 <= x < 2 ^ 63 -> s64 x = x.
Proof. intros H. unfold s64. rewrite Z.mod_small; lia. Qed.

Lemma u32_range x : 0 <= u32 x < 2 ^ 32.
Proof. unfold u32. apply Z.mod_pos_bound. lia. Qed.

Lemma u64_range x : 0 <= u64 x < 2 ^ 64.
Proof. unfold u64. apply Z.mod_pos_bound. lia. Qed.

(** ** The locals of the loop bodies *)

Lemma blk_offset_nonneg pos :
  0 <= pos -> Bonus.blk_offset pos = pos mod BLOCK_SIZE.
Proof.
  intros H. unfold Bonus.blk_offset.
  rewrite Z.rem_mod_nonneg by (unfold BLOCK_SIZE; lia).
  apply u32_small.
  pose proof (Z.mod_pos_bound pos BLOCK_SIZE). unfold BLOCK_SIZE in *. lia.
Qed.

Lemma blk_index_nonneg pos :
  0 <= pos -> Bonus.blk_index pos = u32 (pos / BLOCK_SIZE).
Proof.
  intros H. unfold Bonus.blk_index.
  now rewrite Z.quot_div_nonneg by (unfold BLOCK_SIZE; lia).
Qed.

Lemma blk_index_small pos :
  0 <= pos < 2 ^ 32 * BLOCK_SIZE -> Bonus.blk_index pos = pos / BLOCK_SIZE.
Proof.
  intros H. rewrite blk_index_nonneg by lia. apply u32_small.
  unfold BLOCK_SIZE in *. split.
  - apply Z.div_pos; lia.
  - apply Z.div_lt_upper_bound; lia.
Qed.

(** Whatever the position, a turn of the loop moves at least one byte and at
    most [len]. *)
Lemma seg_len_bounds pos len :
  0 < len -> 1 <= Bonus.seg_len pos len <= len.
Proof.
  intros H. unfold Bonus.seg_len. cbv zeta.
  assert (u32 (BLOCK_SIZE - Bonus.blk_offset pos) <> 0) as Hnz.
  { unfold Bonus.blk_offset, u32, BLOCK_SIZE.
    change (2 ^ 32) with 4294967296.
    Z.to_euclidean_division_equations. lia. }
  pose proof (u32_range (BLOCK_SIZE - Bonus.blk_offset pos)).
  destruct (Z.gtb_spec (u32 (BLOCK_SIZE - Bonus.blk_offset pos)) len); lia.
Qed.

Lemma seg_len_nonneg pos len :
  0 <= pos ->
  Bonus.seg_len pos len = Z.min len (BLOCK_SIZE - pos mod BLOCK_SIZE).
Proof.
  intros H. unfold Bonus.seg_len. cbv zeta. rewrite blk_offset_nonneg by lia.
  pose proof (Z.mod_pos_bound pos BLOCK_SIZE ltac:(unfold BLOCK_SIZE; lia)).
  rewrite u32_small by (unfold BLOCK_SIZE in *; lia).
  destruct (Z.gtb_spec (BLOCK_SIZE - pos mod BLOCK_SIZE) len); lia.
Qed.

(** ** The loop *)

Section While.
Context {C R : Type} (guard : C -> bool) (body : C -> C + R).

Lemma while_mono fuel fuel' c r :
  while guard body fuel c = Some r -> (fuel <= fuel')%nat ->
  while guard body fuel' c = Some r.
Proof.
  revert fuel' c. induction fuel as [|fuel IH]; intros fuel' c H Hle; [discriminate|].
  destruct fuel' as [|fuel']; [lia|]. simpl in *.
  destruct (guard c); [|exact H].
  destruct (body c) as [c'|r']; [|exact H].
  apply IH; [exact H|lia].
Qed.

(** The rule of the loop: an invariant, a measure that every turn
    decreases, and what holds at the two ways out. *)
Lemma while_rule (Inv : C -> Prop) (Post : C + R -> Prop) (m : C -> nat) :
  (forall c, Inv c -> guard c = true ->
     match body c with
     | inl c' => Inv c' /\ (m c' < m c)%nat
     | inr r => Post (inr r)
     end) ->
  (forall c, Inv c -> guard c = false -> Post (inl c)) ->
  forall fuel c, Inv c -> (m c < fuel)%nat ->
  exists o, while guard body fuel c = Some o /\ Post o.
Proof.
  intros Hbody Hexit. induction fuel as [|fuel IH]; intros c HI Hm; [lia|].
  simpl. destruct (guard c) eqn:Hg.
  - specialize (Hbody c HI Hg). destruct (body c) as [c'|r].
    + destruct Hbody as [HI' Hm']. apply IH; [exact HI'|lia].
    + eauto.
  - eauto.
Qed.

Lemma while_turns c c' fuel r :
  turns guard body c c' -> while guard body fuel c' = Some r ->
  exists fuel', while guard body fuel' c = Some r.
Proof.
  induction 1 as [c|c c1 c2 Hg Hb _ IH]; intros Hw; [eauto|].
  destruct (IH Hw) as [f Hf]. exists (S f). simpl. now rewrite Hg, Hb.
Qed.

Lemma while_det fuel fuel' c r r' :
  while guard body fuel c = Some r -> while guard body fuel' c = Some r' -> r = r'.
Proof.
  intros H H'.
  apply while_mono with (fuel' := Nat.max fuel fuel') in H; [|lia].
  apply while_mono with (fuel' := Nat.max fuel fuel') in H'; [|lia].
  congruence.
Qed.

End While.

(** ** The allocator *)

Lemma find_free_spec bm : forall k i,
  find_free k bm = Some i -> (k <= i)%nat /\ bm !! (i - k)%nat = Some false.
Proof.
  induction bm as [|b bm IH]; intros k i H; simpl in H; [discriminate|].
  destruct b.
  - apply IH in H as [Hle Hl]. split; [lia|].
    replace (i - k)%nat with (S (i - S k)) by lia. exact Hl.
  - injection H as <-. split; [lia|]. now rewrite Nat.sub_diag.
Qed.

Lemma alloc_cases sb :
  (exists i : nat,
      osfs_alloc_data_block sb
      = (0, mkSb (data_blocks sb) (<[i := true]> (block_bitmap sb)), Z.of_nat i)
      /\ (1 <= i)%nat /\ block_bitmap sb !! i = Some false)
  \/ osfs_alloc_data_block sb = (- ENOSPC, sb, 0).
Proof.
  unfold osfs_alloc_data_block.
  destruct (find_free 1 (tail (block_bitmap sb))) as [i|] eqn:Hf; [left|now right].
  exists i. apply find_free_spec in Hf as [Hle Hl]. repeat split; [exact Hle|].
  destruct (block_bitmap sb) as [|b0 bm]; simpl in Hl; [discriminate|].
  destruct i as [|i]; [lia|]. simpl in *. now rewrite Nat.sub_0_r in Hl.
Qed.

(** The allocator's return value is 0 or [-ENOSPC]. *)
Lemma alloc_ret sb ret sb' blk :
  osfs_alloc_data_block sb = (ret, sb', blk) ->
  (ret = 0 /\ 0 < blk /\ data_blocks sb' = data_blocks sb)
  \/ (ret = - ENOSPC /\ sb' = sb /\ blk = 0).
Proof.
  intros H. destruct (alloc_cases sb) as [(i & E & Hi & _)|E]; rewrite E in H;
    injection H as <- <- <-; [left|right]; repeat split; lia.
Qed.

(** ** One turn of the loops of the multi-block variant *)

Lemma read_body_len c c' :
  Bonus.loop_guard c = true -> Bonus.read_body c = inl c' ->
  0 <= Bonus.l_len c' < Bonus.l_len c.
Proof.
  unfold Bonus.loop_guard, Bonus.read_body. intros Hg H.
  apply Z.gtb_lt in Hg.
  pose proof (seg_len_bounds (w_pos (Bonus.l_w c)) (Bonus.l_len c) ltac:(lia)) as Hs.
  repeat case_match; try discriminate. injection H as <-. simpl.
  pose proof (u64_range (Bonus.l_len c - Bonus.seg_len (w_pos (Bonus.l_w c)) (Bonus.l_len c))).
  assert (u64 (Bonus.l_len c - Bonus.seg_len (w_pos (Bonus.l_w c)) (Bonus.l_len c))
          <= Bonus.l_len c - Bonus.seg_len (w_pos (Bonus.l_w c)) (Bonus.l_len c)).
  { unfold u64. apply Z.mod_le; lia. }
  lia.
Qed.

Lemma write_body_len c c' :
  Bonus.loop_guard c = true -> Bonus.write_body c = inl c' ->
  0 <= Bonus.l_len c' < Bonus.l_len c.
Proof.
  unfold Bonus.loop_guard, Bonus.write_body. intros Hg H.
  apply Z.gtb_lt in Hg.
  pose proof (seg_len_bounds (w_pos (Bonus.l_w c)) (Bonus.l_len c) ltac:(lia)) as Hs.
  pose proof (u64_range (Bonus.l_len c - Bonus.seg_len (w_pos (Bonus.l_w c)) (Bonus.l_len c))).
  assert (u64 (Bonus.l_len c - Bonus.seg_len (w_pos (Bonus.l_w c)) (Bonus.l_len c))
          <= Bonus.l_len c - Bonus.seg_len (w_pos (Bonus.l_w c)) (Bonus.l_len c)).
  { unfold u64. apply Z.mod_le; lia. }
  cbv zeta in H. repeat case_match; try discriminate; injection H as <-; simpl; lia.
Qed.

(** ** Rules for whole calls of the multi-block variant

    Both functions return for every input: the fuel they start the loop
    with is never used up. *)

Lemma osfs_write_rule (Inv : Bonus.loop -> Prop) (Q : Z * Bonus.W -> Prop) w buf len :
  Inv (Bonus.mkLoop w buf len 0) ->
  (forall c, Inv c -> Bonus.loop_guard c = true ->
     match Bonus.write_body c with inl c' => Inv c' | inr r => Q r end) ->
  (forall c, Inv c -> Bonus.loop_guard c = false ->
     Q (Bonus.l_bytes c, touch (Bonus.l_w c))) ->
  exists r, Bonus.osfs_write w buf len = Some r /\ Q r.
Proof.
  intros H0 Hbody Hexit. unfold Bonus.osfs_write.
  destruct (while_rule Bonus.loop_guard Bonus.write_body Inv
              (fun o => match o with
                        | inl c => Q (Bonus.l_bytes c, touch (Bonus.l_w c))
                        | inr r => Q r
                        end)
              (fun c => Z.to_nat (Bonus.l_len c)))
    with (fuel := S (Z.to_nat len)) (c := Bonus.mkLoop w buf len 0)
    as (o & -> & Ho); simpl; try lia; try assumption.
  - intros c HI Hg. specialize (Hbody c HI Hg).
    destruct (Bonus.write_body c) as [c'|r] eqn:Hb; [|exact Hbody].
    split; [exact Hbody|]. pose proof (write_body_len c c' Hg Hb). lia.
  - destruct o; eauto.
Qed.

Lemma osfs_read_loop_rule (Inv : Bonus.loop -> Prop) (Q : Z * Bonus.W -> Prop) w buf len :
  Inv (Bonus.mkLoop w buf len 0) ->
  (forall c, Inv c -> Bonus.loop_guard c = true ->
     match Bonus.read_body c with inl c' => Inv c' | inr r => Q r end) ->
  (forall c, Inv c -> Bonus.loop_guard c = false -> Q (Bonus.l_bytes c, Bonus.l_w c)) ->
  exists r,
    match while Bonus.loop_guard Bonus.read_body (S (Z.to_nat len)) (Bonus.mkLoop w buf len 0) with
    | None => None
    | Some (inr r) => Some r
    | Some (inl c) => Some (Bonus.l_bytes c, Bonus.l_w c)
    end = Some r /\ Q r.
Proof.
  intros H0 Hbody Hexit.
  destruct (while_rule Bonus.loop_guard Bonus.read_body Inv
              (fun o => match o with
                        | inl c => Q (Bonus.l_bytes c, Bonus.l_w c)
                        | inr r => Q r
                        end)
              (fun c => Z.to_nat (Bonus.l_len c)))
    with (fuel := S (Z.to_nat len)) (c := Bonus.mkLoop w buf len 0)
    as (o & -> & Ho); simpl; try lia; try assumption.
  - intros c HI Hg. specialize (Hbody c HI Hg).
    destruct (Bonus.read_body c) as [c'|r] eqn:Hb; [|exact Hbody].
    split; [exact Hbody|]. pose proof (read_body_len c c' Hg Hb). lia.
  - destruct o; eauto.
Qed.

Lemma osfs_read_rule (Inv : Bonus.loop -> Prop) (Q : Z * Bonus.W -> Prop) w buf len :
  (w_pos w >= Bonus.i_size (w_osfs w) -> Q (0, w)) ->
  (w_pos w < Bonus.i_size (w_osfs w) -> Inv (Bonus.mkLoop w buf (read_len w len) 0)) ->
  (forall c, Inv c -> Bonus.loop_guard c = true ->
     match Bonus.read_body c with inl c' => Inv c' | inr r => Q r end) ->
  (forall c, Inv c -> Bonus.loop_guard c = false -> Q (Bonus.l_bytes c, Bonus.l_w c)) ->
  exists r, Bonus.osfs_read w buf len = Some r /\ Q r.
Proof.
  intros Heof H0 Hbody Hexit. unfold Bonus.osfs_read.
  destruct (Z.geb_spec (w_pos w) (Bonus.i_size (w_osfs w))) as [Hge|Hlt].
  - eexists; split; [reflexivity|]. apply Heof. lia.
  - apply (osfs_read_loop_rule Inv Q); auto.
Qed.

Lemma osfs_write_total w buf len : exists r, Bonus.osfs_write w buf len = Some r.
Proof.
  destruct (osfs_write_rule (fun _ => True) (fun _ => True) w buf len) as (r & H & _);
    eauto.
  intros c _ _. now destruct (Bonus.write_body c).
Qed.

Lemma osfs_read_total w buf len : exists r, Bonus.osfs_read w buf len = Some r.
Proof.
  destruct (osfs_read_rule (fun _ => True) (fun _ => True) w buf len) as (r & H & _);
    eauto.
  intros c _ _. now destruct (Bonus.read_body c).
Qed.

(** ** Reading at or past the end of the file *)

(** C7: a read whose position is at or past the size of the file returns 0,
    which is not an error, and leaves the world as it is; this holds in both
    variants and for every size, 0 included. *)
Theorem read_at_end_of_file (wl : Lab4.W) (wb : Bonus.W) (buf len : Z) :
  Lab4.i_size (w_osfs wl) <= w_pos wl ->
  Bonus.i_size (w_osfs wb) <= w_pos wb ->
  Lab4.osfs_read wl buf len = (0, wl) /\
  Bonus.osfs_read wb buf len = Some (0, wb).
Proof.
  intros Hl Hb. split.
  - unfold Lab4.osfs_read. cbv zeta.
    destruct (Lab4.i_blocks (w_osfs wl) =? 0); [reflexivity|].
    destruct (Z.geb_spec (w_pos wl) (Lab4.i_size (w_osfs wl))); [reflexivity|lia].
  - unfold Bonus.osfs_read.
    destruct (Z.geb_spec (w_pos wb) (Bonus.i_size (w_osfs wb))); [reflexivity|lia].
Qed.

Lemma read_at_end_of_file_witness :
  Lab4.osfs_read (lab4_fresh (fresh_sb 8 Byte.xff) no_user 0) 0 10
  = (0, lab4_fresh (fresh_sb 8 Byte.xff) no_user 0) /\
  Bonus.osfs_read (bonus_fresh (fresh_sb 8 Byte.xff) no_user 7) 0 10
  = Some (0, bonus_fresh (fresh_sb 8 Byte.xff) no_user 7).
Proof. apply read_at_end_of_file; simpl; lia. Defined.

(** ** What a read leaves alone *)

Lemma read_body_frame c :
  match Bonus.read_body c with
  | inl c' =>
      w_osfs (Bonus.l_w c') = w_osfs (Bonus.l_w c) /\
      w_sb (Bonus.l_w c') = w_sb (Bonus.l_w c) /\
      w_inode (Bonus.l_w c') = w_inode (Bonus.l_w c) /\
      w_clock (Bonus.l_w c') = w_clock (Bonus.l_w c)
  | inr (_, w') =>
      w_osfs w' = w_osfs (Bonus.l_w c) /\
      w_sb w' = w_sb (Bonus.l_w c) /\
      w_inode w' = w_inode (Bonus.l_w c) /\
      w_clock w' = w_clock (Bonus.l_w c)
  end.
Proof.
  unfold Bonus.read_body. cbv zeta.
  destruct (copy_to_user _ _ _) as [uncopied um].
  destruct (uncopied =? 0); simpl; auto.
Qed.

Lemma lab4_read_frame (w : Lab4.W) (buf len : Z) :
  w_osfs (snd (Lab4.osfs_read w buf len)) = w_osfs w /\
  w_sb (snd (Lab4.osfs_read w buf len)) = w_sb w /\
  w_inode (snd (Lab4.osfs_read w buf len)) = w_inode w /\
  w_clock (snd (Lab4.osfs_read w buf len)) = w_clock w.
Proof.
  unfold Lab4.osfs_read. cbv zeta.
  destruct (Lab4.i_blocks (w_osfs w) =? 0); [simpl; auto|].
  destruct (w_pos w >=? Lab4.i_size (w_osfs w)); [simpl; auto|].
  destruct (copy_to_user _ _ _) as [uncopied um].
  destruct (uncopied =? 0); simpl; auto.
Qed.

Lemma bonus_read_frame (w : Bonus.W) (buf len : Z) :
  exists r w', Bonus.osfs_read w buf len = Some (r, w') /\
    w_osfs w' = w_osfs w /\ w_sb w' = w_sb w /\
    w_inode w' = w_inode w /\ w_clock w' = w_clock w.
Proof.
  destruct (osfs_read_rule
              (fun c => w_osfs (Bonus.l_w c) = w_osfs w /\ w_sb (Bonus.l_w c) = w_sb w /\
                        w_inode (Bonus.l_w c) = w_inode w /\ w_clock (Bonus.l_w c) = w_clock w)
              (fun r => w_osfs (snd r) = w_osfs w /\ w_sb (snd r) = w_sb w /\
                        w_inode (snd r) = w_inode w /\ w_clock (snd r) = w_clock w)
              w buf len) as ([r w'] & H & HQ); simpl; auto.
  - intros c (H1 & H2 & H3 & H4) _. pose proof (read_body_frame c) as Hf.
    destruct (Bonus.read_body c) as [c'|[r w']]; simpl;
      destruct Hf as (F1 & F2 & F3 & F4); repeat split; congruence.
  - eauto.
Qed.

(** C10: a read, whatever it returns, leaves the extent map (the block
    numbers and the block count), the size, the arena and its bitmap and the
    VFS inode as they were; what it changes is the position and the
    caller's buffer. *)
Theorem read_leaves_file_state (wl : Lab4.W) (wb : Bonus.W) (buf len : Z) :
  (w_osfs (snd (Lab4.osfs_read wl buf len)) = w_osfs wl /\
   w_sb (snd (Lab4.osfs_read wl buf len)) = w_sb wl /\
   w_inode (snd (Lab4.osfs_read wl buf len)) = w_inode wl /\
   w_clock (snd (Lab4.osfs_read wl buf len)) = w_clock wl) /\
  (exists r w', Bonus.osfs_read wb buf len = Some (r, w') /\
     w_osfs w' = w_osfs wb /\ w_sb w' = w_sb wb /\
     w_inode w' = w_inode wb /\ w_clock w' = w_clock wb).
Proof. split; [apply lab4_read_frame|apply bonus_read_frame]. Qed.

(** ** Writing at or past the capacity *)


(** In the multi-block variant [block_index] is a [uint32_t]: a position of
    [2 ^ 32 * BLOCK_SIZE] or more may have a block index below
    [MAX_BLOCKS_PER_FILE] again, and the write goes through. *)
Example write_far_past_capacity_in_bonus :
  exists w', Bonus.osfs_write (bonus_fresh (fresh_sb 8 Byte.xff) (flat_user 0 8 Byte.x41)
                                 (2 ^ 32 * BLOCK_SIZE)) 0 1 = Some (1, w')
             /\ Bonus.blocks (w_osfs w') = [1; 0; 0; 0; 0].
Proof.
  destruct (osfs_write_total (bonus_fresh (fresh_sb 8 Byte.xff) (flat_user 0 8 Byte.x41)
                                (2 ^ 32 * BLOCK_SIZE)) 0 1) as [[r w'] E].
  pose proof (f_equal (option_map (fun rw => (fst rw, Bonus.blocks (w_osfs (snd rw))))) E) as E'.
  vm_compute in E'. injection E' as Hr Hb.
  exists w'. rewrite E, <- Hr. split; [reflexivity|symmetry; exact Hb].
Qed.



(** ** One turn of the write loop, by cases *)

Lemma alloc_if_needed_inr w idx ret w1 :
  Bonus.alloc_if_needed w idx = inr (ret, w1) ->
  ret = - ENOSPC /\ Bonus.slot (w_osfs w) idx = 0 /\ w1 = emit w (Ev_alloc (- ENOSPC) 0).
Proof.
  unfold Bonus.alloc_if_needed. intros H.
  destruct (Z.eqb_spec (Bonus.slot (w_osfs w) idx) 0) as [Hs|Hs]; [|discriminate].
  destruct (osfs_alloc_data_block (w_sb w)) as [[r sb] blk] eqn:Ha.
  apply alloc_ret in Ha as [(-> & _ & _)|(E1 & E2 & E3)].
  - simpl in H. discriminate.
  - subst. simpl in H. injection H as <- <-. repeat split; auto.
Qed.

Lemma alloc_if_needed_inl w idx w1 :
  Bonus.alloc_if_needed w idx = inl w1 ->
  w_inode w1 = w_inode w /\ w_user w1 = w_user w /\ w_pos w1 = w_pos w /\
  w_clock w1 = w_clock w /\ Bonus.i_size (w_osfs w1) = Bonus.i_size (w_osfs w) /\
  ((Bonus.slot (w_osfs w) idx <> 0 /\ w1 = w) \/
   (Bonus.slot (w_osfs w) idx = 0 /\
    exists (i : nat),
      (1 <= i)%nat /\ block_bitmap (w_sb w) !! i = Some false /\
      w_osfs w1 = Bonus.mkOsfsInode (Bonus.i_size (w_osfs w)) (Bonus.i_blocks (w_osfs w) + 1)
                    (<[Z.to_nat idx := Z.of_nat i]> (Bonus.blocks (w_osfs w))) /\
      w_sb w1 = mkSb (memset0 (data_blocks (w_sb w))
                        (Bonus.slot (w_osfs w1) idx * BLOCK_SIZE) BLOCK_SIZE)
                     (<[i := true]> (block_bitmap (w_sb w))) /\
      w_log w1 = w_log w ++ [Ev_alloc 0 (Z.of_nat i);
                             Ev_memset (Bonus.slot (w_osfs w1) idx * BLOCK_SIZE) BLOCK_SIZE])).
Proof.
  unfold Bonus.alloc_if_needed. intros H.
  destruct (Z.eqb_spec (Bonus.slot (w_osfs w) idx) 0) as [Hs|Hs].
  - destruct (alloc_cases (w_sb w)) as [(i & E & Hi & Hbit)|E]; rewrite E in H; simpl in H;
      [|discriminate].
    injection H as <-. simpl. repeat split; auto. right. split; [exact Hs|].
    exists i. repeat split; auto. now rewrite <- app_assoc.
  - injection H as <-. repeat split; auto.
Qed.

Lemma write_body_cases c :
  let w := Bonus.l_w c in
  let idx := Bonus.blk_index (w_pos w) in
  let n := Bonus.seg_len (w_pos w) (Bonus.l_len c) in
  (MAX_BLOCKS_PER_FILE <= idx /\
   Bonus.write_body c = inr (if Bonus.l_bytes c >? 0 then Bonus.l_bytes c else - ENOSPC, w))
  \/
  (idx < MAX_BLOCKS_PER_FILE /\ Bonus.slot (w_osfs w) idx = 0 /\
   osfs_alloc_data_block (w_sb w) = (- ENOSPC, w_sb w, 0) /\
   Bonus.write_body c = inr (if Bonus.l_bytes c >? 0 then Bonus.l_bytes c else - ENOSPC,
                             emit w (Ev_alloc (- ENOSPC) 0)))
  \/
  (idx < MAX_BLOCKS_PER_FILE /\
   exists w1, Bonus.alloc_if_needed w idx = inl w1 /\
     let addr := Bonus.slot (w_osfs w1) idx * BLOCK_SIZE + Bonus.blk_offset (w_pos w) in
     let cp := copy_from_user (w_user w) (Bonus.l_buf c) n in
     let w2 := emit (set_data w1 (store_bytes (data_blocks (w_sb w1)) addr (snd cp)))
                    (Ev_copy_from_user addr (Bonus.l_buf c) n (fst cp)) in
     (fst cp <> 0 /\ Bonus.write_body c = inr (- EFAULT, w2)) \/
     (fst cp = 0 /\
      let pos' := s64 (w_pos w + n) in
      Bonus.write_body c
      = inl (Bonus.mkLoop
               (if pos' >? Bonus.i_size (w_osfs w)
                then Bonus.set_size (set_pos w2 pos') pos' else set_pos w2 pos')
               (Bonus.l_buf c + n) (u64 (Bonus.l_len c - n)) (s64 (Bonus.l_bytes c + n))))).
Proof.
  intros w idx n. unfold Bonus.write_body. cbv zeta. fold w. fold idx. fold n.
  destruct (Z.geb_spec idx MAX_BLOCKS_PER_FILE) as [Hge|Hlt]; [left; split; [lia|reflexivity]|].
  right.
  destruct (Bonus.alloc_if_needed w idx) as [w1|[ret w1]] eqn:Ha.
  - right. split; [exact Hlt|]. exists w1. split; [reflexivity|].
    destruct (alloc_if_needed_inl _ _ _ Ha) as (_ & Hu & Hp & _ & Hsz & _).
    rewrite Hu.
    destruct (copy_from_user (w_user w) (Bonus.l_buf c) n) as [uncopied bs]. simpl.
    rewrite Hp, Hsz.
    destruct (Z.eqb_spec uncopied 0) as [->|Hne].
    + right. split; reflexivity.
    + left. split; [exact Hne|reflexivity].
  - left. destruct (alloc_if_needed_inr _ _ _ _ Ha) as (-> & Hs & ->).
    repeat split; try assumption.
    unfold Bonus.alloc_if_needed in Ha. rewrite Hs in Ha. simpl in Ha.
    destruct (osfs_alloc_data_block (w_sb w)) as [[r sb] blk] eqn:E.
    apply alloc_ret in E as [(-> & _ & _)|(E1 & E2 & E3)]; [discriminate|]. now subst.
Qed.

Lemma no_metadata_nil : no_metadata_event [].
Proof. constructor. Qed.

Lemma alloc_if_needed_log w idx w1 :
  Bonus.alloc_if_needed w idx = inl w1 ->
  exists evs, w_log w1 = w_log w ++ evs /\ no_metadata_event evs.
Proof.
  intros H. destruct (alloc_if_needed_inl _ _ _ H) as (_ & _ & _ & _ & _ & [[_ ->]|[_ (i & _ & _ & _ & _ & ->)]]).
  - exists []. split; [now rewrite app_nil_r|constructor].
  - eexists. split; [reflexivity|]. repeat constructor.
Qed.

Lemma write_body_effect c :
  let w := Bonus.l_w c in
  0 <= w_pos w -> 0 <= Bonus.l_bytes c -> Bonus.loop_guard c = true ->
  w_pos w + Bonus.l_len c < 2 ^ 63 -> Bonus.l_bytes c + Bonus.l_len c < 2 ^ 63 ->
  match Bonus.write_body c with
  | inl c' =>
      exists n, 1 <= n <= Bonus.l_len c /\
        w_pos (Bonus.l_w c') = w_pos w + n /\
        Bonus.l_len c' = Bonus.l_len c - n /\
        Bonus.l_bytes c' = Bonus.l_bytes c + n /\
        Bonus.l_buf c' = Bonus.l_buf c + n /\
        Bonus.i_size (w_osfs (Bonus.l_w c')) = Z.max (Bonus.i_size (w_osfs w)) (w_pos w + n) /\
        w_clock (Bonus.l_w c') = w_clock w /\
        w_user (Bonus.l_w c') = w_user w /\
        same_times (w_inode (Bonus.l_w c')) (w_inode w) /\
        exists evs, w_log (Bonus.l_w c') = w_log w ++ evs /\ no_metadata_event evs
  | inr (ret, w') =>
      (ret = - EFAULT \/ (0 < Bonus.l_bytes c /\ ret = Bonus.l_bytes c)
       \/ (Bonus.l_bytes c = 0 /\ ret = - ENOSPC)) /\
      w_pos w' = w_pos w /\
      Bonus.i_size (w_osfs w') = Bonus.i_size (w_osfs w) /\
      w_clock w' = w_clock w /\
      w_user w' = w_user w /\
      same_times (w_inode w') (w_inode w) /\
      exists evs, w_log w' = w_log w ++ evs /\ no_metadata_event evs
  end.
Proof.
  intros w Hpos Hb Hg Hpl Hbl. unfold Bonus.loop_guard in Hg. apply Z.gtb_lt in Hg.
  pose proof (seg_len_bounds (w_pos w) (Bonus.l_len c) Hg) as Hn.
  assert (forall b: Z, 0 <= b ->
            (if b >? 0 then b else - ENOSPC) = - EFAULT \/
            (0 < b /\ (if b >? 0 then b else - ENOSPC) = b) \/
            (b = 0 /\ (if b >? 0 then b else - ENOSPC) = - ENOSPC)) as Hret.
  { intros b H0. destruct (Z.gtb_spec b 0); [right; left; lia|right; right; lia]. }
  destruct (write_body_cases c) as [(_ & E)|[(_ & _ & _ & E)|(_ & w1 & Ha & [(_ & E)|(_ & E)])]];
    cbv zeta in E; rewrite E; clear E.
  - repeat split; auto. exists []. split; [now rewrite app_nil_r|constructor].
  - simpl. repeat split; auto. eexists. split; [reflexivity|]. repeat constructor.
  - destruct (alloc_if_needed_inl _ _ _ Ha) as (Hi & Hu & Hp & Hc & Hsz & _).
    destruct (alloc_if_needed_log _ _ _ Ha) as (evs & Hl & Hev).
    simpl. repeat split; auto; try (rewrite Hi; reflexivity).
    exists (evs ++ [Ev_copy_from_user
                      (Bonus.slot (w_osfs w1) (Bonus.blk_index (w_pos w)) * BLOCK_SIZE
                       + Bonus.blk_offset (w_pos w)) (Bonus.l_buf c)
                      (Bonus.seg_len (w_pos w) (Bonus.l_len c))
                      (fst (copy_from_user (w_user w) (Bonus.l_buf c)
                              (Bonus.seg_len (w_pos w) (Bonus.l_len c))))]).
    split; [rewrite Hl; now rewrite app_assoc|].
    apply Forall_app. split; [exact Hev|repeat constructor].
  - destruct (alloc_if_needed_inl _ _ _ Ha) as (Hi & Hu & Hp & Hc & Hsz & _).
    destruct (alloc_if_needed_log _ _ _ Ha) as (evs & Hl & Hev).
    exists (Bonus.seg_len (w_pos w) (Bonus.l_len c)).
    fold w. rewrite !s64_small by lia. rewrite u64_small by lia.
    destruct (Z.gtb_spec (w_pos w + Bonus.seg_len (w_pos w) (Bonus.l_len c))
                (Bonus.i_size (w_osfs w))); simpl; repeat split; auto; try lia;
      try (rewrite Hi; reflexivity);
      try (fold w in Hsz; rewrite Hsz; lia);
      (rewrite Hl, <- app_assoc; eexists; split; [reflexivity|];
       apply Forall_app; split; [exact Hev|repeat constructor]).
Qed.

(** ** The log and the Metadata Updater *)

Lemma new_events_app {I : Type} (w w' : world I) evs :
  w_log w' = w_log w ++ evs -> new_events w w' = evs.
Proof. intros H. unfold new_events. rewrite H. apply drop_app_length. Qed.

Lemma touch_effect {I : Type} (w : world I) :
  w_log (touch w) = w_log w ++ touch_events (w_clock w) /\
  VFS.i_mtime (w_inode (touch w)) = w_clock w /\
  VFS.i_ctime (w_inode (touch w)) = w_clock w /\
  VFS.i_dirty (w_inode (touch w)) = true /\
  w_osfs (touch w) = w_osfs w /\ w_pos (touch w) = w_pos w /\
  w_sb (touch w) = w_sb w /\ w_user (touch w) = w_user w.
Proof. simpl. rewrite <- !app_assoc. repeat split. Qed.

Lemma metadata_updated_touch {I : Type} (w w0 : world I) evs :
  w_log w0 = w_log w ++ evs -> no_metadata_event evs -> w_clock w0 = w_clock w ->
  metadata_updated w (touch w0).
Proof.
  intros Hl Hev Hc. destruct (touch_effect w0) as (T1 & T2 & T3 & T4 & _).
  unfold metadata_updated. rewrite T2, T3, T4, Hc. repeat split.
  exists evs. split; [|exact Hev].
  apply new_events_app. now rewrite T1, Hl, Hc, <- app_assoc.
Qed.

Lemma metadata_untouched_intro {I : Type} (w w' : world I) evs :
  w_log w' = w_log w ++ evs -> no_metadata_event evs ->
  same_times (w_inode w') (w_inode w) -> metadata_untouched w w'.
Proof.
  intros Hl Hev Ht. split; [|exact Ht]. now rewrite (new_events_app w w' evs Hl).
Qed.

Lemma same_times_refl a : same_times a a.
Proof. repeat split. Qed.

Lemma lab4_write_effect (w : Lab4.W) buf len :
  vfs_range (w_pos w) len ->
  let r := fst (Lab4.osfs_write w buf len) in
  let w' := snd (Lab4.osfs_write w buf len) in
  (r < 0 /\ Lab4.i_size (w_osfs w') = Lab4.i_size (w_osfs w) /\ w_pos w' = w_pos w /\
   metadata_untouched w w')
  \/
  (0 <= r <= len /\ w_pos w + r <= BLOCK_SIZE /\ w_pos w' = w_pos w + r /\
   Lab4.i_size (w_osfs w') = Z.max (Lab4.i_size (w_osfs w)) (w_pos w + r) /\
   metadata_updated w w').
Proof.
  intros (Hp & Hl & Hpl). cbv zeta.
  assert (forall w1 : Lab4.W,
            w_pos w1 = w_pos w -> w_clock w1 = w_clock w ->
            Lab4.i_size (w_osfs w1) = Lab4.i_size (w_osfs w) ->
            w_inode w1 = w_inode w ->
            (exists evs, w_log w1 = w_log w ++ evs /\ no_metadata_event evs) ->
            let r := fst (Lab4.write_steps_3_to_6 w1 buf len) in
            let w' := snd (Lab4.write_steps_3_to_6 w1 buf len) in
            (r < 0 /\ Lab4.i_size (w_osfs w') = Lab4.i_size (w_osfs w) /\ w_pos w' = w_pos w /\
             metadata_untouched w w')
            \/
            (0 <= r <= len /\ w_pos w + r <= BLOCK_SIZE /\ w_pos w' = w_pos w + r /\
             Lab4.i_size (w_osfs w') = Z.max (Lab4.i_size (w_osfs w)) (w_pos w + r) /\
             metadata_updated w w')) as Hsteps.
  { intros w1 E1 E2 E4 E5 (evs & E6 & Hev). cbv zeta.
    unfold Lab4.write_steps_3_to_6. rewrite E1.
    destruct (Z.geb_spec (w_pos w) BLOCK_SIZE) as [Hge|Hlt].
    { left. cbn [fst snd]. split; [unfold ENOSPC; lia|].
      split; [congruence|]. split; [congruence|].
      eapply metadata_untouched_intro; [exact E6|exact Hev|].
      rewrite E5. apply same_times_refl. }
    rewrite (u64_small (w_pos w + len)) by lia.
    set (n := if w_pos w + len >? BLOCK_SIZE then u64 (BLOCK_SIZE - w_pos w) else len).
    assert (0 <= n <= len /\ w_pos w + n <= BLOCK_SIZE) as Hn.
    { unfold n. destruct (Z.gtb_spec (w_pos w + len) BLOCK_SIZE).
      - rewrite u64_small by (unfold BLOCK_SIZE in *; lia). lia.
      - lia. }
    destruct (copy_from_user (w_user w1) buf n) as [uncopied bs].
    destruct (Z.eqb_spec uncopied 0) as [->|Hne].
    - right. cbn [fst snd]. cbv zeta.
      cbn [w_pos emit set_pos set_data set_sb w_osfs].
      rewrite !s64_small by (unfold BLOCK_SIZE in *; lia). rewrite E1, E4.
      split; [lia|]. split; [lia|].
      assert (no_metadata_event
                (evs ++ [Ev_copy_from_user (Lab4.i_block (w_osfs w1) * BLOCK_SIZE + w_pos w) buf n 0]))
        as Hev' by (apply Forall_app; split; [exact Hev|repeat constructor]).
      destruct (Z.gtb_spec (w_pos w + n) (Lab4.i_size (w_osfs w))) as [Hgt|Hle].
      + split; [reflexivity|]. split; [cbn; lia|].
        eapply metadata_updated_touch; [|exact Hev'|exact E2].
        cbn. now rewrite E6, <- app_assoc.
      + split; [reflexivity|]. split; [cbn; lia|].
        eapply metadata_updated_touch; [|exact Hev'|exact E2].
        cbn. now rewrite E6, <- app_assoc.
    - left. cbn [fst snd]. split; [unfold EFAULT; lia|].
      split; [cbn; congruence|]. split; [cbn; congruence|].
      eapply metadata_untouched_intro.
      + cbn. rewrite E6, <- app_assoc. reflexivity.
      + apply Forall_app; split; [exact Hev|repeat constructor].
      + cbn. rewrite E5. apply same_times_refl. }
  unfold Lab4.osfs_write.
  destruct (Lab4.i_blocks (w_osfs w) =? 0).
  - destruct (osfs_alloc_data_block (w_sb w)) as [[ret sb] blk] eqn:Ha.
    apply alloc_ret in Ha as [(-> & _ & _)|(E1 & E2 & E3)].
    + cbn [Z.eqb]. apply Hsteps; auto.
      eexists. cbn. rewrite <- app_assoc. split; [reflexivity|repeat constructor].
    + subst. left. change (- ENOSPC =? 0) with false. cbn [fst snd]. split; [unfold ENOSPC; lia|].
      split; [reflexivity|]. split; [reflexivity|].
      eapply metadata_untouched_intro; [reflexivity|repeat constructor|apply same_times_refl].
  - apply Hsteps; auto. exists []. split; [now rewrite app_nil_r|constructor].
Qed.

Lemma bonus_write_effect (w : Bonus.W) buf len :
  vfs_range (w_pos w) len ->
  exists r w', Bonus.osfs_write w buf len = Some (r, w') /\
    ((r = len /\ w_pos w' = w_pos w + len /\ metadata_updated w w') \/
     (r < len /\ (r < 0 \/ 0 < r) /\ metadata_untouched w w')) /\
    Bonus.i_size (w_osfs w) <= Bonus.i_size (w_osfs w') /\
    (0 < r -> Bonus.i_size (w_osfs w') = Z.max (Bonus.i_size (w_osfs w)) (w_pos w + r)) /\
    (r = 0 -> Bonus.i_size (w_osfs w') = Bonus.i_size (w_osfs w)).
Proof.
  intros (Hp & Hl & Hpl).
  destruct (osfs_write_rule (write_progress w len)
              (fun '(r, w') =>
                 ((r = len /\ w_pos w' = w_pos w + len /\ metadata_updated w w') \/
                  (r < len /\ (r < 0 \/ 0 < r) /\ metadata_untouched w w')) /\
                 Bonus.i_size (w_osfs w) <= Bonus.i_size (w_osfs w') /\
                 (0 < r -> Bonus.i_size (w_osfs w') = Z.max (Bonus.i_size (w_osfs w)) (w_pos w + r)) /\
                 (r = 0 -> Bonus.i_size (w_osfs w') = Bonus.i_size (w_osfs w)))
              w buf len) as ([r w'] & H & HQ).
  - unfold write_progress. simpl. repeat split; try lia.
    exists []. split; [now rewrite app_nil_r|constructor].
  - intros c (Hb & Hlen & Hsum & Hpos & Hsz & Hc & Hu & Ht & evs & Hlog & Hev) Hg.
    pose proof (write_body_effect c ltac:(lia) Hb Hg ltac:(lia) ltac:(lia)) as He.
    destruct (Bonus.write_body c) as [c'|[r w']].
    + destruct He as (n & Hn & E1 & E2 & E3 & E4 & E5 & E6 & E7 & E8 & evs' & E9 & Hev').
      unfold write_progress. rewrite E1, E2, E3, E5, E6, E7, Hpos, Hsz, Hc, Hu.
      split; [lia|]. split; [lia|]. split; [lia|]. split; [lia|].
      split. { destruct (Z.gtb_spec (Bonus.l_bytes c) 0), (Z.gtb_spec (Bonus.l_bytes c + n) 0); lia. }
      split; [reflexivity|]. split; [reflexivity|].
      split. { destruct E8 as (? & ? & ?), Ht as (? & ? & ?). repeat split; congruence. }
      exists (evs ++ evs'). split; [now rewrite E9, Hlog, app_assoc|].
      apply Forall_app. split; assumption.
    + destruct He as (Hr & E1 & E2 & E3 & E4 & E5 & evs' & E6 & Hev').
      unfold Bonus.loop_guard in Hg. apply Z.gtb_lt in Hg.
      assert (metadata_untouched w w') as Hun.
      { eapply metadata_untouched_intro with (evs := evs ++ evs').
        - now rewrite E6, Hlog, app_assoc.
        - apply Forall_app. split; assumption.
        - destruct E5 as (? & ? & ?), Ht as (? & ? & ?). repeat split; congruence. }
      rewrite E2, Hsz.
      split; [right|].
      * split; [unfold EFAULT, ENOSPC in *; lia|]. split; [unfold EFAULT, ENOSPC in *; lia|exact Hun].
      * destruct (Z.gtb_spec (Bonus.l_bytes c) 0); unfold EFAULT, ENOSPC in *;
          repeat split; intros; try lia.
  - intros c (Hb & Hlen & Hsum & Hpos & Hsz & Hc & Hu & Ht & evs & Hlog & Hev) Hg.
    unfold Bonus.loop_guard in Hg.
    assert (Bonus.l_len c = 0) as H0 by (destruct (Z.gtb_spec (Bonus.l_len c) 0); [discriminate|lia]).
    destruct (touch_effect (Bonus.l_w c)) as (_ & _ & _ & _ & T5 & T6 & _).
    rewrite T5, T6, Hsz.
    split; [left|].
    + split; [lia|]. split; [lia|].
      eapply metadata_updated_touch; eauto.
    + destruct (Z.gtb_spec (Bonus.l_bytes c) 0); repeat split; intros; try lia.
  - exists r, w'. split; [exact H|exact HQ].
Qed.

(** ** The size after a write *)

(** C4, as the claim has it, fails in the multi-block variant for a write
    of length 0 past the end of the file: the loop does not run, 0 is
    returned and the size stays, although the position is beyond it. *)
Lemma empty_write_keeps_size :
  ~ (forall r w',
       Bonus.osfs_write (bonus_fresh (fresh_sb 8 Byte.xff) no_user 100) 0 0 = Some (r, w') ->
       0 <= r ->
       Bonus.i_size (w_osfs w')
       = Z.max (Bonus.i_size (w_osfs (bonus_fresh (fresh_sb 8 Byte.xff) no_user 100))) (100 + r)).
Proof.
  intros H. specialize (H 0 _ eq_refl ltac:(lia)). vm_compute in H. discriminate H.
Qed.

(** C4, amended: for the positions and lengths the VFS lets through, no
    write makes the size smaller.  A write that returns a byte count above
    0 leaves the size at the larger of the old size and the position plus
    that count; so does a write of the single-block variant that returns 0;
    a write of the multi-block variant that returns 0 leaves the size as it
    was. *)
Theorem write_size_is_monotone (wl : Lab4.W) (wb : Bonus.W) (buf len : Z) :
  vfs_range (w_pos wl) len ->
  vfs_range (w_pos wb) len ->
  (Lab4.i_size (w_osfs wl) <= Lab4.i_size (w_osfs (snd (Lab4.osfs_write wl buf len))) /\
   (0 <= fst (Lab4.osfs_write wl buf len) ->
    Lab4.i_size (w_osfs (snd (Lab4.osfs_write wl buf len)))
    = Z.max (Lab4.i_size (w_osfs wl)) (w_pos wl + fst (Lab4.osfs_write wl buf len)))) /\
  (exists r w', Bonus.osfs_write wb buf len = Some (r, w') /\
     Bonus.i_size (w_osfs wb) <= Bonus.i_size (w_osfs w') /\
     (0 < r -> Bonus.i_size (w_osfs w') = Z.max (Bonus.i_size (w_osfs wb)) (w_pos wb + r)) /\
     (r = 0 -> Bonus.i_size (w_osfs w') = Bonus.i_size (w_osfs wb))).
Proof.
  intros Hl Hb. split.
  - destruct (lab4_write_effect wl buf len Hl) as [(Hr & Hs & _)|(Hr & _ & _ & Hs & _)].
    + split; [lia|]. intros. lia.
    + split; [lia|]. intros _. exact Hs.
  - destruct (bonus_write_effect wb buf len Hb) as (r & w' & H & _ & H1 & H2 & H3).
    exists r, w'. auto.
Qed.

Lemma write_size_is_monotone_witness :
  exists r w',
    Bonus.osfs_write (bonus_fresh (fresh_sb 8 Byte.xff) (flat_user 0 9000 Byte.x41) 4000) 0 5000
    = Some (r, w') /\
    0 <= Bonus.i_size (w_osfs w') /\
    (0 < r -> Bonus.i_size (w_osfs w') = Z.max 0 (4000 + r)).
Proof.
  destruct (write_size_is_monotone
              (lab4_fresh (fresh_sb 8 Byte.xff) (flat_user 0 9000 Byte.x41) 4000)
              (bonus_fresh (fresh_sb 8 Byte.xff) (flat_user 0 9000 Byte.x41) 4000) 0 5000)
    as (_ & r & w' & H & H1 & H2 & _).
  - unfold vfs_range. simpl. lia.
  - unfold vfs_range. simpl. lia.
  - exists r, w'. split; [exact H|]. split; [exact H1|exact H2].
Defined.

(** ** When the Metadata Updater runs *)

Lemma read_body_log c :
  match Bonus.read_body c with
  | inl c' =>
      exists e, w_log (Bonus.l_w c') = w_log (Bonus.l_w c) ++ [e] /\
        is_metadata_event e = false /\ is_failed_copy_to_user e = false
  | inr (r, w') =>
      r = - EFAULT /\
      exists e, w_log w' = w_log (Bonus.l_w c) ++ [e] /\ is_metadata_event e = false
  end.
Proof.
  unfold Bonus.read_body. cbv zeta.
  destruct (copy_to_user _ _ _) as [uncopied um].
  destruct (Z.eqb_spec uncopied 0) as [->|Hne]; simpl.
  - eexists. repeat split.
  - split; [reflexivity|]. eexists. repeat split.
Qed.

Lemma bonus_read_log (w : Bonus.W) buf len :
  exists r w' evs, Bonus.osfs_read w buf len = Some (r, w') /\
    w_log w' = w_log w ++ evs /\ no_metadata_event evs /\
    (existsb is_failed_copy_to_user evs = true -> r = - EFAULT).
Proof.
  destruct (osfs_read_rule
              (fun c => exists evs, w_log (Bonus.l_w c) = w_log w ++ evs /\
                          no_metadata_event evs /\ existsb is_failed_copy_to_user evs = false)
              (fun '(r, w') => exists evs, w_log w' = w_log w ++ evs /\
                          no_metadata_event evs /\
                          (existsb is_failed_copy_to_user evs = true -> r = - EFAULT))
              w buf len) as ([r w'] & H & evs & H1 & H2 & H3).
  - intros _. exists []. split; [now rewrite app_nil_r|]. split; [constructor|discriminate].
  - intros _. exists []. simpl. split; [now rewrite app_nil_r|]. split; [constructor|reflexivity].
  - intros c (evs & Hl & Hev & Hf) _. pose proof (read_body_log c) as Hb.
    destruct (Bonus.read_body c) as [c'|[r w']].
    + destruct Hb as (e & E & Hm & Hfe). exists (evs ++ [e]).
      split; [now rewrite E, Hl, app_assoc|].
      split; [apply Forall_app; split; [exact Hev|repeat constructor; exact Hm]|].
      rewrite existsb_app, Hf. simpl. now rewrite Hfe.
    + destruct Hb as (-> & e & E & Hm). exists (evs ++ [e]).
      split; [now rewrite E, Hl, app_assoc|].
      split; [apply Forall_app; split; [exact Hev|repeat constructor; exact Hm]|].
      reflexivity.
  - intros c (evs & Hl & Hev & Hf) _. exists evs. repeat split; auto.
    rewrite Hf. discriminate.
  - exists r, w', evs. auto.
Qed.

Lemma lab4_read_log (w : Lab4.W) buf len :
  exists evs, w_log (snd (Lab4.osfs_read w buf len)) = w_log w ++ evs /\
    no_metadata_event evs /\
    (existsb is_failed_copy_to_user evs = true -> fst (Lab4.osfs_read w buf len) = - EFAULT).
Proof.
  unfold Lab4.osfs_read. cbv zeta.
  destruct (Lab4.i_blocks (w_osfs w) =? 0).
  { exists []. simpl. split; [now rewrite app_nil_r|]. split; [constructor|discriminate]. }
  destruct (w_pos w >=? Lab4.i_size (w_osfs w)).
  { exists []. simpl. split; [now rewrite app_nil_r|]. split; [constructor|discriminate]. }
  destruct (copy_to_user _ _ _) as [uncopied um].
  destruct (Z.eqb_spec uncopied 0) as [->|Hne]; simpl.
  - eexists. split; [reflexivity|]. split; [repeat constructor|discriminate].
  - eexists. split; [reflexivity|]. split; [repeat constructor|reflexivity].
Qed.

(** C6, as the claim has it, fails: a write of length 0 writes no byte and
    still runs the Metadata Updater. *)
Lemma empty_write_updates_metadata :
  ~ (forall r w',
       Bonus.osfs_write (bonus_fresh (fresh_sb 8 Byte.xff) no_user 0) 0 0 = Some (r, w') ->
       (metadata_updated (bonus_fresh (fresh_sb 8 Byte.xff) no_user 0) w' <-> 0 < r)).
Proof.
  intros H. specialize (H 0 _ eq_refl). destruct H as [H _].
  assert (0 < 0) by (apply H; repeat split; exists []; split; [reflexivity|constructor]).
  lia.
Qed.

(** A write of the multi-block variant that stops early because the file is
    full returns the bytes it wrote without running the Metadata Updater. *)
Example partial_write_skips_metadata :
  exists w',
    Bonus.osfs_write (bonus_fresh (fresh_sb 8 Byte.xff) (flat_user 0 64 Byte.x41) 20470) 0 20
    = Some (10, w') /\
    new_events (bonus_fresh (fresh_sb 8 Byte.xff) (flat_user 0 64 Byte.x41) 20470) w'
    = [Ev_alloc 0 1; Ev_memset 4096 4096; Ev_copy_from_user 8182 0 10 0] /\
    VFS.i_dirty (w_inode w') = false.
Proof.
  destruct (osfs_write_total (bonus_fresh (fresh_sb 8 Byte.xff) (flat_user 0 64 Byte.x41) 20470) 0 20)
    as [[r w'] E].
  pose proof (f_equal (option_map (fun rw => (fst rw, w_log (snd rw), VFS.i_dirty (w_inode (snd rw))))) E)
    as E'.
  vm_compute in E'. injection E' as Hr Hl Hd.
  assert (w_log w' = [Ev_alloc 0 1; Ev_memset 4096 4096; Ev_copy_from_user 8182 0 10 0]) as Hl'
    by (symmetry; exact Hl).
  exists w'. rewrite E, <- Hr. split; [reflexivity|].
  split; [unfold new_events; rewrite Hl'; reflexivity|].
  symmetry. exact Hd.
Qed.

(** C6, amended: for the positions and lengths the VFS lets through, a
    write runs the Metadata Updater at most once and then as its last step.
    It runs it (both times set to the current time, the inode marked dirty)
    when the single-block variant returns a byte count, 0 included, and
    when the multi-block variant returns the whole requested length, 0
    included; it does not run it when the write returns an error.  A read
    never runs it. *)
Theorem metadata_update_of_write (wl : Lab4.W) (wb : Bonus.W) (buf len : Z) :
  vfs_range (w_pos wl) len ->
  vfs_range (w_pos wb) len ->
  ((0 <= fst (Lab4.osfs_write wl buf len) -> metadata_updated wl (snd (Lab4.osfs_write wl buf len))) /\
   (fst (Lab4.osfs_write wl buf len) < 0 -> metadata_untouched wl (snd (Lab4.osfs_write wl buf len)))) /\
  (exists r w', Bonus.osfs_write wb buf len = Some (r, w') /\
     (metadata_updated wb w' \/ metadata_untouched wb w') /\
     (r = len -> metadata_updated wb w') /\
     (r < 0 -> metadata_untouched wb w')) /\
  metadata_untouched wl (snd (Lab4.osfs_read wl buf len)) /\
  (exists r w', Bonus.osfs_read wb buf len = Some (r, w') /\ metadata_untouched wb w').
Proof.
  intros Hl Hb. split; [|split; [|split]].
  - destruct (lab4_write_effect wl buf len Hl) as [(Hr & _ & _ & Hm)|(Hr & _ & _ & _ & Hm)];
      split; intros; solve [assumption | exfalso; lia].
  - destruct (bonus_write_effect wb buf len Hb) as (r & w' & H & [(Hr & _ & Hm)|(Hr & _ & Hm)] & _);
      exists r, w'; (split; [exact H|]).
    + split; [left; exact Hm|]. split; intros; [exact Hm|].
      exfalso. unfold vfs_range in Hb. lia.
    + split; [right; exact Hm|]. split; intros; [exfalso; lia|exact Hm].
  - destruct (lab4_read_log wl buf len) as (evs & Hlog & Hev & _).
    eapply metadata_untouched_intro; [exact Hlog|exact Hev|].
    destruct (lab4_read_frame wl buf len) as (_ & _ & -> & _).
    apply same_times_refl.
  - destruct (bonus_read_log wb buf len) as (r & w' & evs & H & Hlog & Hev & _).
    exists r, w'. split; [exact H|].
    eapply metadata_untouched_intro; [exact Hlog|exact Hev|].
    destruct (bonus_read_frame wb buf len) as (r' & w'' & H' & _ & _ & Hi & _).
    rewrite H in H'. injection H' as <- <-. rewrite Hi. apply same_times_refl.
Qed.

Lemma metadata_update_of_write_witness :
  exists r w',
    Bonus.osfs_write (bonus_fresh (fresh_sb 8 Byte.xff) (flat_user 0 9000 Byte.x41) 4000) 0 5000
    = Some (r, w') /\
    (r = 5000 ->
     metadata_updated (bonus_fresh (fresh_sb 8 Byte.xff) (flat_user 0 9000 Byte.x41) 4000) w').
Proof.
  destruct (metadata_update_of_write
              (lab4_fresh (fresh_sb 8 Byte.xff) (flat_user 0 9000 Byte.x41) 4000)
              (bonus_fresh (fresh_sb 8 Byte.xff) (flat_user 0 9000 Byte.x41) 4000) 0 5000)
    as (_ & (r & w' & H & _ & H1 & _) & _).
  - unfold vfs_range. simpl. lia.
  - unfold vfs_range. simpl. lia.
  - exists r, w'. split; [exact H|exact H1].
Defined.

(** ** A read whose copy to the caller fails *)

(** C9: when a copy to the caller's buffer fails in a read, the read
    returns [-EFAULT], not a byte count, also when earlier parts of the
    same read were copied. *)
Theorem read_copy_fault (wl : Lab4.W) (wb : Bonus.W) (buf len : Z) :
  (existsb is_failed_copy_to_user (new_events wl (snd (Lab4.osfs_read wl buf len))) = true ->
   fst (Lab4.osfs_read wl buf len) = - EFAULT) /\
  (exists r w', Bonus.osfs_read wb buf len = Some (r, w') /\
     (existsb is_failed_copy_to_user (new_events wb w') = true -> r = - EFAULT)).
Proof.
  split.
  - destruct (lab4_read_log wl buf len) as (evs & Hlog & _ & H).
    now rewrite (new_events_app _ _ _ Hlog).
  - destruct (bonus_read_log wb buf len) as (r & w' & evs & H & Hlog & _ & Hf).
    exists r, w'. split; [exact H|]. now rewrite (new_events_app _ _ _ Hlog).
Qed.

Lemma read_copy_fault_witness :
  fst (Lab4.osfs_read (one_block_file (flat_user 0 50 Byte.x00) 0) 0 100) = - EFAULT /\
  exists w', Bonus.osfs_read (two_block_file (flat_user 0 6 Byte.x00) 4090) 0 10
             = Some (- EFAULT, w') /\
             new_events (two_block_file (flat_user 0 6 Byte.x00) 4090) w'
             = [Ev_copy_to_user 0 8186 6 0; Ev_copy_to_user 6 8192 4 4].
Proof.
  destruct (read_copy_fault (one_block_file (flat_user 0 50 Byte.x00) 0)
              (two_block_file (flat_user 0 6 Byte.x00) 4090) 0 100) as (H1 & _).
  destruct (read_copy_fault (one_block_file (flat_user 0 50 Byte.x00) 0)
              (two_block_file (flat_user 0 6 Byte.x00) 4090) 0 10) as (_ & r & w' & H & H2).
  split; [apply H1; vm_compute; reflexivity|].
  pose proof (f_equal (option_map (fun rw => w_log (snd rw))) H) as Hl.
  vm_compute in Hl. injection Hl as Hl.
  assert (w_log w' = [Ev_copy_to_user 0 8186 6 0; Ev_copy_to_user 6 8192 4 4]) as Hl'
    by (symmetry; exact Hl).
  assert (new_events (two_block_file (flat_user 0 6 Byte.x00) 4090) w'
          = [Ev_copy_to_user 0 8186 6 0; Ev_copy_to_user 6 8192 4 4]) as Hev.
  { unfold new_events. rewrite Hl'. reflexivity. }
  exists w'. split; [|exact Hev].
  rewrite H. f_equal. f_equal. apply H2. rewrite Hev. reflexivity.
Defined.

(** ** Slots of the extent map *)

Lemma slot_insert sz nb bl idx b j :
  0 <= idx -> 0 <= j -> (Z.to_nat idx < length bl)%nat ->
  Bonus.slot (Bonus.mkOsfsInode sz nb (<[Z.to_nat idx := b]> bl)) j
  = if j =? idx then b else Bonus.slot (Bonus.mkOsfsInode sz nb bl) j.
Proof.
  intros Hi Hj Hlen. unfold Bonus.slot. simpl.
  destruct (Z.eqb_spec j idx) as [->|Hne].
  - now rewrite list_lookup_insert_eq.
  - rewrite list_lookup_insert_ne; [reflexivity|lia].
Qed.

Lemma slot_eq o o' j : Bonus.blocks o = Bonus.blocks o' -> Bonus.slot o j = Bonus.slot o' j.
Proof. unfold Bonus.slot. now intros ->. Qed.

Lemma blk_index_range pos : 0 <= Bonus.blk_index pos < 2 ^ 32.
Proof. apply u32_range. Qed.

Lemma alloc_if_needed_slots w idx w1 :
  Bonus.alloc_if_needed w idx = inl w1 ->
  0 <= idx -> (Z.to_nat idx < length (Bonus.blocks (w_osfs w)))%nat ->
  length (Bonus.blocks (w_osfs w1)) = length (Bonus.blocks (w_osfs w)) /\
  Bonus.slot (w_osfs w1) idx <> 0 /\
  (forall j, 0 <= j -> Bonus.slot (w_osfs w) j <> 0 ->
             Bonus.slot (w_osfs w1) j = Bonus.slot (w_osfs w) j) /\
  (forall j, 0 <= j -> j <> idx -> Bonus.slot (w_osfs w1) j = Bonus.slot (w_osfs w) j).
Proof.
  intros H Hi Hlen.
  destruct (alloc_if_needed_inl _ _ _ H) as (_ & _ & _ & _ & _ & [[Hs ->]|[Hs (i & Hi1 & _ & Ho & _)]]).
  - auto.
  - rewrite Ho. cbn [Bonus.blocks]. rewrite length_insert. split; [reflexivity|].
    assert (forall j, 0 <= j ->
              Bonus.slot (Bonus.mkOsfsInode (Bonus.i_size (w_osfs w)) (Bonus.i_blocks (w_osfs w) + 1)
                            (<[Z.to_nat idx := Z.of_nat i]> (Bonus.blocks (w_osfs w)))) j
              = if j =? idx then Z.of_nat i else Bonus.slot (w_osfs w) j) as Hslot.
    { intros j Hj. rewrite slot_insert by assumption. destruct (j =? idx); [reflexivity|].
      now apply slot_eq. }
    split; [|split].
    + rewrite Hslot by lia. rewrite Z.eqb_refl. lia.
    + intros j Hj Hnz. rewrite Hslot by lia.
      destruct (Z.eqb_spec j idx) as [->|]; [contradiction|reflexivity].
    + intros j Hj Hne. rewrite Hslot by lia.
      destruct (Z.eqb_spec j idx); [contradiction|reflexivity].
Qed.

(** ** No holes below the size *)

Lemma write_body_hole_inv c :
  hole_inv (Bonus.l_w c) ->
  0 <= w_pos (Bonus.l_w c) <= Bonus.i_size (w_osfs (Bonus.l_w c)) ->
  Bonus.loop_guard c = true ->
  match Bonus.write_body c with
  | inl c' => hole_inv (Bonus.l_w c') /\
              0 <= w_pos (Bonus.l_w c') <= Bonus.i_size (w_osfs (Bonus.l_w c'))
  | inr (_, w') => hole_inv w'
  end.
Proof.
  intros (Hh & Hsz & Hlen) Hpos Hg. unfold Bonus.loop_guard in Hg. apply Z.gtb_lt in Hg.
  set (w := Bonus.l_w c) in *.
  pose proof (seg_len_bounds (w_pos w) (Bonus.l_len c) Hg) as Hn.
  destruct (write_body_cases c) as [(_ & E)|[(_ & _ & _ & E)|(Hidx & w1 & Ha & Hc)]].
  - rewrite E. now repeat split.
  - rewrite E. now repeat split.
  - fold w in Hidx, Ha, Hc.
    assert (Bonus.blk_index (w_pos w) = w_pos w / BLOCK_SIZE) as Eidx
      by (apply blk_index_small; unfold MAX_BLOCKS_PER_FILE, BLOCK_SIZE in *; lia).
    pose proof (blk_index_range (w_pos w)) as Hir.
    destruct (alloc_if_needed_inl _ _ _ Ha) as (_ & _ & Hp1 & _ & Hsz1 & _).
    destruct (alloc_if_needed_slots _ _ _ Ha ltac:(lia)
                ltac:(rewrite Hlen; unfold MAX_BLOCKS_PER_FILE in *; lia))
      as (Hlen1 & Hnz & Hkeep & _).
    assert (no_holes w1) as Hh1.
    { intros i Hi Hlt. rewrite Hsz1 in Hlt. rewrite Hkeep; auto. }
    cbv zeta in Hc. destruct Hc as [(_ & E)|(_ & E)]; rewrite E; clear E.
    + split; [|split]; cbn; try congruence. exact Hh1.
    + rewrite seg_len_nonneg in * by lia.
      set (n := Z.min (Bonus.l_len c) (BLOCK_SIZE - w_pos w mod BLOCK_SIZE)) in *.
      assert (w_pos w + n <= (w_pos w / BLOCK_SIZE + 1) * BLOCK_SIZE) as Hend.
      { pose proof (Z.div_mod (w_pos w) BLOCK_SIZE ltac:(unfold BLOCK_SIZE; lia)). lia. }
      assert (w_pos w / BLOCK_SIZE * BLOCK_SIZE <= w_pos w) as Hstart.
      { pose proof (Z.div_mod (w_pos w) BLOCK_SIZE ltac:(unfold BLOCK_SIZE; lia)).
        pose proof (Z.mod_pos_bound (w_pos w) BLOCK_SIZE ltac:(unfold BLOCK_SIZE; lia)). lia. }
      rewrite s64_small by (unfold MAX_BLOCKS_PER_FILE, BLOCK_SIZE in *; lia).
      cbn [Bonus.l_w].
      destruct (Z.gtb_spec (w_pos w + n) (Bonus.i_size (w_osfs w))) as [Hgt|Hle];
        unfold hole_inv, no_holes, Bonus.slot;
        cbn [Bonus.set_size set_vfs_size set_osfs set_inode set_pos emit set_data set_sb
             w_osfs w_pos Bonus.i_size Bonus.blocks];
        fold (Bonus.slot (w_osfs w1)).
      * split; [|lia]. split; [|split].
        -- intros i Hi Hlt.
           destruct (Z_lt_le_dec (i * BLOCK_SIZE) (Bonus.i_size (w_osfs w))) as [Hin|Hout].
           ++ apply Hh1; [lia|]. now rewrite Hsz1.
           ++ assert (i = w_pos w / BLOCK_SIZE) as -> by (unfold BLOCK_SIZE in *; nia).
              now rewrite <- Eidx.
        -- unfold MAX_BLOCKS_PER_FILE, BLOCK_SIZE in *. lia.
        -- congruence.
      * rewrite Hsz1. split; [|lia]. split; [|split]; try lia; try congruence.
        intros i Hi Hlt. apply Hh1; [lia|]. now rewrite Hsz1.
Qed.

Lemma osfs_write_hole_inv w buf len :
  hole_inv w -> write_within_size w ->
  exists r w', Bonus.osfs_write w buf len = Some (r, w') /\ hole_inv w'.
Proof.
  intros Hh Hp.
  destruct (osfs_write_rule
              (fun c => hole_inv (Bonus.l_w c) /\
                        0 <= w_pos (Bonus.l_w c) <= Bonus.i_size (w_osfs (Bonus.l_w c)))
              (fun '(_, w') => hole_inv w') w buf len) as ([r w'] & H & HQ).
  - split; [exact Hh|exact Hp].
  - intros c (Hc & Hpc) Hg. apply write_body_hole_inv; assumption.
  - intros c (Hc & _) _. exact Hc.
  - eauto.
Qed.

Lemma reachable_hole_inv w : reachable write_within_size w -> hole_inv w.
Proof.
  induction 1 as [sb um pos|w um pos t _ IH|w buf len r w' _ IH Hr|w buf len r w' _ IH Hm Hw].
  - split; [|split].
    + intros i Hi0 Hi. cbn in Hi. unfold BLOCK_SIZE in Hi. lia.
    + cbn. unfold MAX_BLOCKS_PER_FILE, BLOCK_SIZE. lia.
    + reflexivity.
  - exact IH.
  - destruct (bonus_read_frame w buf len) as (r' & w'' & H' & Ho & _).
    rewrite Hr in H'. injection H' as <- <-.
    destruct IH as (H1 & H2 & H3). unfold hole_inv, no_holes. now rewrite Ho.
  - destruct (osfs_write_hole_inv w buf len IH Hm) as (r' & w'' & H' & Hinv).
    rewrite Hw in H'. now injection H' as <- <-.
Qed.

(** ** Holes *)

(** C2, as the claim has it, fails: a write may start past the end of the
    file, and the blocks between the old end and its position get no
    block.  After one byte written at position 8192 of a new file the size
    is 8193 and the slots 0 and 1 are empty. *)
Lemma write_past_end_leaves_hole :
  ~ (forall w, reachable any_write w -> no_holes w).
Proof.
  intros H.
  destruct (osfs_write_total (bonus_fresh (fresh_sb 8 Byte.xff) (flat_user 0 8 Byte.x41) 8192) 0 1)
    as [[r w'] E].
  assert (reachable any_write w') as Hr
    by (eapply reach_write; [apply reach_fresh|exact I|exact E]).
  pose proof (f_equal (option_map (fun rw => (Bonus.i_size (w_osfs (snd rw)),
                                              Bonus.slot (w_osfs (snd rw)) 0))) E) as E'.
  vm_compute in E'. injection E' as Hsz Hs.
  assert (Bonus.i_size (w_osfs w') = 8193) as Hsz' by (symmetry; exact Hsz).
  apply (H w' Hr 0 ltac:(lia)).
  - rewrite Hsz'. reflexivity.
  - symmetry. exact Hs.
Qed.

(** C2, amended: in every state reachable from a new file by reads and by
    writes that start inside the file or at its end, every block index
    below the size boundary has a block. *)
Theorem no_hole_below_size (w : Bonus.W) (i : Z) :
  reachable write_within_size w ->
  0 <= i -> i * BLOCK_SIZE < Bonus.i_size (w_osfs w) ->
  Bonus.slot (w_osfs w) i <> 0.
Proof.
  intros Hr Hi Hlt. destruct (reachable_hole_inv w Hr) as (Hh & _). now apply Hh.
Qed.

Lemma no_hole_below_size_witness :
  exists w, reachable write_within_size w /\
            0 * BLOCK_SIZE < Bonus.i_size (w_osfs w) /\
            Bonus.slot (w_osfs w) 0 <> 0.
Proof.
  destruct (osfs_write_total (bonus_fresh (fresh_sb 8 Byte.xff) (flat_user 0 64 Byte.x41) 0) 0 10)
    as [[r w'] E].
  assert (reachable write_within_size w') as Hr.
  { eapply reach_write; [apply reach_fresh| |exact E]. unfold write_within_size. simpl. lia. }
  exists w'. split; [exact Hr|].
  assert (0 * BLOCK_SIZE < Bonus.i_size (w_osfs w')) as Hlt.
  { pose proof (f_equal (option_map (fun rw => Bonus.i_size (w_osfs (snd rw)))) E) as E'.
    vm_compute in E'. injection E' as Hsz.
    assert (Bonus.i_size (w_osfs w') = 10) as Hsz' by (symmetry; exact Hsz).
    rewrite Hsz'. reflexivity. }
  split; [exact Hlt|].
  apply (no_hole_below_size w' 0 Hr); [lia|exact Hlt].
Defined.

(** ** Bytes *)

Lemma in_range_true addr n a : in_range addr n a = true <-> addr <= a < addr + n.
Proof. unfold in_range. rewrite andb_true_iff, Z.leb_le, Z.ltb_lt. reflexivity. Qed.

Lemma in_range_false addr n a : in_range addr n a = false <-> ~ (addr <= a < addr + n).
Proof. rewrite <- in_range_true. destruct (in_range addr n a); split; congruence. Qed.


Lemma memset0_out m addr n a : ~ (addr <= a < addr + n) -> memset0 m addr n a = m a.
Proof. intros H. unfold memset0. apply in_range_false in H. now rewrite H. Qed.

Lemma store_bytes_out m addr bs a :
  ~ (addr <= a < addr + Z.of_nat (length bs)) -> store_bytes m addr bs a = m a.
Proof. intros H. unfold store_bytes. apply in_range_false in H. now rewrite H. Qed.

Lemma store_bytes_in m addr bs a :
  addr <= a < addr + Z.of_nat (length bs) ->
  store_bytes m addr bs a = nth (Z.to_nat (a - addr)) bs zero_byte.
Proof. intros H. unfold store_bytes. apply in_range_true in H. now rewrite H. Qed.

Lemma length_load_bytes m addr n : length (load_bytes m addr n) = n.
Proof. unfold load_bytes. now rewrite length_map, length_seq. Qed.

Lemma nth_load_bytes m addr n j d :
  (j < n)%nat -> nth j (load_bytes m addr n) d = m (addr + Z.of_nat j).
Proof.
  intros H. unfold load_bytes.
  rewrite (nth_indep _ d (m (addr + Z.of_nat 0))) by (now rewrite length_map, length_seq).
  rewrite (map_nth (fun i => m (addr + Z.of_nat i)) (seq 0 n) 0%nat j).
  now rewrite seq_nth.
Qed.

Lemma accessible_prefix_le ok n : forall addr, (accessible_prefix ok addr n <= n)%nat.
Proof.
  induction n as [|n IH]; intros addr; simpl; [lia|].
  destruct (ok addr); [|lia]. specialize (IH (addr + 1)). lia.
Qed.

Lemma accessible_prefix_all ok n : forall addr,
  accessible_prefix ok addr n = n <->
  (forall a, addr <= a < addr + Z.of_nat n -> ok a = true).
Proof.
  induction n as [|n IH]; intros addr; simpl.
  - split; [intros _ a Ha; lia|reflexivity].
  - destruct (ok addr) eqn:Hok.
    + split.
      * intros H a Ha. injection H as H. destruct (Z.eq_dec a addr) as [->|Hne]; [exact Hok|].
        apply (proj1 (IH (addr + 1)) H). lia.
      * intros H. f_equal. apply IH. intros a Ha. apply H. lia.
    + split; [discriminate|]. intros H. rewrite H in Hok by lia. discriminate.
Qed.

Lemma copy_from_user_length um from n :
  0 <= n -> length (snd (copy_from_user um from n)) = Z.to_nat n.
Proof.
  intros Hn. unfold copy_from_user. cbn [snd].
  rewrite length_app, length_load_bytes, repeat_length.
  pose proof (accessible_prefix_le (u_ok um) (Z.to_nat n) from). lia.
Qed.

Lemma copy_from_user_ok um from n :
  0 <= n -> fst (copy_from_user um from n) = 0 ->
  snd (copy_from_user um from n) = load_bytes (u_byte um) from (Z.to_nat n).
Proof.
  intros Hn. unfold copy_from_user. cbn [fst snd]. intros H.
  assert (accessible_prefix (u_ok um) from (Z.to_nat n) = Z.to_nat n) as -> by lia.
  now rewrite Nat.sub_diag, app_nil_r.
Qed.

(** ** A block that a write allocates *)





(** ** The allocator runs out in the middle of a write *)

Lemma write_loop_total w buf len :
  exists o, while Bonus.loop_guard Bonus.write_body (S (Z.to_nat len)) (Bonus.mkLoop w buf len 0)
            = Some o.
Proof.
  destruct (while_rule Bonus.loop_guard Bonus.write_body (fun _ => True) (fun _ => True)
              (fun c => Z.to_nat (Bonus.l_len c)))
    with (fuel := S (Z.to_nat len)) (c := Bonus.mkLoop w buf len 0) as (o & H & _);
    simpl; try lia; eauto.
  intros c _ Hg. destruct (Bonus.write_body c) as [c'|r] eqn:Hb; [|exact I].
  split; [exact I|]. pose proof (write_body_len c c' Hg Hb). lia.
Qed.

(** A [return] met after some turns is what the whole call returns. *)
Lemma osfs_write_turns w buf len c r :
  turns Bonus.loop_guard Bonus.write_body (Bonus.mkLoop w buf len 0) c ->
  Bonus.loop_guard c = true -> Bonus.write_body c = inr r ->
  Bonus.osfs_write w buf len = Some r.
Proof.
  intros Ht Hg Hb.
  assert (while Bonus.loop_guard Bonus.write_body 1 c = Some (inr r)) as Hw
    by (simpl; now rewrite Hg, Hb).
  destruct (while_turns _ _ _ _ _ _ Ht Hw) as (fuel' & Hf).
  destruct (write_loop_total w buf len) as (o & Ho).
  unfold Bonus.osfs_write. rewrite Ho.
  now rewrite (while_det _ _ _ _ _ _ _ Ho Hf).
Qed.

Lemma write_turn_completed c c' :
  loop_in_range c -> Bonus.loop_guard c = true -> Bonus.write_body c = inl c' ->
  loop_in_range c' /\ blocks_completed c c'.
Proof.
  intros (Hp & Hb & Hl & Hpl & Hbl & Hlen) Hg Hbody.
  pose proof (write_body_effect c Hp Hb Hg
                ltac:(unfold BLOCK_SIZE in *; lia) Hbl) as He.
  set (w := Bonus.l_w c) in *.
  unfold Bonus.loop_guard in Hg. apply Z.gtb_lt in Hg.
  destruct (write_body_cases c) as [(_ & E)|[(_ & _ & _ & E)|(Hidx & w1 & Ha & Hc)]];
    try (rewrite E in Hbody; discriminate).
  fold w in Hidx, Ha, Hc. cbv zeta in Hc.
  destruct Hc as [(_ & E)|(_ & E)]; [rewrite E in Hbody; discriminate|].
  rewrite Hbody in He, E.
  destruct He as (n & Hn & E1 & E2 & E3 & _).
  assert (Bonus.blk_index (w_pos w) = w_pos w / BLOCK_SIZE) as Eidx
    by (apply blk_index_small; unfold MAX_BLOCKS_PER_FILE, BLOCK_SIZE in *; lia).
  pose proof (blk_index_range (w_pos w)) as Hir.
  destruct (alloc_if_needed_slots _ _ _ Ha ltac:(lia)
              ltac:(rewrite Hlen; unfold MAX_BLOCKS_PER_FILE in *; lia))
    as (Hlen1 & Hnz & Hkeep & Hother).
  assert (Bonus.blocks (w_osfs (Bonus.l_w c')) = Bonus.blocks (w_osfs w1)) as Hbl'.
  { injection E as ->. cbn [Bonus.l_w]. now destruct (_ >? _). }
  assert (forall j, Bonus.slot (w_osfs (Bonus.l_w c')) j = Bonus.slot (w_osfs w1) j) as Hs'
    by (intros j; now apply slot_eq).
  assert (n = Bonus.seg_len (w_pos w) (Bonus.l_len c)) as Hnn.
  { injection E as ->. cbn [Bonus.l_len] in E2.
    rewrite u64_small in E2 by (pose proof (seg_len_bounds (w_pos w) (Bonus.l_len c) Hg); lia).
    lia. }
  rewrite seg_len_nonneg in Hnn by lia.
  pose proof (Z.div_mod (w_pos w) BLOCK_SIZE ltac:(unfold BLOCK_SIZE; lia)) as Hdm.
  pose proof (Z.mod_pos_bound (w_pos w) BLOCK_SIZE ltac:(unfold BLOCK_SIZE; lia)) as Hmb.
  split.
  - unfold loop_in_range. rewrite E1, E2, E3, Hbl', Hlen1. repeat split; lia.
  - unfold blocks_completed, block_written. rewrite E1, E3. fold w.
    split; [lia|]. split; [lia|]. split; [|split].
    + intros j (Hj & Hlt & _). rewrite Hs'.
      assert (j = w_pos w / BLOCK_SIZE) as -> by (unfold BLOCK_SIZE in *; nia).
      now rewrite <- Eidx.
    + intros j Hj Hnz0. rewrite Hs'. now apply Hkeep.
    + intros j Hj Hout. rewrite Hs'. apply Hother; [exact Hj|].
      intros ->. apply Hout. unfold BLOCK_SIZE in *. lia.
Qed.

Lemma turns_completed c0 c :
  turns Bonus.loop_guard Bonus.write_body c0 c ->
  loop_in_range c0 ->
  loop_in_range c /\ blocks_completed c0 c.
Proof.
  induction 1 as [c|c0 c1 c Hg Hb _ IH]; intros Hr.
  - split; [exact Hr|]. unfold blocks_completed, block_written.
    split; [lia|]. split; [lia|]. split; [|split]; auto.
    intros j (_ & _ & Hlt). lia.
  - destruct (write_turn_completed c0 c1 Hr Hg Hb) as (Hr1 & (A1 & A2 & A3 & A4 & A5)).
    destruct (IH Hr1) as (Hrc & (B1 & B2 & B3 & B4 & B5)).
    split; [exact Hrc|].
    pose proof (blk_index_range (w_pos (Bonus.l_w c0))) as Hi0.
    assert (w_pos (Bonus.l_w c0) < w_pos (Bonus.l_w c1)) as Hadv.
    { unfold Bonus.loop_guard in Hg. apply Z.gtb_lt in Hg.
      destruct Hr as (Hp & Hb0 & Hl & Hpl & Hbl & _).
      pose proof (write_body_effect c0 Hp Hb0 ltac:(now apply Z.gtb_lt)
                    ltac:(unfold BLOCK_SIZE in *; lia) Hbl) as He.
      rewrite Hb in He. destruct He as (n & Hn & E1 & _). lia. }
    assert (Bonus.blk_index (w_pos (Bonus.l_w c1)) * BLOCK_SIZE <= w_pos (Bonus.l_w c1)) as Hfloor.
    { destruct Hr1 as (Hp1 & _ & Hl1 & Hpl1 & _). rewrite blk_index_small by lia.
      pose proof (Z.div_mod (w_pos (Bonus.l_w c1)) BLOCK_SIZE ltac:(unfold BLOCK_SIZE; lia)).
      pose proof (Z.mod_pos_bound (w_pos (Bonus.l_w c1)) BLOCK_SIZE ltac:(unfold BLOCK_SIZE; lia)).
      lia. }
    assert (Bonus.blk_index (w_pos (Bonus.l_w c0)) <= Bonus.blk_index (w_pos (Bonus.l_w c1))) as Hmono.
    { destruct Hr as (Hp & _ & Hl & Hpl & _), Hr1 as (Hp1 & _ & Hl1 & Hpl1 & _).
      rewrite !blk_index_small by lia.
      apply Z.div_le_mono; [unfold BLOCK_SIZE; lia|lia]. }
    unfold blocks_completed, block_written in *.
    split; [lia|]. split; [lia|]. split; [|split].
    + intros j (Hj & Hlt & Hne).
      destruct (Z_lt_le_dec (j * BLOCK_SIZE) (w_pos (Bonus.l_w c1))) as [Hin|Hout].
      * rewrite B4 by (try lia; apply A3; lia). apply A3. lia.
      * apply B3. unfold BLOCK_SIZE in *. lia.
    + intros j Hj Hnz. rewrite B4; [now apply A4|exact Hj|]. now rewrite A4.
    + intros j Hj Hout. rewrite B5; [apply A5; [exact Hj|]|exact Hj|].
      * intros (H1 & H2 & H3). apply Hout. lia.
      * intros (H1 & H2 & H3). apply Hout. lia.
Qed.

(** C5: when a turn of the write loop finds the slot of its block empty
    and the allocator answers that no block is free, the call returns
    [-ENOSPC] if no byte was written before, and the count of the bytes
    written before otherwise.  The extent map it leaves is the one the
    earlier turns built: for a request within range, the slots of the blocks
    these turns went over hold a block and no other slot changed. *)
Theorem allocator_exhausted_in_write (w : Bonus.W) (buf len : Z) (c : Bonus.loop) :
  turns Bonus.loop_guard Bonus.write_body (Bonus.mkLoop w buf len 0) c ->
  Bonus.loop_guard c = true ->
  Bonus.blk_index (w_pos (Bonus.l_w c)) < MAX_BLOCKS_PER_FILE ->
  Bonus.slot (w_osfs (Bonus.l_w c)) (Bonus.blk_index (w_pos (Bonus.l_w c))) = 0 ->
  fst (fst (osfs_alloc_data_block (w_sb (Bonus.l_w c)))) <> 0 ->
  exists w',
    Bonus.osfs_write w buf len
    = Some (if Bonus.l_bytes c >? 0 then Bonus.l_bytes c else - ENOSPC, w') /\
    w_osfs w' = w_osfs (Bonus.l_w c) /\
    w_sb w' = w_sb (Bonus.l_w c) /\
    w_pos w' = w_pos (Bonus.l_w c) /\
    (loop_in_range (Bonus.mkLoop w buf len 0) -> blocks_completed (Bonus.mkLoop w buf len 0) c).
Proof.
  intros Ht Hg Hidx Hslot Hfail.
  exists (emit (Bonus.l_w c) (Ev_alloc (- ENOSPC) 0)).
  split; [|split; [reflexivity|split; [reflexivity|split; [reflexivity|]]]].
  - apply (osfs_write_turns w buf len c); [exact Ht|exact Hg|].
    destruct (write_body_cases c) as [(Hge & _)|[(_ & _ & _ & E)|(_ & w1 & Ha & _)]].
    + lia.
    + exact E.
    + exfalso. unfold Bonus.alloc_if_needed in Ha. rewrite Hslot in Ha. cbn [Z.eqb] in Ha.
      destruct (osfs_alloc_data_block (w_sb (Bonus.l_w c))) as [[ret sb] blk].
      cbn [fst] in Hfail. destruct (Z.eqb_spec ret 0); [contradiction|discriminate].
  - intros Hr. now destruct (turns_completed _ _ Ht Hr).
Qed.

Lemma next_turn_eq c : turn_goes_on c = true -> Bonus.write_body c = inl (next_turn c).
Proof.
  unfold turn_goes_on, next_turn. now destruct (Bonus.write_body c).
Qed.

Lemma allocator_exhausted_in_write_witness :
  exists w',
    Bonus.osfs_write (bonus_fresh (fresh_sb 2 Byte.xff) (flat_user 0 64 Byte.x41) 4090) 0 10
    = Some (6, w') /\
    Bonus.blocks (w_osfs w') = [1; 0; 0; 0; 0].
Proof.
  destruct (allocator_exhausted_in_write
              (bonus_fresh (fresh_sb 2 Byte.xff) (flat_user 0 64 Byte.x41) 4090) 0 10
              (next_turn (Bonus.mkLoop
                            (bonus_fresh (fresh_sb 2 Byte.xff) (flat_user 0 64 Byte.x41) 4090)
                            0 10 0)))
    as (w' & H & Ho & _).
  - eapply turns_more; [reflexivity| |apply turns_none].
    apply next_turn_eq. vm_compute. reflexivity.
  - vm_compute. reflexivity.
  - vm_compute. reflexivity.
  - vm_compute. reflexivity.
  - vm_compute. discriminate.
  - exists w'. split.
    + rewrite H.
      apply (f_equal (fun r : Z => Some (r, w'))). vm_compute. reflexivity.
    + rewrite Ho. vm_compute. reflexivity.
Defined.

(** ** The extent map stays well formed *)

Lemma slot_lookup o j :
  Bonus.slot o j <> 0 -> Bonus.blocks o !! Z.to_nat j = Some (Bonus.slot o j).
Proof.
  unfold Bonus.slot. destruct (Bonus.blocks o !! Z.to_nat j); simpl; [reflexivity|congruence].
Qed.

Lemma extent_ok_same (w w' : Bonus.W) :
  Bonus.blocks (w_osfs w') = Bonus.blocks (w_osfs w) ->
  block_bitmap (w_sb w') = block_bitmap (w_sb w) ->
  extent_ok w -> extent_ok w'.
Proof. unfold extent_ok. intros -> ->. auto. Qed.

Lemma alloc_if_needed_extent_ok w idx w1 :
  Bonus.alloc_if_needed w idx = inl w1 ->
  extent_ok w -> extent_ok w1.
Proof.
  intros H (Hlen & Hused & Hinj).
  destruct (alloc_if_needed_inl _ _ _ H)
    as (_ & _ & _ & _ & _ & [[_ ->]|[Hs (i & Hi & Hfree & Ho & Hsb & _)]]).
  { exact (conj Hlen (conj Hused Hinj)). }
  unfold extent_ok. rewrite Ho, Hsb. cbn [Bonus.blocks block_bitmap].
  assert ((i < length (block_bitmap (w_sb w)))%nat) as Hilen by (eapply lookup_lt_Some; eauto).
  split; [now rewrite length_insert|]. split.
  - intros j b Hj Hb.
    apply list_lookup_insert_Some in Hj as [(_ & E & _)|(Hne & Hj)].
    + subst b. split; [lia|]. rewrite Nat2Z.id. now apply list_lookup_insert_eq.
    + destruct (Hused j b Hj Hb) as (Hpos & Hbit). split; [exact Hpos|].
      rewrite list_lookup_insert_ne; [exact Hbit|].
      intros E. rewrite <- E in Hbit. congruence.
  - intros j1 j2 b H1 H2 Hb.
    apply list_lookup_insert_Some in H1 as [(E1 & E1' & _)|(Hne1 & H1)];
      apply list_lookup_insert_Some in H2 as [(E2 & E2' & _)|(Hne2 & H2)].
    + congruence.
    + exfalso. subst b. destruct (Hused j2 _ H2 Hb) as (_ & Hbit).
      rewrite Nat2Z.id in Hbit. congruence.
    + exfalso. subst b. destruct (Hused j1 _ H1 Hb) as (_ & Hbit).
      rewrite Nat2Z.id in Hbit. congruence.
    + eapply Hinj; eauto.
Qed.

Lemma write_body_extent_ok c :
  extent_ok (Bonus.l_w c) ->
  match Bonus.write_body c with
  | inl c' => extent_ok (Bonus.l_w c')
  | inr (_, w') => extent_ok w'
  end.
Proof.
  intros Hok.
  destruct (write_body_cases c) as [(_ & E)|[(_ & _ & _ & E)|(_ & w1 & Ha & Hc)]].
  - now rewrite E.
  - rewrite E. eapply extent_ok_same; [| |exact Hok]; reflexivity.
  - pose proof (alloc_if_needed_extent_ok _ _ _ Ha Hok) as Hok1.
    cbv zeta in Hc. destruct Hc as [(_ & E)|(_ & E)]; rewrite E.
    + eapply extent_ok_same; [| |exact Hok1]; reflexivity.
    + cbn [Bonus.l_w]. destruct (_ >? _);
        (eapply extent_ok_same; [| |exact Hok1]; reflexivity).
Qed.

Lemma osfs_write_extent_ok w buf len :
  extent_ok w ->
  exists r w', Bonus.osfs_write w buf len = Some (r, w') /\ extent_ok w'.
Proof.
  intros Hok.
  destruct (osfs_write_rule (fun c => extent_ok (Bonus.l_w c)) (fun '(_, w') => extent_ok w')
              w buf len) as ([r w'] & H & HQ).
  - exact Hok.
  - intros c Hc _. now apply write_body_extent_ok.
  - intros c Hc _. eapply extent_ok_same; [| |exact Hc]; reflexivity.
  - eauto.
Qed.

Lemma lookup_repeat {A : Type} (x : A) n : forall (i : nat) (y : A),
  repeat x n !! i = Some y -> y = x.
Proof.
  induction n as [|n IH]; intros i y H; [discriminate|].
  destruct i as [|i]; simpl in H; [congruence|]. now apply (IH i).
Qed.

Lemma reachable_extent_ok may_write w : reachable may_write w -> extent_ok w.
Proof.
  induction 1 as [sb um pos|w um pos t _ IH|w buf len r w' _ IH Hr|w buf len r w' _ IH Hm Hw].
  - split; [reflexivity|]. split.
    + intros i b Hi Hb. exfalso. apply Hb. now apply lookup_repeat in Hi.
    + intros i j b Hi _ Hb. exfalso. apply Hb. now apply lookup_repeat in Hi.
  - exact IH.
  - destruct (bonus_read_frame w buf len) as (r' & w'' & H' & Ho & Hs & _).
    rewrite Hr in H'. injection H' as <- <-.
    eapply extent_ok_same; [| |exact IH]; congruence.
  - destruct (osfs_write_extent_ok w buf len IH) as (r' & w'' & H' & Hok).
    rewrite Hw in H'. now injection H' as <- <-.
Qed.

(** ** What a write leaves in the arena *)

Lemma write_turn_goes_on c c' :
  Bonus.write_body c = inl c' ->
  let w := Bonus.l_w c in
  let idx := Bonus.blk_index (w_pos w) in
  let n := Bonus.seg_len (w_pos w) (Bonus.l_len c) in
  exists w1,
    Bonus.alloc_if_needed w idx = inl w1 /\ idx < MAX_BLOCKS_PER_FILE /\
    fst (copy_from_user (w_user w) (Bonus.l_buf c) n) = 0 /\
    Bonus.blocks (w_osfs (Bonus.l_w c')) = Bonus.blocks (w_osfs w1) /\
    block_bitmap (w_sb (Bonus.l_w c')) = block_bitmap (w_sb w1) /\
    data_blocks (w_sb (Bonus.l_w c'))
    = store_bytes (data_blocks (w_sb w1))
        (Bonus.slot (w_osfs w1) idx * BLOCK_SIZE + Bonus.blk_offset (w_pos w))
        (snd (copy_from_user (w_user w) (Bonus.l_buf c) n)) /\
    w_user (Bonus.l_w c') = w_user w /\
    w_pos (Bonus.l_w c') = s64 (w_pos w + n) /\
    Bonus.l_buf c' = Bonus.l_buf c + n /\
    Bonus.l_len c' = u64 (Bonus.l_len c - n) /\
    Bonus.l_bytes c' = s64 (Bonus.l_bytes c + n).
Proof.
  intros Hb. cbv zeta.
  destruct (write_body_cases c) as [(_ & E)|[(_ & _ & _ & E)|(Hidx & w1 & Ha & Hc)]];
    try (rewrite E in Hb; discriminate).
  cbv zeta in Hc. destruct Hc as [(_ & E)|(H0 & E)]; [rewrite E in Hb; discriminate|].
  rewrite E in Hb. injection Hb as <-.
  destruct (alloc_if_needed_inl _ _ _ Ha) as (_ & Hu & _).
  exists w1. split; [exact Ha|]. split; [exact Hidx|]. split; [exact H0|].
  cbn [Bonus.l_w Bonus.l_buf Bonus.l_len Bonus.l_bytes].
  destruct (_ >? _); cbn; rewrite ?Hu; repeat split.
Qed.

Lemma same_block p q :
  0 <= q -> q <= p -> p < (q / BLOCK_SIZE + 1) * BLOCK_SIZE ->
  p / BLOCK_SIZE = q / BLOCK_SIZE /\ p mod BLOCK_SIZE = q mod BLOCK_SIZE + (p - q).
Proof.
  intros Hq Hqp Hp. unfold BLOCK_SIZE in *.
  pose proof (Z.div_mod q 4096 ltac:(lia)).
  pose proof (Z.mod_pos_bound q 4096 ltac:(lia)).
  assert (p / 4096 = q / 4096) as E.
  { symmetry. apply Z.div_unique with (p - 4096 * (q / 4096)); lia. }
  split; [exact E|].
  pose proof (Z.div_mod p 4096 ltac:(lia)). rewrite E in *. lia.
Qed.

Lemma write_body_written w wbuf k c :
  0 <= w_pos w -> w_pos w + k <= MAX_BLOCKS_PER_FILE * BLOCK_SIZE ->
  written_so_far w wbuf k c -> Bonus.loop_guard c = true ->
  match Bonus.write_body c with
  | inl c' => written_so_far w wbuf k c'
  | inr (r, _) => r <> k
  end.
Proof.
  intros Hp0 Hcap (Hb & Hl & Hsum & Hpos & Hbuf & Hu & Hok & Hdata) Hg.
  set (wc := Bonus.l_w c) in *.
  assert (0 <= w_pos wc) as Hpc by lia.
  assert (w_pos wc + Bonus.l_len c < 2 ^ 63) as Hr1
    by (unfold MAX_BLOCKS_PER_FILE, BLOCK_SIZE in *; lia).
  assert (Bonus.l_bytes c + Bonus.l_len c < 2 ^ 63) as Hr2
    by (unfold MAX_BLOCKS_PER_FILE, BLOCK_SIZE in *; lia).
  pose proof (write_body_effect c Hpc Hb Hg Hr1 Hr2) as He.
  unfold Bonus.loop_guard in Hg. apply Z.gtb_lt in Hg.
  destruct (Bonus.write_body c) as [c'|[r w']] eqn:Hbody.
  2:{ destruct He as ([->|[(? & ->)|(? & ->)]] & _); unfold EFAULT, ENOSPC; lia. }
  destruct He as (n & Hn & E1 & E2 & E3 & E4 & _).
  destruct (write_turn_goes_on c c' Hbody)
    as (w1 & Ha & Hidx & Hcp & Hbl & Hbm & Hdb & Hu' & Hpos' & _ & Hlen' & _).
  fold wc in Ha, Hidx, Hcp, Hdb, Hu', Hpos', Hlen', E1, E2, E3, E4.
  assert (n = Bonus.seg_len (w_pos wc) (Bonus.l_len c)) as Hnn.
  { rewrite u64_small in Hlen'
      by (pose proof (seg_len_bounds (w_pos wc) (Bonus.l_len c) Hg); lia). lia. }
  rewrite <- Hnn in Hcp, Hdb.
  assert (Bonus.blk_index (w_pos wc) = w_pos wc / BLOCK_SIZE) as Eidx
    by (apply blk_index_small; unfold MAX_BLOCKS_PER_FILE, BLOCK_SIZE in *; lia).
  rewrite Eidx in Ha, Hdb, Hidx. rewrite blk_offset_nonneg in Hdb by lia.
  set (idx := w_pos wc / BLOCK_SIZE) in *.
  rewrite seg_len_nonneg in Hnn by lia.
  assert (0 <= idx) as Hidx0 by (apply Z.div_pos; unfold BLOCK_SIZE; lia).
  pose proof (Z.div_mod (w_pos wc) BLOCK_SIZE ltac:(unfold BLOCK_SIZE; lia)) as Hdm.
  pose proof (Z.mod_pos_bound (w_pos wc) BLOCK_SIZE ltac:(unfold BLOCK_SIZE; lia)) as Hmb.
  fold idx in Hdm.
  set (off := w_pos wc mod BLOCK_SIZE) in *.
  destruct Hok as (Hlen & Hused & Hinj).
  destruct (alloc_if_needed_slots _ _ _ Ha Hidx0
              ltac:(rewrite Hlen; unfold MAX_BLOCKS_PER_FILE in *; lia))
    as (Hlen1 & Hnz & Hkeep & Hother).
  pose proof (alloc_if_needed_extent_ok _ _ _ Ha (conj Hlen (conj Hused Hinj))) as Hok1.
  assert (forall j, Bonus.slot (w_osfs (Bonus.l_w c')) j = Bonus.slot (w_osfs w1) j) as Hs'
    by (intros j; now apply slot_eq).
  pose proof (copy_from_user_length (w_user wc) (Bonus.l_buf c) n ltac:(lia)) as Hcl.
  pose proof (copy_from_user_ok (w_user wc) (Bonus.l_buf c) n ltac:(lia) Hcp) as Hcok.
  set (bs := snd (copy_from_user (w_user wc) (Bonus.l_buf c) n)) in *.
  unfold written_so_far. rewrite E1, E2, E3, E4, Hu'.
  split; [lia|]. split; [lia|]. split; [lia|]. split; [lia|]. split; [lia|].
  split; [exact Hu|].
  split; [eapply extent_ok_same; [exact Hbl|exact Hbm|exact Hok1]|].
  intros p Hp. rewrite !Hs', Hdb.
  destruct (Z_lt_le_dec p (w_pos wc)) as [Hold|Hnew].
  - (* a position of an earlier turn *)
    destruct (Hdata p ltac:(lia)) as (Hsnz & Hbyte).
    assert (0 <= p / BLOCK_SIZE) as Hj0 by (apply Z.div_pos; unfold BLOCK_SIZE; lia).
    pose proof (Z.mod_pos_bound p BLOCK_SIZE ltac:(unfold BLOCK_SIZE; lia)) as Hpm.
    rewrite (Hkeep _ Hj0 Hsnz). split; [exact Hsnz|].
    set (sj := Bonus.slot (w_osfs wc) (p / BLOCK_SIZE)) in *.
    pose proof (slot_lookup _ _ Hsnz) as Hlj. fold sj in Hlj.
    destruct (Hused _ _ Hlj Hsnz) as (Hsjpos & Hsjbit).
    rewrite store_bytes_out.
    + (* the allocation of this turn left the byte alone *)
      destruct (alloc_if_needed_inl _ _ _ Ha)
        as (_ & _ & _ & _ & _ & [[_ ->]|[Hs0 (i & Hi & Hfree & Ho & Hsb & _)]]);
        [exact Hbyte|].
      rewrite Hsb. cbn [data_blocks]. rewrite memset0_out; [exact Hbyte|].
      assert (Bonus.slot (w_osfs w1) idx = Z.of_nat i) as ->.
      { rewrite Ho.
        rewrite slot_insert by (rewrite ?Hlen; unfold MAX_BLOCKS_PER_FILE in *; lia).
        now rewrite Z.eqb_refl. }
      assert (sj <> Z.of_nat i) as Hne.
      { intros Heq. rewrite Heq, Nat2Z.id in Hsjbit. congruence. }
      unfold BLOCK_SIZE in *. lia.
    + (* the copy of this turn left the byte alone *)
      rewrite Hcl.
      destruct (Z.eq_dec (p / BLOCK_SIZE) idx) as [Hsame|Hdiff].
      * assert (Bonus.slot (w_osfs w1) idx = sj) as ->
          by (rewrite <- Hsame; now apply Hkeep).
        assert (p mod BLOCK_SIZE < off).
        { pose proof (Z.div_mod p BLOCK_SIZE ltac:(unfold BLOCK_SIZE; lia)) as Hdp.
          rewrite Hsame in Hdp. lia. }
        lia.
      * assert (sj <> Bonus.slot (w_osfs w1) idx) as Hne.
        { intros Heq. apply Hdiff.
          destruct Hok1 as (_ & _ & Hinj1).
          assert (Bonus.slot (w_osfs w1) (p / BLOCK_SIZE) = sj) as Hk by (now apply Hkeep).
          assert (Bonus.slot (w_osfs w1) (p / BLOCK_SIZE) <> 0) as Hnz1 by (rewrite Hk; exact Hsnz).
          pose proof (slot_lookup _ _ Hnz1) as L1. pose proof (slot_lookup _ _ Hnz) as L2.
          rewrite Hk in L1. rewrite <- Heq in L2.
          pose proof (Hinj1 _ _ _ L1 L2 Hsnz). lia. }
        unfold BLOCK_SIZE in *. lia.
  - (* a position of this turn *)
    destruct (same_block p (w_pos wc) Hpc Hnew ltac:(fold idx; unfold off in *; lia)) as (Ej & Eo).
    fold idx in Ej. fold off in Eo. rewrite Ej. split; [exact Hnz|].
    rewrite store_bytes_in by (rewrite Hcl; lia).
    rewrite Hcok, nth_load_bytes by lia. rewrite Hu. f_equal. lia.
Qed.

Lemma osfs_write_content w wbuf k w1 :
  extent_ok w -> 0 <= w_pos w -> 0 <= k ->
  w_pos w + k <= MAX_BLOCKS_PER_FILE * BLOCK_SIZE ->
  Bonus.osfs_write w wbuf k = Some (k, w1) ->
  forall p, w_pos w <= p < w_pos w + k ->
    data_blocks (w_sb w1)
      (Bonus.slot (w_osfs w1) (p / BLOCK_SIZE) * BLOCK_SIZE + p mod BLOCK_SIZE)
    = u_byte (w_user w) (wbuf + (p - w_pos w)).
Proof.
  intros Hok Hp0 Hk Hcap Hw.
  destruct (osfs_write_rule (written_so_far w wbuf k)
              (fun '(r, w') => r = k ->
                 forall p, w_pos w <= p < w_pos w + k ->
                   data_blocks (w_sb w')
                     (Bonus.slot (w_osfs w') (p / BLOCK_SIZE) * BLOCK_SIZE + p mod BLOCK_SIZE)
                   = u_byte (w_user w) (wbuf + (p - w_pos w)))
              w wbuf k) as ([r w'] & H & HQ).
  - unfold written_so_far. cbn [Bonus.l_w Bonus.l_buf Bonus.l_len Bonus.l_bytes].
    split; [lia|]. split; [lia|]. split; [lia|]. split; [lia|]. split; [lia|].
    split; [reflexivity|]. split; [exact Hok|]. intros p Hp. lia.
  - intros c Hc Hg. pose proof (write_body_written w wbuf k c Hp0 Hcap Hc Hg) as Hstep.
    destruct (Bonus.write_body c) as [c'|[r w']]; [exact Hstep|]. intros; contradiction.
  - intros c (Hb & Hl & Hsum & Hpos & _ & _ & _ & Hdata) Hg _ p Hp.
    unfold Bonus.loop_guard in Hg.
    assert (Bonus.l_len c = 0) by (destruct (Z.gtb_spec (Bonus.l_len c) 0); [discriminate|lia]).
    apply (Hdata p). lia.
  - rewrite Hw in H. injection H as <- <-. now apply HQ.
Qed.

(** ** What a read hands to the caller *)

Lemma user_ok_spec um addr n :
  0 <= n ->
  (user_ok um addr n = true <-> forall a, addr <= a < addr + n -> u_ok um a = true).
Proof.
  intros Hn. unfold user_ok. rewrite Nat.eqb_eq, accessible_prefix_all.
  now rewrite Z2Nat.id by lia.
Qed.

Lemma copy_to_user_all um to bs :
  (forall a, to <= a < to + Z.of_nat (length bs) -> u_ok um a = true) ->
  copy_to_user um to bs = (0, mkUmem (u_ok um) (store_bytes (u_byte um) to bs)).
Proof.
  intros H. unfold copy_to_user.
  apply accessible_prefix_all in H. rewrite H, firstn_all. f_equal. lia.
Qed.

Lemma read_body_read w rbuf k c :
  0 <= w_pos w -> w_pos w + k <= MAX_BLOCKS_PER_FILE * BLOCK_SIZE ->
  (forall a, rbuf <= a < rbuf + k -> u_ok (w_user w) a = true) ->
  read_so_far w rbuf k c -> Bonus.loop_guard c = true ->
  match Bonus.read_body c with
  | inl c' => read_so_far w rbuf k c'
  | inr _ => False
  end.
Proof.
  intros Hp0 Hcap Hacc (Hb & Hl & Hsum & Hpos & Hbuf & Ho & Hs & Hok & Hdata) Hg.
  unfold Bonus.loop_guard in Hg. apply Z.gtb_lt in Hg.
  set (wc := Bonus.l_w c) in *.
  pose proof (seg_len_bounds (w_pos wc) (Bonus.l_len c) Hg) as Hn.
  assert (0 <= w_pos wc) as Hpc by lia.
  assert (Bonus.blk_index (w_pos wc) = w_pos wc / BLOCK_SIZE) as Eidx
    by (apply blk_index_small; unfold MAX_BLOCKS_PER_FILE, BLOCK_SIZE in *; lia).
  pose proof (Z.div_mod (w_pos wc) BLOCK_SIZE ltac:(unfold BLOCK_SIZE; lia)) as Hdm.
  pose proof (Z.mod_pos_bound (w_pos wc) BLOCK_SIZE ltac:(unfold BLOCK_SIZE; lia)) as Hmb.
  unfold Bonus.read_body. cbv zeta. fold wc.
  rewrite Eidx, blk_offset_nonneg by lia.
  set (n := Bonus.seg_len (w_pos wc) (Bonus.l_len c)) in *.
  assert (n = Z.min (Bonus.l_len c) (BLOCK_SIZE - w_pos wc mod BLOCK_SIZE)) as Hnn
    by (unfold n; now apply seg_len_nonneg).
  rewrite copy_to_user_all.
  2:{ rewrite length_load_bytes. intros a Ha. rewrite Hok. apply Hacc. lia. }
  cbn [Z.eqb].
  unfold read_so_far.
  cbn [Bonus.l_w Bonus.l_buf Bonus.l_len Bonus.l_bytes emit set_user set_pos
       w_pos w_osfs w_sb w_user u_ok u_byte].
  rewrite !s64_small by (unfold MAX_BLOCKS_PER_FILE, BLOCK_SIZE in *; lia).
  rewrite u64_small by (unfold MAX_BLOCKS_PER_FILE, BLOCK_SIZE in *; lia).
  split; [lia|]. split; [lia|]. split; [lia|]. split; [lia|]. split; [lia|].
  split; [exact Ho|]. split; [exact Hs|]. split; [exact Hok|].
  intros j Hj.
  destruct (Z_lt_le_dec j (Bonus.l_bytes c)) as [Hold|Hnew].
  - rewrite store_bytes_out by (rewrite length_load_bytes; lia). apply Hdata. lia.
  - rewrite store_bytes_in by (rewrite length_load_bytes; lia).
    rewrite nth_load_bytes by lia.
    destruct (same_block (w_pos w + j) (w_pos wc) Hpc ltac:(lia) ltac:(lia)) as (Ej & Eo).
    unfold read_addr. rewrite Ej, Eo, Ho, Hs. f_equal. lia.
Qed.

Lemma osfs_read_content w rbuf k :
  0 <= w_pos w -> 0 <= k ->
  w_pos w + k <= MAX_BLOCKS_PER_FILE * BLOCK_SIZE ->
  (0 < k -> w_pos w + k <= Bonus.i_size (w_osfs w)) ->
  user_ok (w_user w) rbuf k = true ->
  exists w2, Bonus.osfs_read w rbuf k = Some (k, w2) /\
    forall j, 0 <= j < k ->
      u_byte (w_user w2) (rbuf + j)
      = data_blocks (w_sb w) (read_addr (w_osfs w) (w_pos w + j)).
Proof.
  intros Hp0 Hk Hcap Hsz Hacc0.
  pose proof (proj1 (user_ok_spec _ _ _ Hk) Hacc0) as Hacc.
  destruct (osfs_read_rule (read_so_far w rbuf k)
              (fun '(r, w2) => r = k /\
                 forall j, 0 <= j < k ->
                   u_byte (w_user w2) (rbuf + j)
                   = data_blocks (w_sb w) (read_addr (w_osfs w) (w_pos w + j)))
              w rbuf k) as ([r w2] & H & -> & HQ).
  - intros Hge. split; [|intros]; lia.
  - intros Hlt.
    assert (read_len w k = k) as ->.
    { unfold read_len.
      rewrite u64_small by (unfold MAX_BLOCKS_PER_FILE, BLOCK_SIZE in *; lia).
      destruct (Z.gtb_spec (w_pos w + k) (Bonus.i_size (w_osfs w))); lia. }
    unfold read_so_far. cbn [Bonus.l_w Bonus.l_buf Bonus.l_len Bonus.l_bytes].
    split; [lia|]. split; [lia|]. split; [lia|]. split; [lia|]. split; [lia|].
    split; [reflexivity|]. split; [reflexivity|]. split; [reflexivity|]. intros j Hj. lia.
  - intros c Hc Hg. pose proof (read_body_read w rbuf k c Hp0 Hcap Hacc Hc Hg) as Hstep.
    destruct (Bonus.read_body c); [exact Hstep|contradiction].
  - intros c (Hb & Hl & Hsum & _ & _ & _ & _ & _ & Hdata) Hg.
    unfold Bonus.loop_guard in Hg.
    assert (Bonus.l_len c = 0) by (destruct (Z.gtb_spec (Bonus.l_len c) 0); [discriminate|lia]).
    split; [lia|]. intros j Hj. apply Hdata. lia.
  - exists w2. split; [exact H|exact HQ].
Qed.

Lemma load_bytes_ext m1 m2 a1 a2 n :
  (forall j, (j < n)%nat -> m1 (a1 + Z.of_nat j) = m2 (a2 + Z.of_nat j)) ->
  load_bytes m1 a1 n = load_bytes m2 a2 n.
Proof.
  intros H. unfold load_bytes. apply map_ext_in. intros j Hj.
  apply in_seq in Hj. apply H. lia.
Qed.

(** ** Writing, then reading, in the single-block variant *)

Lemma lab4_steps_content (w1 : Lab4.W) buf k :
  0 <= w_pos w1 -> 0 <= k -> w_pos w1 + k <= BLOCK_SIZE ->
  fst (Lab4.write_steps_3_to_6 w1 buf k) = k ->
  Lab4.i_blocks (w_osfs (snd (Lab4.write_steps_3_to_6 w1 buf k))) = Lab4.i_blocks (w_osfs w1) /\
  (0 < k -> w_pos w1 + k <= Lab4.i_size (w_osfs (snd (Lab4.write_steps_3_to_6 w1 buf k)))) /\
  forall j, 0 <= j < k ->
    data_blocks (w_sb (snd (Lab4.write_steps_3_to_6 w1 buf k)))
      (Lab4.i_block (w_osfs (snd (Lab4.write_steps_3_to_6 w1 buf k))) * BLOCK_SIZE + w_pos w1 + j)
    = u_byte (w_user w1) (buf + j).
Proof.
  intros Hp Hk Hcap. unfold Lab4.write_steps_3_to_6.
  destruct (Z.geb_spec (w_pos w1) BLOCK_SIZE) as [Hge|Hlt].
  { cbn [fst]. unfold ENOSPC. lia. }
  rewrite (u64_small (w_pos w1 + k)) by (unfold BLOCK_SIZE in *; lia).
  destruct (Z.gtb_spec (w_pos w1 + k) BLOCK_SIZE) as [?|_]; [lia|].
  pose proof (copy_from_user_length (w_user w1) buf k Hk) as Hcl.
  pose proof (copy_from_user_ok (w_user w1) buf k Hk) as Hcok.
  destruct (copy_from_user (w_user w1) buf k) as [uncopied bs].
  cbn [fst snd] in Hcl, Hcok.
  destruct (Z.eqb_spec uncopied 0) as [->|Hne]; [|cbn [fst]; unfold EFAULT; lia].
  intros _.
  cbn [w_pos emit set_pos set_data set_sb w_osfs].
  rewrite !s64_small by (unfold BLOCK_SIZE in *; lia).
  destruct (Z.gtb_spec (w_pos w1 + k) (Lab4.i_size (w_osfs w1))) as [Hgt|Hle]; cbn;
    (split; [reflexivity|]); (split; [intros; lia|]);
    intros j Hj; rewrite store_bytes_in by (rewrite Hcl; lia);
    rewrite (Hcok eq_refl), nth_load_bytes by lia; f_equal; lia.
Qed.

Lemma lab4_write_content (w : Lab4.W) buf k :
  0 <= w_pos w -> 0 <= k -> w_pos w + k <= BLOCK_SIZE ->
  fst (Lab4.osfs_write w buf k) = k ->
  Lab4.i_blocks (w_osfs (snd (Lab4.osfs_write w buf k))) <> 0 /\
  (0 < k -> w_pos w + k <= Lab4.i_size (w_osfs (snd (Lab4.osfs_write w buf k)))) /\
  forall j, 0 <= j < k ->
    data_blocks (w_sb (snd (Lab4.osfs_write w buf k)))
      (Lab4.i_block (w_osfs (snd (Lab4.osfs_write w buf k))) * BLOCK_SIZE + w_pos w + j)
    = u_byte (w_user w) (buf + j).
Proof.
  intros Hp Hk Hcap. unfold Lab4.osfs_write.
  destruct (Z.eqb_spec (Lab4.i_blocks (w_osfs w)) 0) as [Hz|Hnz].
  - destruct (osfs_alloc_data_block (w_sb w)) as [[ret sb] blk] eqn:Ha.
    apply alloc_ret in Ha as [(-> & _ & _)|(-> & _ & _)].
    + cbn [Z.eqb]. intros Hr.
      match goal with |- context [Lab4.write_steps_3_to_6 ?x buf k] => set (w1 := x) in * end.
      destruct (lab4_steps_content w1 buf k Hp Hk Hcap Hr) as (H1 & H2 & H3).
      split; [rewrite H1; cbn; lia|]. split; [exact H2|exact H3].
    + change (- ENOSPC =? 0) with false. cbn [fst]. unfold ENOSPC. lia.
  - intros Hr. destruct (lab4_steps_content w buf k Hp Hk Hcap Hr) as (H1 & H2 & H3).
    split; [now rewrite H1|]. split; [exact H2|exact H3].
Qed.

Lemma lab4_read_content (w : Lab4.W) rbuf k :
  0 <= w_pos w -> 0 <= k -> w_pos w + k <= BLOCK_SIZE ->
  Lab4.i_blocks (w_osfs w) <> 0 ->
  (0 < k -> w_pos w + k <= Lab4.i_size (w_osfs w)) ->
  user_ok (w_user w) rbuf k = true ->
  fst (Lab4.osfs_read w rbuf k) = k /\
  forall j, 0 <= j < k ->
    u_byte (w_user (snd (Lab4.osfs_read w rbuf k))) (rbuf + j)
    = data_blocks (w_sb w) (Lab4.i_block (w_osfs w) * BLOCK_SIZE + w_pos w + j).
Proof.
  intros Hp Hk Hcap Hnb Hsz Hacc0.
  pose proof (proj1 (user_ok_spec _ _ _ Hk) Hacc0) as Hacc.
  unfold Lab4.osfs_read. cbv zeta.
  destruct (Z.eqb_spec (Lab4.i_blocks (w_osfs w)) 0) as [?|_]; [contradiction|].
  destruct (Z.geb_spec (w_pos w) (Lab4.i_size (w_osfs w))) as [Hge|Hlt].
  { cbn [fst snd]. split; [|intros]; lia. }
  rewrite (u64_small (w_pos w + k)) by (unfold BLOCK_SIZE in *; lia).
  destruct (Z.gtb_spec (w_pos w + k) (Lab4.i_size (w_osfs w))) as [?|_]; [lia|].
  rewrite copy_to_user_all by (rewrite length_load_bytes; intros a Ha; apply Hacc; lia).
  cbn [Z.eqb fst snd]. rewrite s64_small by (unfold BLOCK_SIZE in *; lia).
  split; [reflexivity|]. intros j Hj. cbn.
  rewrite store_bytes_in by (rewrite length_load_bytes; lia).
  rewrite nth_load_bytes by lia. f_equal. lia.
Qed.

(** ** Writing, then reading *)

Lemma read_addr_small o p :
  0 <= Bonus.slot o (p / BLOCK_SIZE) -> Bonus.slot o (p / BLOCK_SIZE) * BLOCK_SIZE < 2 ^ 32 ->
  read_addr o p = Bonus.slot o (p / BLOCK_SIZE) * BLOCK_SIZE + p mod BLOCK_SIZE.
Proof.
  intros H0 H1. unfold read_addr.
  rewrite (u32_small (Bonus.slot o (p / BLOCK_SIZE))) by (unfold BLOCK_SIZE in *; lia).
  rewrite u32_small by (unfold BLOCK_SIZE in *; lia). reflexivity.
Qed.

(** The blocks of a sound extent map are blocks of the arena. *)
Lemma extent_ok_addressable w :
  extent_ok w -> arena_addressable (w_sb w) -> blocks_addressable (w_osfs w).
Proof.
  intros (_ & Hbits & _) Harena j. unfold arena_addressable in Harena.
  destruct (Z.eq_dec (Bonus.slot (w_osfs w) j) 0) as [->|Hnz]; [unfold BLOCK_SIZE; lia|].
  destruct (Hbits _ _ (slot_lookup _ _ Hnz) Hnz) as (Hpos & Hbit).
  apply lookup_lt_Some in Hbit. unfold BLOCK_SIZE in *. lia.
Qed.

(** Where the product does wrap, the read takes its bytes from another
    block: for block number [2 ^ 20] the product is 0 modulo [2 ^ 32], and
    the read copies from the start of the arena. *)
Example read_wraps_past_4GiB :
  exists w',
    Bonus.osfs_read
      (mkWorld (VFS.mkInode 10 0 0 false) (Bonus.mkOsfsInode 10 1 [1048576; 0; 0; 0; 0])
               (mkSb (fun a => if a <? BLOCK_SIZE then Byte.x00 else Byte.x41) [])
               (flat_user 0 8 Byte.xff) 0 1 [])
      0 1 = Some (1, w') /\
    w_log w' = [Ev_copy_to_user 0 0 1 0] /\
    u_byte (w_user w') 0 = Byte.x00.
Proof.
  destruct (osfs_read_total
              (mkWorld (VFS.mkInode 10 0 0 false) (Bonus.mkOsfsInode 10 1 [1048576; 0; 0; 0; 0])
                       (mkSb (fun a => if a <? BLOCK_SIZE then Byte.x00 else Byte.x41) [])
                       (flat_user 0 8 Byte.xff) 0 1 [])
              0 1) as [[r w'] E].
  pose proof (f_equal (option_map fst) E) as Er. vm_compute in Er. injection Er as Er.
  pose proof (f_equal (option_map (fun rw => w_log (snd rw))) E) as El.
  vm_compute in El. injection El as El.
  pose proof (f_equal (option_map (fun rw => u_byte (w_user (snd rw)) 0)) E) as Eb.
  vm_compute in Eb. injection Eb as Eb.
  rewrite <- Er in E. exists w'. split; [exact E|]. split; symmetry; assumption.
Qed.

Lemma write_body_bitmap_length c :
  length (block_bitmap (w_sb (after_turn (Bonus.write_body c))))
  = length (block_bitmap (w_sb (Bonus.l_w c))).
Proof.
  destruct (write_body_cases c) as [(_ & E)|[(_ & _ & _ & E)|(_ & w1 & Ha & Hc)]].
  - now rewrite E.
  - now rewrite E.
  - assert (length (block_bitmap (w_sb w1)) = length (block_bitmap (w_sb (Bonus.l_w c)))) as <-.
    { destruct (alloc_if_needed_inl _ _ _ Ha)
        as (_ & _ & _ & _ & _ & [[_ ->]|[_ (i & _ & _ & _ & -> & _)]]); [reflexivity|].
      cbn [block_bitmap]. apply length_insert. }
    cbv zeta in Hc. destruct Hc as [(_ & E)|(_ & E)]; rewrite E; cbn [after_turn Bonus.l_w].
    + reflexivity.
    + destruct (s64 _ >? _); reflexivity.
Qed.

(** A write leaves the arena as large as it was. *)
Lemma osfs_write_arena w buf len :
  arena_addressable (w_sb w) ->
  exists r w', Bonus.osfs_write w buf len = Some (r, w') /\ arena_addressable (w_sb w').
Proof.
  intros Harena.
  destruct (osfs_write_rule (fun c => arena_addressable (w_sb (Bonus.l_w c)))
              (fun '(_, w') => arena_addressable (w_sb w')) w buf len) as ([r w'] & H & HQ).
  - exact Harena.
  - intros c Hc _. pose proof (write_body_bitmap_length c) as Hl.
    unfold arena_addressable in *.
    destruct (Bonus.write_body c) as [c'|[r w']]; cbn [after_turn] in Hl; now rewrite Hl.
  - intros c Hc _. exact Hc.
  - eauto.
Qed.

(** C3: a write of [k] bytes at a position [o] with [o + k] within the
    capacity that writes all [k] bytes (the allocator had the blocks, the
    copies went through), followed by a read of [k] bytes at [o] into an
    accessible buffer, gives the caller the [k] bytes that were written.
    The two variants have their own files, positions, lengths and buffers.
    For the multi-block variant the file before the write is any file
    whose extent map is sound, in an arena that an unsigned int can
    address; [k] may span all the blocks of the file. *)
Theorem write_then_read (wl : Lab4.W) (wbufl rbufl kl : Z) (uml : umem)
    (w w1 : Bonus.W) (wbuf rbuf k : Z) (um : umem) :
  0 <= w_pos wl -> 0 <= kl ->
  w_pos wl + kl <= BLOCK_SIZE ->
  fst (Lab4.osfs_write wl wbufl kl) = kl ->
  user_ok uml rbufl kl = true ->
  extent_ok w ->
  arena_addressable (w_sb w) ->
  0 <= w_pos w -> 0 <= k ->
  w_pos w + k <= MAX_BLOCKS_PER_FILE * BLOCK_SIZE ->
  Bonus.osfs_write w wbuf k = Some (k, w1) ->
  user_ok um rbuf k = true ->
  (fst (Lab4.osfs_read (set_pos (set_user (snd (Lab4.osfs_write wl wbufl kl)) uml) (w_pos wl))
          rbufl kl)
   = kl /\
   load_bytes
     (u_byte (w_user (snd (Lab4.osfs_read
                             (set_pos (set_user (snd (Lab4.osfs_write wl wbufl kl)) uml) (w_pos wl))
                             rbufl kl))))
     rbufl (Z.to_nat kl)
   = load_bytes (u_byte (w_user wl)) wbufl (Z.to_nat kl)) /\
  (exists w2,
     Bonus.osfs_read (set_pos (set_user w1 um) (w_pos w)) rbuf k = Some (k, w2) /\
     load_bytes (u_byte (w_user w2)) rbuf (Z.to_nat k)
     = load_bytes (u_byte (w_user w)) wbuf (Z.to_nat k)).
Proof.
  intros Hlp Hkl Hlcap Hlw Haccl Hok Harena Hp0 Hk Hcap Hw Hacc. split.
  - destruct (lab4_write_content wl wbufl kl Hlp Hkl Hlcap Hlw) as (Hnb & Hsz & Hcontent).
    destruct (lab4_read_content
                (set_pos (set_user (snd (Lab4.osfs_write wl wbufl kl)) uml) (w_pos wl)) rbufl kl)
      as (Hrd & Hbytes); cbn [w_pos w_osfs w_user w_sb set_pos set_user]; try assumption.
    split; [exact Hrd|].
    apply load_bytes_ext. intros j Hj.
    rewrite Hbytes by lia. cbn [w_pos w_osfs w_user w_sb set_pos set_user].
    apply Hcontent. lia.
  - pose proof (osfs_write_content w wbuf k w1 Hok Hp0 Hk Hcap Hw) as Hcontent.
    destruct (bonus_write_effect w wbuf k) as (r & w' & H & _ & _ & Hsz & _).
    { unfold vfs_range, MAX_BLOCKS_PER_FILE, BLOCK_SIZE in *. lia. }
    rewrite Hw in H. injection H as <- <-.
    destruct (osfs_write_extent_ok w wbuf k Hok) as (r & w' & H & Hok1).
    rewrite Hw in H. injection H as <- <-.
    destruct (osfs_write_arena w wbuf k Harena) as (r & w' & H & Harena1).
    rewrite Hw in H. injection H as <- <-.
    pose proof (extent_ok_addressable w1 Hok1 Harena1) as Haddr.
    destruct (osfs_read_content (set_pos (set_user w1 um) (w_pos w)) rbuf k)
      as (w2 & Hrd & Hbytes);
      cbn [w_pos w_osfs w_user w_sb set_pos set_user]; try assumption.
    { intros Hk0. rewrite (Hsz Hk0). lia. }
    exists w2. split; [exact Hrd|].
    apply load_bytes_ext. intros j Hj.
    rewrite Hbytes by lia. cbn [w_pos w_osfs w_user w_sb set_pos set_user].
    rewrite read_addr_small by apply Haddr.
    rewrite Hcontent by lia. f_equal. lia.
Qed.

Lemma write_then_read_witness :
  exists w1 w2,
    Bonus.osfs_write (bonus_fresh (fresh_sb 8 Byte.xff) (striped_user 0 5000) 4090) 0 4106
    = Some (4106, w1) /\
    Bonus.osfs_read (set_pos (set_user w1 (flat_user 6000 11000 Byte.x00)) 4090) 6000 4106
    = Some (4106, w2) /\
    load_bytes (u_byte (w_user w2)) 6000 (Z.to_nat 4106)
    = load_bytes (u_byte (striped_user 0 5000)) 0 (Z.to_nat 4106).
Proof.
  destruct (osfs_write_total (bonus_fresh (fresh_sb 8 Byte.xff) (striped_user 0 5000) 4090) 0 4106)
    as [[r w1] E].
  pose proof (f_equal (option_map fst) E) as Er. vm_compute in Er. injection Er as Er.
  rewrite <- Er in E. clear Er r.
  destruct (write_then_read (lab4_fresh (fresh_sb 8 Byte.xff) (striped_user 0 64) 20) 0 100 10
              (flat_user 100 110 Byte.x00)
              (bonus_fresh (fresh_sb 8 Byte.xff) (striped_user 0 5000) 4090)
              w1 0 6000 4106 (flat_user 6000 11000 Byte.x00)) as (_ & w2 & Hrd & Hbytes).
  - simpl. lia.
  - lia.
  - simpl. unfold BLOCK_SIZE. lia.
  - vm_compute. reflexivity.
  - vm_compute. reflexivity.
  - apply (reachable_extent_ok any_write). apply reach_fresh.
  - vm_compute. discriminate.
  - simpl. lia.
  - lia.
  - simpl. unfold MAX_BLOCKS_PER_FILE, BLOCK_SIZE. lia.
  - exact E.
  - vm_compute. reflexivity.
  - exists w1, w2. split; [exact E|]. split; [exact Hrd|exact Hbytes].
Defined.

(** * More properties of the data path *)

(** ** The two sizes *)

Lemma write_body_sizes c :
  VFS.i_size (w_inode (Bonus.l_w c)) = Bonus.i_size (w_osfs (Bonus.l_w c)) ->
  VFS.i_size (w_inode (after_turn (Bonus.write_body c)))
  = Bonus.i_size (w_osfs (after_turn (Bonus.write_body c))).
Proof.
  intros H.
  destruct (write_body_cases c) as [(_ & E)|[(_ & _ & _ & E)|(_ & w1 & Ha & Hc)]].
  - rewrite E. exact H.
  - rewrite E. exact H.
  - destruct (alloc_if_needed_inl _ _ _ Ha) as (Hi & _ & _ & _ & Hsz & _).
    cbv zeta in Hc. destruct Hc as [(_ & E)|(_ & E)]; rewrite E; cbn [after_turn Bonus.l_w].
    + cbn. now rewrite Hi, Hsz.
    + destruct (_ >? _); cbn; [reflexivity|now rewrite Hi, Hsz].
Qed.

(** X1: the size in the VFS inode follows the size in the filesystem's inode:
    a write that finds the two equal leaves them equal, whatever it
    returns. *)
Theorem write_keeps_sizes_equal (wl : Lab4.W) (wb : Bonus.W) (buf len : Z) :
  VFS.i_size (w_inode wl) = Lab4.i_size (w_osfs wl) ->
  VFS.i_size (w_inode wb) = Bonus.i_size (w_osfs wb) ->
  VFS.i_size (w_inode (snd (Lab4.osfs_write wl buf len)))
  = Lab4.i_size (w_osfs (snd (Lab4.osfs_write wl buf len))) /\
  (exists r w', Bonus.osfs_write wb buf len = Some (r, w') /\
     VFS.i_size (w_inode w') = Bonus.i_size (w_osfs w')).
Proof.
  intros Hl Hb. split.
  - assert (forall w1 : Lab4.W,
              VFS.i_size (w_inode w1) = Lab4.i_size (w_osfs w1) ->
              VFS.i_size (w_inode (snd (Lab4.write_steps_3_to_6 w1 buf len)))
              = Lab4.i_size (w_osfs (snd (Lab4.write_steps_3_to_6 w1 buf len)))) as Hsteps.
    { intros w1 H1. unfold Lab4.write_steps_3_to_6.
      destruct (w_pos w1 >=? BLOCK_SIZE); [exact H1|].
      generalize (if u64 (w_pos w1 + len) >? BLOCK_SIZE
                  then u64 (BLOCK_SIZE - w_pos w1) else len). intros n.
      destruct (copy_from_user _ _ _) as [uncopied bs].
      destruct (uncopied =? 0); [|exact H1].
      cbv zeta. destruct (_ >? _); cbn; [reflexivity|exact H1]. }
    unfold Lab4.osfs_write.
    destruct (Lab4.i_blocks (w_osfs wl) =? 0); [|now apply Hsteps].
    destruct (osfs_alloc_data_block (w_sb wl)) as [[ret sb] blk].
    destruct (ret =? 0); [|exact Hl]. apply Hsteps. exact Hl.
  - destruct (osfs_write_rule
                (fun c => VFS.i_size (w_inode (Bonus.l_w c)) = Bonus.i_size (w_osfs (Bonus.l_w c)))
                (fun '(_, w') => VFS.i_size (w_inode w') = Bonus.i_size (w_osfs w'))
                wb buf len) as ([r w'] & H & HQ).
    + exact Hb.
    + intros c Hc _. pose proof (write_body_sizes c Hc) as Hs.
      destruct (Bonus.write_body c) as [c'|[r w']]; exact Hs.
    + intros c Hc _. exact Hc.
    + eauto.
Qed.

Lemma write_keeps_sizes_equal_witness :
  exists r w',
    Bonus.osfs_write (bonus_fresh (fresh_sb 8 Byte.xff) (flat_user 0 64 Byte.x41) 4090) 0 10
    = Some (r, w') /\
    VFS.i_size (w_inode w') = Bonus.i_size (w_osfs w').
Proof.
  apply (write_keeps_sizes_equal
           (lab4_fresh (fresh_sb 8 Byte.xff) (flat_user 0 64 Byte.x41) 4090)
           (bonus_fresh (fresh_sb 8 Byte.xff) (flat_user 0 64 Byte.x41) 4090) 0 10);
    reflexivity.
Defined.

(** ** A write releases nothing *)

Lemma bitmap_insert_keeps (bm : list bool) (i b : nat) :
  bm !! b = Some true -> <[i := true]> bm !! b = Some true.
Proof.
  intros H. destruct (Nat.eq_dec i b) as [->|Hne].
  - apply list_lookup_insert_eq. eapply lookup_lt_Some; eauto.
  - now rewrite list_lookup_insert_ne.
Qed.

Lemma alloc_keeps_bits sb ret sb' blk (b : nat) :
  osfs_alloc_data_block sb = (ret, sb', blk) ->
  block_bitmap sb !! b = Some true -> block_bitmap sb' !! b = Some true.
Proof.
  intros Ha Hb. destruct (alloc_cases sb) as [(i & E & _)|E]; rewrite E in Ha;
    injection Ha as <- <- <-; [now apply bitmap_insert_keeps|exact Hb].
Qed.

Lemma alloc_if_needed_keeps w idx w1 (b : nat) :
  Bonus.alloc_if_needed w idx = inl w1 ->
  (block_bitmap (w_sb w) !! b = Some true -> block_bitmap (w_sb w1) !! b = Some true) /\
  Bonus.i_blocks (w_osfs w) <= Bonus.i_blocks (w_osfs w1).
Proof.
  intros H.
  destruct (alloc_if_needed_inl _ _ _ H)
    as (_ & _ & _ & _ & _ & [[_ ->]|[_ (i & _ & _ & Ho & Hsb & _)]]).
  - split; [auto|lia].
  - rewrite Ho, Hsb. cbn [block_bitmap Bonus.i_blocks]. split; [|lia].
    now apply bitmap_insert_keeps.
Qed.

(** The part of the world a turn of the write loop may change in the
    extent map and the bitmap is what [alloc_if_needed] changes. *)
Lemma write_turn_extent c :
  Bonus.loop_guard c = true ->
  (Bonus.blocks (w_osfs (after_turn (Bonus.write_body c))) = Bonus.blocks (w_osfs (Bonus.l_w c)) /\
   Bonus.i_blocks (w_osfs (after_turn (Bonus.write_body c))) = Bonus.i_blocks (w_osfs (Bonus.l_w c)) /\
   block_bitmap (w_sb (after_turn (Bonus.write_body c))) = block_bitmap (w_sb (Bonus.l_w c)))
  \/
  (exists w1,
     Bonus.alloc_if_needed (Bonus.l_w c) (Bonus.blk_index (w_pos (Bonus.l_w c))) = inl w1 /\
     Bonus.blk_index (w_pos (Bonus.l_w c)) < MAX_BLOCKS_PER_FILE /\
     Bonus.blocks (w_osfs (after_turn (Bonus.write_body c))) = Bonus.blocks (w_osfs w1) /\
     Bonus.i_blocks (w_osfs (after_turn (Bonus.write_body c))) = Bonus.i_blocks (w_osfs w1) /\
     block_bitmap (w_sb (after_turn (Bonus.write_body c))) = block_bitmap (w_sb w1)).
Proof.
  intros _.
  destruct (write_body_cases c) as [(_ & E)|[(_ & _ & _ & E)|(Hidx & w1 & Ha & Hc)]].
  - left. rewrite E. repeat split.
  - left. rewrite E. repeat split.
  - right. exists w1. split; [exact Ha|]. split; [exact Hidx|].
    cbv zeta in Hc. destruct Hc as [(_ & E)|(_ & E)]; rewrite E; cbn [after_turn Bonus.l_w].
    + repeat split.
    + destruct (_ >? _); repeat split.
Qed.

(** X2: a write never gives back a block: the slots that hold a block keep it,
    the bits set in the bitmap stay set and the block count does not go
    down.  This holds whatever the write returns. *)
Theorem write_releases_nothing (wl : Lab4.W) (wb : Bonus.W) (buf len : Z) :
  length (Bonus.blocks (w_osfs wb)) = Z.to_nat MAX_BLOCKS_PER_FILE ->
  ((Lab4.i_blocks (w_osfs wl) <> 0 ->
    Lab4.i_block (w_osfs (snd (Lab4.osfs_write wl buf len))) = Lab4.i_block (w_osfs wl) /\
    Lab4.i_blocks (w_osfs (snd (Lab4.osfs_write wl buf len))) = Lab4.i_blocks (w_osfs wl)) /\
   (forall b : nat, block_bitmap (w_sb wl) !! b = Some true ->
      block_bitmap (w_sb (snd (Lab4.osfs_write wl buf len))) !! b = Some true)) /\
  (exists r w', Bonus.osfs_write wb buf len = Some (r, w') /\
     length (Bonus.blocks (w_osfs w')) = Z.to_nat MAX_BLOCKS_PER_FILE /\
     (forall j, 0 <= j -> Bonus.slot (w_osfs wb) j <> 0 ->
        Bonus.slot (w_osfs w') j = Bonus.slot (w_osfs wb) j) /\
     (forall b : nat, block_bitmap (w_sb wb) !! b = Some true ->
        block_bitmap (w_sb w') !! b = Some true) /\
     Bonus.i_blocks (w_osfs wb) <= Bonus.i_blocks (w_osfs w')).
Proof.
  intros Hlen. split.
  - assert (forall w1 : Lab4.W,
              w_osfs (snd (Lab4.write_steps_3_to_6 w1 buf len))
              = Lab4.mkOsfsInode (Lab4.i_size (w_osfs (snd (Lab4.write_steps_3_to_6 w1 buf len))))
                  (Lab4.i_blocks (w_osfs w1)) (Lab4.i_block (w_osfs w1)) /\
              block_bitmap (w_sb (snd (Lab4.write_steps_3_to_6 w1 buf len)))
              = block_bitmap (w_sb w1)) as Hsteps.
    { intros w1. unfold Lab4.write_steps_3_to_6.
      destruct (w_pos w1 >=? BLOCK_SIZE); [cbn; now destruct (w_osfs w1)|].
      generalize (if u64 (w_pos w1 + len) >? BLOCK_SIZE
                  then u64 (BLOCK_SIZE - w_pos w1) else len). intros n.
      destruct (copy_from_user _ _ _) as [uncopied bs].
      destruct (uncopied =? 0); [|cbn; now destruct (w_osfs w1)].
      cbv zeta. destruct (_ >? _); cbn; now destruct (w_osfs w1). }
    unfold Lab4.osfs_write.
    destruct (Z.eqb_spec (Lab4.i_blocks (w_osfs wl)) 0) as [Hz|Hnz].
    + split; [intros; contradiction|]. intros b Hb.
      destruct (osfs_alloc_data_block (w_sb wl)) as [[ret sb] blk] eqn:Ha.
      pose proof (alloc_keeps_bits _ _ _ _ b Ha Hb) as Hb'.
      destruct (ret =? 0); [|exact Hb'].
      match goal with |- context [Lab4.write_steps_3_to_6 ?x buf len] =>
        destruct (Hsteps x) as (_ & ->) end.
      exact Hb'.
    + destruct (Hsteps wl) as (Ho & Hbm). split.
      * intros _. rewrite Ho. split; reflexivity.
      * intros b Hb. now rewrite Hbm.
  - destruct (osfs_write_rule
                (fun c =>
                   length (Bonus.blocks (w_osfs (Bonus.l_w c))) = Z.to_nat MAX_BLOCKS_PER_FILE /\
                   (forall j, 0 <= j -> Bonus.slot (w_osfs wb) j <> 0 ->
                      Bonus.slot (w_osfs (Bonus.l_w c)) j = Bonus.slot (w_osfs wb) j) /\
                   (forall b : nat, block_bitmap (w_sb wb) !! b = Some true ->
                      block_bitmap (w_sb (Bonus.l_w c)) !! b = Some true) /\
                   Bonus.i_blocks (w_osfs wb) <= Bonus.i_blocks (w_osfs (Bonus.l_w c)))
                (fun '(_, w') =>
                   length (Bonus.blocks (w_osfs w')) = Z.to_nat MAX_BLOCKS_PER_FILE /\
                   (forall j, 0 <= j -> Bonus.slot (w_osfs wb) j <> 0 ->
                      Bonus.slot (w_osfs w') j = Bonus.slot (w_osfs wb) j) /\
                   (forall b : nat, block_bitmap (w_sb wb) !! b = Some true ->
                      block_bitmap (w_sb w') !! b = Some true) /\
                   Bonus.i_blocks (w_osfs wb) <= Bonus.i_blocks (w_osfs w'))
                wb buf len) as ([r w'] & H & HQ).
    + cbn. repeat split; auto; lia.
    + intros c (H1 & H2 & H3 & H4) Hg.
      assert (length (Bonus.blocks (w_osfs (after_turn (Bonus.write_body c))))
              = Z.to_nat MAX_BLOCKS_PER_FILE /\
              (forall j, 0 <= j -> Bonus.slot (w_osfs wb) j <> 0 ->
                 Bonus.slot (w_osfs (after_turn (Bonus.write_body c))) j = Bonus.slot (w_osfs wb) j) /\
              (forall b : nat, block_bitmap (w_sb wb) !! b = Some true ->
                 block_bitmap (w_sb (after_turn (Bonus.write_body c))) !! b = Some true) /\
              Bonus.i_blocks (w_osfs wb) <= Bonus.i_blocks (w_osfs (after_turn (Bonus.write_body c))))
        as Hstep.
      { destruct (write_turn_extent c Hg) as [(E1 & E2 & E3)|(w1 & Ha & Hidx & E1 & E2 & E3)].
        - rewrite E1, E2, E3. split; [exact H1|]. split; [|split; [exact H3|exact H4]].
          intros j Hj Hnz. rewrite (slot_eq _ (w_osfs (Bonus.l_w c)) j E1). now apply H2.
        - pose proof (blk_index_range (w_pos (Bonus.l_w c))) as Hir.
          destruct (alloc_if_needed_slots _ _ _ Ha ltac:(lia)
                      ltac:(rewrite H1; unfold MAX_BLOCKS_PER_FILE in *; lia))
            as (Hlen1 & _ & Hkeep & _).
          assert (forall j, Bonus.slot (w_osfs (after_turn (Bonus.write_body c))) j
                            = Bonus.slot (w_osfs w1) j) as Hs
            by (intros j; now apply slot_eq).
          rewrite E1, E2, E3.
          split; [congruence|]. split; [|split].
          + intros j Hj Hnz. rewrite Hs, Hkeep; [now apply H2|exact Hj|]. now rewrite H2.
          + intros b Hb. now apply (alloc_if_needed_keeps _ _ _ b Ha), H3.
          + destruct (alloc_if_needed_keeps _ _ _ 0%nat Ha) as (_ & Hle). lia. }
      destruct (Bonus.write_body c) as [c'|[r w']]; exact Hstep.
    + intros c Hc _. exact Hc.
    + eauto.
Qed.

Lemma write_releases_nothing_witness :
  exists r w',
    Bonus.osfs_write (two_block_file (flat_user 0 64 Byte.x41) 4090) 0 10 = Some (r, w') /\
    Bonus.slot (w_osfs w') 1 = 2.
Proof.
  destruct (write_releases_nothing
              (one_block_file (flat_user 0 64 Byte.x41) 0)
              (two_block_file (flat_user 0 64 Byte.x41) 4090) 0 10)
    as (_ & r & w' & H & _ & Hk & _).
  - reflexivity.
  - exists r, w'. split; [exact H|]. apply (Hk 1); [lia|]. vm_compute. discriminate.
Defined.

(** ** The block count *)

Lemma allocated_insert (l : list Z) : forall (n : nat) (x : Z),
  l !! n = Some 0 -> x <> 0 ->
  length (List.filter (fun b => negb (b =? 0)) (<[n := x]> l))
  = S (length (List.filter (fun b => negb (b =? 0)) l)).
Proof.
  induction l as [|a l IH]; intros n x Hn Hx; [discriminate|].
  destruct n as [|n]; simpl in *.
  - injection Hn as ->. simpl. destruct (Z.eqb_spec x 0); [contradiction|reflexivity].
  - destruct (negb (a =? 0)); simpl; now rewrite (IH n x Hn Hx).
Qed.

Lemma slot_zero_lookup o idx :
  (Z.to_nat idx < length (Bonus.blocks o))%nat -> Bonus.slot o idx = 0 ->
  Bonus.blocks o !! Z.to_nat idx = Some 0.
Proof.
  intros Hlen. unfold Bonus.slot.
  destruct (lookup_lt_is_Some_2 _ _ Hlen) as [v ->]. simpl. now intros ->.
Qed.

Lemma alloc_if_needed_count w idx w1 :
  Bonus.alloc_if_needed w idx = inl w1 ->
  (Z.to_nat idx < length (Bonus.blocks (w_osfs w)))%nat ->
  Bonus.i_blocks (w_osfs w) = Z.of_nat (allocated_slots (w_osfs w)) ->
  Bonus.i_blocks (w_osfs w1) = Z.of_nat (allocated_slots (w_osfs w1)).
Proof.
  intros H Hlen Hc.
  destruct (alloc_if_needed_inl _ _ _ H)
    as (_ & _ & _ & _ & _ & [[_ ->]|[Hs (i & Hi & _ & Ho & _)]]); [exact Hc|].
  rewrite Ho. unfold allocated_slots. cbn [Bonus.i_blocks Bonus.blocks].
  rewrite allocated_insert; [|now apply slot_zero_lookup|lia].
  unfold allocated_slots in Hc. lia.
Qed.

Lemma osfs_write_count w buf len :
  length (Bonus.blocks (w_osfs w)) = Z.to_nat MAX_BLOCKS_PER_FILE ->
  Bonus.i_blocks (w_osfs w) = Z.of_nat (allocated_slots (w_osfs w)) ->
  exists r w', Bonus.osfs_write w buf len = Some (r, w') /\
    Bonus.i_blocks (w_osfs w') = Z.of_nat (allocated_slots (w_osfs w')).
Proof.
  intros Hlen Hc.
  destruct (osfs_write_rule
              (fun c => length (Bonus.blocks (w_osfs (Bonus.l_w c))) = Z.to_nat MAX_BLOCKS_PER_FILE /\
                        Bonus.i_blocks (w_osfs (Bonus.l_w c))
                        = Z.of_nat (allocated_slots (w_osfs (Bonus.l_w c))))
              (fun '(_, w') => Bonus.i_blocks (w_osfs w') = Z.of_nat (allocated_slots (w_osfs w')))
              w buf len) as ([r w'] & H & HQ).
  - split; assumption.
  - intros c (H1 & H2) Hg.
    assert (length (Bonus.blocks (w_osfs (after_turn (Bonus.write_body c))))
            = Z.to_nat MAX_BLOCKS_PER_FILE /\
            Bonus.i_blocks (w_osfs (after_turn (Bonus.write_body c)))
            = Z.of_nat (allocated_slots (w_osfs (after_turn (Bonus.write_body c))))) as Hstep.
    { unfold allocated_slots in *.
      destruct (write_turn_extent c Hg) as [(E1 & E2 & _)|(w1 & Ha & Hidx & E1 & E2 & _)];
        rewrite E1, E2; [split; assumption|].
      pose proof (blk_index_range (w_pos (Bonus.l_w c))) as Hir.
      assert ((Z.to_nat (Bonus.blk_index (w_pos (Bonus.l_w c)))
               < length (Bonus.blocks (w_osfs (Bonus.l_w c))))%nat) as Hin
        by (rewrite H1; unfold MAX_BLOCKS_PER_FILE in *; lia).
      destruct (alloc_if_needed_slots _ _ _ Ha ltac:(lia) Hin) as (Hlen1 & _).
      split; [congruence|]. now apply (alloc_if_needed_count _ _ _ Ha Hin). }
    destruct (Bonus.write_body c) as [c'|[r w']]; [exact Hstep|apply Hstep].
  - intros c (_ & Hc') _. exact Hc'.
  - eauto.
Qed.

(** X3: in every state that reads and writes lead to, the block count of the
    inode is the number of slots that hold a block. *)
Theorem block_count_is_allocated_slots (w : Bonus.W) :
  reachable any_write w ->
  Bonus.i_blocks (w_osfs w) = Z.of_nat (allocated_slots (w_osfs w)).
Proof.
  induction 1 as [sb um pos|w um pos t _ IH|w buf len r w' Hr IH Hrd|w buf len r w' Hr IH Hm Hw].
  - reflexivity.
  - exact IH.
  - destruct (bonus_read_frame w buf len) as (r' & w'' & H' & Ho & _).
    rewrite Hrd in H'. injection H' as <- <-. now rewrite Ho.
  - destruct (reachable_extent_ok _ _ Hr) as (Hlen & _).
    destruct (osfs_write_count w buf len Hlen IH) as (r' & w'' & H' & Hc).
    rewrite Hw in H'. now injection H' as <- <-.
Qed.

Lemma block_count_is_allocated_slots_witness :
  exists w, reachable any_write w /\
            Bonus.i_blocks (w_osfs w) = Z.of_nat (allocated_slots (w_osfs w)) /\
            Bonus.i_blocks (w_osfs w) = 2.
Proof.
  destruct (osfs_write_total (bonus_fresh (fresh_sb 8 Byte.xff) (flat_user 0 64 Byte.x41) 4090) 0 10)
    as [[r w'] E].
  assert (reachable any_write w') as Hr
    by (eapply reach_write; [apply reach_fresh|exact I|exact E]).
  exists w'. split; [exact Hr|]. split; [exact (block_count_is_allocated_slots w' Hr)|].
  pose proof (f_equal (option_map (fun rw => Bonus.i_blocks (w_osfs (snd rw)))) E) as E'.
  vm_compute in E'. injection E' as E'. symmetry. exact E'.
Defined.

(** ** Which bytes of the arena a write changes *)

Lemma write_turn_data c a :
  0 <= w_pos (Bonus.l_w c) -> Bonus.loop_guard c = true ->
  length (Bonus.blocks (w_osfs (Bonus.l_w c))) = Z.to_nat MAX_BLOCKS_PER_FILE ->
  data_blocks (w_sb (after_turn (Bonus.write_body c))) a = data_blocks (w_sb (Bonus.l_w c)) a
  \/ turn_changes c a.
Proof.
  intros Hpos Hg Hlen. unfold Bonus.loop_guard in Hg. apply Z.gtb_lt in Hg.
  destruct (write_body_cases c) as [(_ & E)|[(_ & _ & _ & E)|(Hidx & w1 & Ha & Hc)]].
  - left. now rewrite E.
  - left. now rewrite E.
  - pose proof (blk_index_range (w_pos (Bonus.l_w c))) as Hir.
    assert ((Z.to_nat (Bonus.blk_index (w_pos (Bonus.l_w c)))
             < length (Bonus.blocks (w_osfs (Bonus.l_w c))))%nat) as Hin
      by (rewrite Hlen; unfold MAX_BLOCKS_PER_FILE in *; lia).
    destruct (alloc_if_needed_slots _ _ _ Ha ltac:(lia) Hin) as (_ & Hnz & _ & _).
    rewrite (blk_offset_nonneg _ Hpos), (seg_len_nonneg _ _ Hpos) in Hc.
    set (n := Z.min (Bonus.l_len c) (BLOCK_SIZE - w_pos (Bonus.l_w c) mod BLOCK_SIZE)) in *.
    assert (0 <= n) as Hn.
    { pose proof (Z.mod_pos_bound (w_pos (Bonus.l_w c)) BLOCK_SIZE ltac:(unfold BLOCK_SIZE; lia)).
      unfold n. lia. }
    assert (Bonus.slot (w_osfs (after_turn (Bonus.write_body c)))
              (Bonus.blk_index (w_pos (Bonus.l_w c)))
            = Bonus.slot (w_osfs w1) (Bonus.blk_index (w_pos (Bonus.l_w c))) /\
            data_blocks (w_sb (after_turn (Bonus.write_body c)))
            = store_bytes (data_blocks (w_sb w1))
                (Bonus.slot (w_osfs w1) (Bonus.blk_index (w_pos (Bonus.l_w c))) * BLOCK_SIZE
                 + w_pos (Bonus.l_w c) mod BLOCK_SIZE)
                (snd (copy_from_user (w_user (Bonus.l_w c)) (Bonus.l_buf c) n))) as (Es & Ed).
    { cbv zeta in Hc. destruct Hc as [(_ & E)|(_ & E)]; rewrite E; cbn [after_turn Bonus.l_w].
      - split; reflexivity.
      - destruct (s64 _ >? _); split; reflexivity. }
    destruct (Z_lt_le_dec a
                (Bonus.slot (w_osfs w1) (Bonus.blk_index (w_pos (Bonus.l_w c))) * BLOCK_SIZE
                 + w_pos (Bonus.l_w c) mod BLOCK_SIZE)) as [Hlo|Hlo];
      [|destruct (Z_lt_le_dec a
                   (Bonus.slot (w_osfs w1) (Bonus.blk_index (w_pos (Bonus.l_w c))) * BLOCK_SIZE
                    + w_pos (Bonus.l_w c) mod BLOCK_SIZE + n)) as [Hhi|Hhi]].
    2: { right. unfold turn_changes. cbv zeta. rewrite Es. fold n.
         split; [exact Hidx|]. split; [exact Hnz|]. right. lia. }
    all: assert (data_blocks (w_sb (after_turn (Bonus.write_body c))) a = data_blocks (w_sb w1) a)
        as Hst
        by (rewrite Ed; apply store_bytes_out; rewrite copy_from_user_length by exact Hn; lia).
    all: destruct (alloc_if_needed_inl _ _ _ Ha)
        as (_ & _ & _ & _ & _ & [[_ ->]|[Hs (i & Hi & Hfree & Ho & Hsb & _)]]);
        [left; exact Hst|].
    all: assert (Bonus.slot (w_osfs w1) (Bonus.blk_index (w_pos (Bonus.l_w c))) = Z.of_nat i) as Hblk
        by (rewrite Ho, slot_insert by (try exact Hin; lia); now rewrite Z.eqb_refl).
    all: rewrite Hst, Hsb; cbn [data_blocks]; rewrite Hblk.
    all: destruct (Z_lt_le_dec a (Z.of_nat i * BLOCK_SIZE)) as [H1|H1];
        [left; apply memset0_out; lia|].
    all: destruct (Z_lt_le_dec a (Z.of_nat i * BLOCK_SIZE + BLOCK_SIZE)) as [H2|H2];
        [|left; apply memset0_out; lia].
    all: right; unfold turn_changes; cbv zeta; rewrite Es, Hblk.
    all: split; [exact Hidx|]; split; [lia|]; left.
    all: split; [exact Hs|]; split; [now rewrite Nat2Z.id|lia].
Qed.

Lemma alloc_if_needed_fresh w idx w1 :
  Bonus.alloc_if_needed w idx = inl w1 ->
  0 <= idx -> (Z.to_nat idx < length (Bonus.blocks (w_osfs w)))%nat ->
  (Bonus.slot (w_osfs w) idx <> 0 /\ w1 = w) \/
  (Bonus.slot (w_osfs w) idx = 0 /\ 0 < Bonus.slot (w_osfs w1) idx /\
   block_bitmap (w_sb w) !! Z.to_nat (Bonus.slot (w_osfs w1) idx) = Some false /\
   block_bitmap (w_sb w1)
   = <[Z.to_nat (Bonus.slot (w_osfs w1) idx) := true]> (block_bitmap (w_sb w)) /\
   data_blocks (w_sb w1)
   = memset0 (data_blocks (w_sb w)) (Bonus.slot (w_osfs w1) idx * BLOCK_SIZE) BLOCK_SIZE).
Proof.
  intros H Hidx Hin.
  destruct (alloc_if_needed_inl _ _ _ H)
    as (_ & _ & _ & _ & _ & [[Hs ->]|[Hs (i & Hi & Hfree & Ho & Hsb & _)]]);
    [left; now split|right].
  assert (Bonus.slot (w_osfs w1) idx = Z.of_nat i) as Hblk
    by (rewrite Ho, slot_insert by (try exact Hin; lia); now rewrite Z.eqb_refl).
  rewrite Hsb. cbn [block_bitmap data_blocks]. rewrite Hblk, Nat2Z.id.
  split; [exact Hs|]. split; [lia|]. split; [exact Hfree|]. split; reflexivity.
Qed.

Lemma within_own_blocks_refl w :
  length (Bonus.blocks (w_osfs w)) = Z.to_nat MAX_BLOCKS_PER_FILE -> within_own_blocks w w.
Proof.
  intros Hlen. split; [exact Hlen|]. split; [intros a Ha; now contradiction Ha|].
  split; [intros j _ _; now left|]. split; [auto|auto].
Qed.

Lemma write_turn_within_own_blocks w0 c :
  within_own_blocks w0 (Bonus.l_w c) ->
  0 <= w_pos (Bonus.l_w c) -> Bonus.loop_guard c = true ->
  within_own_blocks w0 (after_turn (Bonus.write_body c)).
Proof.
  intros (Hlen & Hd & Hp & Hb & Hk) Hpos Hg.
  pose proof (blk_index_range (w_pos (Bonus.l_w c))) as Hir.
  assert (forall a,
            data_blocks (w_sb (after_turn (Bonus.write_body c))) a <> data_blocks (w_sb w0) a ->
            data_blocks (w_sb (Bonus.l_w c)) a <> data_blocks (w_sb w0) a \/ turn_changes c a)
    as Hdata.
  { intros a Hne. destruct (write_turn_data c a Hpos Hg Hlen) as [E|Hch]; [left|now right].
    now rewrite <- E. }
  assert (forall a, turn_changes c a ->
            exists j, 0 <= j < MAX_BLOCKS_PER_FILE /\
                      Bonus.slot (w_osfs (after_turn (Bonus.write_body c))) j <> 0 /\
                      in_block (Bonus.slot (w_osfs (after_turn (Bonus.write_body c))) j) a)
    as Hturn.
  { intros a (Hidx & Hnz & Hin). exists (Bonus.blk_index (w_pos (Bonus.l_w c))).
    split; [lia|]. split; [exact Hnz|]. unfold in_block.
    pose proof (Z.mod_pos_bound (w_pos (Bonus.l_w c)) BLOCK_SIZE ltac:(unfold BLOCK_SIZE; lia)).
    destruct Hin as [(_ & _ & Hin)|Hin]; lia. }
  destruct (write_turn_extent c Hg) as [(E1 & _ & E3)|(w1 & Ha & Hidx & E1 & _ & E3)].
  - assert (forall j, Bonus.slot (w_osfs (after_turn (Bonus.write_body c))) j
                      = Bonus.slot (w_osfs (Bonus.l_w c)) j) as Hs
      by (intros j; now apply slot_eq).
    split; [now rewrite E1|]. split; [|split; [|split]].
    + intros a Hne. destruct (Hdata a Hne) as [Hne'|Hch]; [|now apply Hturn].
      destruct (Hd a Hne') as (j & Hj & Hnz & Hin). exists j. now rewrite Hs.
    + intros j Hj. rewrite Hs. now apply Hp.
    + intros b. rewrite E3. now apply Hb.
    + intros j Hj Hnz. rewrite Hs. now apply Hk.
  - assert ((Z.to_nat (Bonus.blk_index (w_pos (Bonus.l_w c)))
             < length (Bonus.blocks (w_osfs (Bonus.l_w c))))%nat) as Hin
      by (rewrite Hlen; unfold MAX_BLOCKS_PER_FILE in *; lia).
    destruct (alloc_if_needed_slots _ _ _ Ha ltac:(lia) Hin) as (Hlen1 & Hnz1 & Hkeep & Hother).
    assert (forall j, Bonus.slot (w_osfs (after_turn (Bonus.write_body c))) j
                      = Bonus.slot (w_osfs w1) j) as Hs
      by (intros j; now apply slot_eq).
    split; [congruence|]. split; [|split; [|split]].
    + intros a Hne. destruct (Hdata a Hne) as [Hne'|Hch]; [|now apply Hturn].
      destruct (Hd a Hne') as (j & Hj & Hnz & Hinb). exists j.
      rewrite Hs, Hkeep by (lia || exact Hnz). auto.
    + intros j Hj. rewrite Hs. intros Hnz.
      destruct (Z.eq_dec j (Bonus.blk_index (w_pos (Bonus.l_w c)))) as [->|Hne].
      * destruct (alloc_if_needed_fresh _ _ _ Ha ltac:(lia) Hin)
          as [(Hnz0 & ->)|(Hz & _ & Hfree & _)]; [now apply Hp|].
        right. split; [|now apply Hb].
        destruct (Z.eq_dec (Bonus.slot (w_osfs w0) (Bonus.blk_index (w_pos (Bonus.l_w c)))) 0)
          as [E0|N0]; [exact E0|].
        pose proof (Hk (Bonus.blk_index (w_pos (Bonus.l_w c))) ltac:(lia) N0) as Hk'.
        congruence.
      * rewrite (Hother j) in * by lia. now apply Hp.
    + intros b. rewrite E3. intros Hf. apply Hb.
      destruct (alloc_if_needed_fresh _ _ _ Ha ltac:(lia) Hin)
        as [(_ & ->)|(_ & _ & Hfree & Hbm & _)]; [exact Hf|].
      rewrite Hbm in Hf.
      destruct (Nat.eq_dec (Z.to_nat (Bonus.slot (w_osfs w1) (Bonus.blk_index (w_pos (Bonus.l_w c))))) b)
        as [<-|Hne].
      * exact Hfree.
      * now rewrite list_lookup_insert_ne in Hf.
    + intros j Hj Hnz. rewrite Hs, Hkeep; [now apply Hk|exact Hj|]. now rewrite Hk.
Qed.

(** The arithmetic part of the invariant of the write loop. *)
Lemma write_turn_in_range c c' :
  0 <= w_pos (Bonus.l_w c) -> 0 <= Bonus.l_bytes c -> Bonus.loop_guard c = true ->
  w_pos (Bonus.l_w c) + Bonus.l_len c < 2 ^ 63 -> Bonus.l_bytes c + Bonus.l_len c < 2 ^ 63 ->
  Bonus.write_body c = inl c' ->
  0 <= w_pos (Bonus.l_w c') /\ 0 <= Bonus.l_bytes c' /\
  w_pos (Bonus.l_w c') + Bonus.l_len c' = w_pos (Bonus.l_w c) + Bonus.l_len c /\
  Bonus.l_bytes c' + Bonus.l_len c' = Bonus.l_bytes c + Bonus.l_len c /\
  w_pos (Bonus.l_w c') - Bonus.l_bytes c' = w_pos (Bonus.l_w c) - Bonus.l_bytes c /\
  Bonus.l_buf c' - Bonus.l_bytes c' = Bonus.l_buf c - Bonus.l_bytes c /\
  w_pos (Bonus.l_w c) < w_pos (Bonus.l_w c').
Proof.
  intros H1 H2 Hg H3 H4 E.
  pose proof (write_body_effect c H1 H2 Hg H3 H4) as H. rewrite E in H.
  destruct H as (n & Hn & Hp & Hl & Hb & Hbuf & _). lia.
Qed.

(** A turn of the write loop that goes on leaves the position within the
    capacity, and the size is the larger of the old size and the new
    position. *)
Lemma write_turn_capacity c c' :
  0 <= w_pos (Bonus.l_w c) -> 0 <= Bonus.l_bytes c -> Bonus.loop_guard c = true ->
  w_pos (Bonus.l_w c) < 2 ^ 32 * BLOCK_SIZE ->
  w_pos (Bonus.l_w c) + Bonus.l_len c < 2 ^ 63 -> Bonus.l_bytes c + Bonus.l_len c < 2 ^ 63 ->
  Bonus.write_body c = inl c' ->
  w_pos (Bonus.l_w c') <= MAX_BLOCKS_PER_FILE * BLOCK_SIZE /\
  Bonus.i_size (w_osfs (Bonus.l_w c'))
  = Z.max (Bonus.i_size (w_osfs (Bonus.l_w c))) (w_pos (Bonus.l_w c')).
Proof.
  intros Hp Hb Hg Hcap Hpl Hs E.
  assert (0 < Bonus.l_len c) as Hl by (unfold Bonus.loop_guard in Hg; lia).
  pose proof (write_body_effect c Hp Hb Hg Hpl Hs) as He. rewrite E in He.
  destruct He as (n & Hn & E1 & _ & _ & _ & E6 & _).
  destruct (write_turn_goes_on c c' E) as (_ & _ & Hidx & _ & _ & _ & _ & _ & Epos & _).
  cbv zeta in Hidx, Epos.
  rewrite blk_index_small in Hidx by lia.
  pose proof (Z.mod_pos_bound (w_pos (Bonus.l_w c)) BLOCK_SIZE ltac:(unfold BLOCK_SIZE; lia)) as Hoff.
  pose proof (Z.div_mod (w_pos (Bonus.l_w c)) BLOCK_SIZE ltac:(unfold BLOCK_SIZE; lia)) as Hdm.
  rewrite (seg_len_nonneg _ _ Hp) in Epos.
  rewrite s64_small in Epos by (unfold BLOCK_SIZE in *; lia).
  split; [unfold MAX_BLOCKS_PER_FILE, BLOCK_SIZE in *; lia|]. rewrite E6, E1. reflexivity.
Qed.

(** Steps 3 to 6 of the single-block write keep the block and the bitmap,
    and change bytes only where they copy. *)
Lemma lab4_steps_data (w1 : Lab4.W) buf len a :
  vfs_range (w_pos w1) len ->
  Lab4.i_block (w_osfs (snd (Lab4.write_steps_3_to_6 w1 buf len))) = Lab4.i_block (w_osfs w1) /\
  Lab4.i_blocks (w_osfs (snd (Lab4.write_steps_3_to_6 w1 buf len))) = Lab4.i_blocks (w_osfs w1) /\
  block_bitmap (w_sb (snd (Lab4.write_steps_3_to_6 w1 buf len))) = block_bitmap (w_sb w1) /\
  (data_blocks (w_sb (snd (Lab4.write_steps_3_to_6 w1 buf len))) a = data_blocks (w_sb w1) a \/
   (w_pos w1 < BLOCK_SIZE /\
    Lab4.i_block (w_osfs w1) * BLOCK_SIZE + w_pos w1 <= a
    < Lab4.i_block (w_osfs w1) * BLOCK_SIZE + w_pos w1 + Z.min len (BLOCK_SIZE - w_pos w1))).
Proof.
  intros (Hp & Hl & Hs). unfold Lab4.write_steps_3_to_6.
  destruct (Z.geb_spec (w_pos w1) BLOCK_SIZE) as [Hge|Hlt]; [cbn; auto|].
  assert ((if u64 (w_pos w1 + len) >? BLOCK_SIZE then u64 (BLOCK_SIZE - w_pos w1) else len)
          = Z.min len (BLOCK_SIZE - w_pos w1)) as ->.
  { rewrite u64_small by lia. destruct (Z.gtb_spec (w_pos w1 + len) BLOCK_SIZE).
    - rewrite u64_small by (unfold BLOCK_SIZE in *; lia). lia.
    - lia. }
  set (n := Z.min len (BLOCK_SIZE - w_pos w1)).
  assert (0 <= n) as Hn by (unfold n; lia).
  pose proof (copy_from_user_length (w_user w1) buf n Hn) as Hcl.
  destruct (copy_from_user (w_user w1) buf n) as [uncopied bs]. cbn [snd] in Hcl.
  assert (data_blocks (w_sb w1) a
          = store_bytes (data_blocks (w_sb w1)) (Lab4.i_block (w_osfs w1) * BLOCK_SIZE + w_pos w1) bs a
          \/ (Lab4.i_block (w_osfs w1) * BLOCK_SIZE + w_pos w1 <= a
              < Lab4.i_block (w_osfs w1) * BLOCK_SIZE + w_pos w1 + n)) as Hst.
  { destruct (Z_lt_le_dec a (Lab4.i_block (w_osfs w1) * BLOCK_SIZE + w_pos w1));
      [left; symmetry; apply store_bytes_out; lia|].
    destruct (Z_lt_le_dec a (Lab4.i_block (w_osfs w1) * BLOCK_SIZE + w_pos w1 + n));
      [right; lia|left; symmetry; apply store_bytes_out; lia]. }
  destruct (uncopied =? 0); cbv zeta.
  - destruct (_ >? _); cbn; (split; [reflexivity|]); (split; [reflexivity|]);
      (split; [reflexivity|]); destruct Hst as [<-|Hst]; auto.
  - cbn. split; [reflexivity|]. split; [reflexivity|]. split; [reflexivity|].
    destruct Hst as [<-|Hst]; auto.
Qed.

(** The same for the whole single-block write. *)
Lemma lab4_write_data (w : Lab4.W) buf len a :
  vfs_range (w_pos w) len ->
  let w' := snd (Lab4.osfs_write w buf len) in
  (Lab4.i_blocks (w_osfs w) <> 0 ->
   Lab4.i_block (w_osfs w') = Lab4.i_block (w_osfs w) /\
   Lab4.i_blocks (w_osfs w') = Lab4.i_blocks (w_osfs w) /\
   block_bitmap (w_sb w') = block_bitmap (w_sb w) /\
   (data_blocks (w_sb w') a = data_blocks (w_sb w) a \/
    (w_pos w < BLOCK_SIZE /\
     Lab4.i_block (w_osfs w) * BLOCK_SIZE + w_pos w <= a
     < Lab4.i_block (w_osfs w) * BLOCK_SIZE + w_pos w + Z.min len (BLOCK_SIZE - w_pos w)))) /\
  (Lab4.i_blocks (w_osfs w) = 0 ->
   (w_osfs w' = w_osfs w /\ data_blocks (w_sb w') = data_blocks (w_sb w) /\
    block_bitmap (w_sb w') = block_bitmap (w_sb w)) \/
   (0 < Lab4.i_block (w_osfs w') /\
    block_bitmap (w_sb w) !! Z.to_nat (Lab4.i_block (w_osfs w')) = Some false /\
    block_bitmap (w_sb w')
    = <[Z.to_nat (Lab4.i_block (w_osfs w')) := true]> (block_bitmap (w_sb w)) /\
    (data_blocks (w_sb w') a = data_blocks (w_sb w) a \/
     in_block (Lab4.i_block (w_osfs w')) a))).
Proof.
  intros Hr. cbv zeta. unfold Lab4.osfs_write.
  destruct (Z.eqb_spec (Lab4.i_blocks (w_osfs w)) 0) as [Hz|Hnz].
  - split; [intros; contradiction|]. intros _.
    destruct (alloc_cases (w_sb w)) as [(i & -> & Hi & Hfree)| ->].
    + right. cbn [Z.eqb].
      match goal with |- context [Lab4.write_steps_3_to_6 ?x buf len] =>
        destruct (lab4_steps_data x buf len a Hr) as (E1 & _ & E3 & Hd) end.
      rewrite E1, E3. cbn. rewrite Nat2Z.id.
      split; [lia|]. split; [exact Hfree|]. split; [reflexivity|].
      cbn in Hd. unfold in_block.
      destruct Hd as [->|Hd].
      * destruct (Z_lt_le_dec a (Z.of_nat i * BLOCK_SIZE)) as [H1|H1];
          [left; apply memset0_out; lia|].
        destruct (Z_lt_le_dec a (Z.of_nat i * BLOCK_SIZE + BLOCK_SIZE)) as [H2|H2];
          [right; lia|left; apply memset0_out; lia].
      * right. unfold vfs_range in Hr. lia.
    + left. cbn. auto.
  - split; [|intros; contradiction]. intros _.
    destruct (lab4_steps_data w buf len a Hr) as (E1 & E2 & E3 & Hd). auto.
Qed.

(** X4: a write changes no byte of the arena outside the blocks that the file
    holds when the write returns, and each of these blocks is one the file
    held before or one that was free before: the blocks that were in use
    and not the file's keep every byte.  This holds whatever the write
    returns. *)
Theorem write_stays_in_own_blocks (wl : Lab4.W) (wb : Bonus.W) (buf len : Z) :
  vfs_range (w_pos wl) len ->
  vfs_range (w_pos wb) len ->
  length (Bonus.blocks (w_osfs wb)) = Z.to_nat MAX_BLOCKS_PER_FILE ->
  ((forall a, data_blocks (w_sb (snd (Lab4.osfs_write wl buf len))) a <> data_blocks (w_sb wl) a ->
      in_block (Lab4.i_block (w_osfs (snd (Lab4.osfs_write wl buf len)))) a) /\
   (Lab4.i_block (w_osfs (snd (Lab4.osfs_write wl buf len))) = Lab4.i_block (w_osfs wl) \/
    (Lab4.i_blocks (w_osfs wl) = 0 /\
     block_bitmap (w_sb wl) !! Z.to_nat (Lab4.i_block (w_osfs (snd (Lab4.osfs_write wl buf len))))
     = Some false))) /\
  (exists r w', Bonus.osfs_write wb buf len = Some (r, w') /\
     (forall a, data_blocks (w_sb w') a <> data_blocks (w_sb wb) a ->
        exists j, 0 <= j < MAX_BLOCKS_PER_FILE /\ Bonus.slot (w_osfs w') j <> 0 /\
                  in_block (Bonus.slot (w_osfs w') j) a) /\
     (forall j, 0 <= j < MAX_BLOCKS_PER_FILE -> Bonus.slot (w_osfs w') j <> 0 ->
        Bonus.slot (w_osfs w') j = Bonus.slot (w_osfs wb) j \/
        (Bonus.slot (w_osfs wb) j = 0 /\
         block_bitmap (w_sb wb) !! Z.to_nat (Bonus.slot (w_osfs w') j) = Some false))).
Proof.
  intros Hrl Hrb Hlen. split.
  - split.
    + intros a Hne. destruct (lab4_write_data wl buf len a Hrl) as (Hhas & Hnew). cbv zeta in *.
      destruct (Z.eq_dec (Lab4.i_blocks (w_osfs wl)) 0) as [Hz|Hnz].
      * destruct (Hnew Hz) as [(_ & Hd & _)|(_ & _ & _ & [Hd|Hin])];
          [now rewrite Hd in Hne|contradiction|exact Hin].
      * destruct (Hhas Hnz) as (E & _ & _ & [Hd|Hin]); [contradiction|].
        rewrite E. unfold in_block. unfold vfs_range in Hrl. lia.
    + destruct (lab4_write_data wl buf len 0 Hrl) as (Hhas & Hnew). cbv zeta in *.
      destruct (Z.eq_dec (Lab4.i_blocks (w_osfs wl)) 0) as [Hz|Hnz].
      * destruct (Hnew Hz) as [(Ho & _)|(_ & Hfree & _)]; [left; now rewrite Ho|right; auto].
      * left. now apply Hhas.
  - destruct (osfs_write_rule
                (fun c => within_own_blocks wb (Bonus.l_w c) /\
                          0 <= w_pos (Bonus.l_w c) /\ 0 <= Bonus.l_bytes c /\
                          w_pos (Bonus.l_w c) + Bonus.l_len c < 2 ^ 63 /\
                          Bonus.l_bytes c + Bonus.l_len c < 2 ^ 63)
                (fun '(_, w') => within_own_blocks wb w')
                wb buf len) as ([r w'] & H & HQ).
    + unfold vfs_range in Hrb. cbn. split; [now apply within_own_blocks_refl|lia].
    + intros c (Hw & H1 & H2 & H3 & H4) Hg.
      pose proof (write_turn_within_own_blocks wb c Hw H1 Hg) as Hstep.
      pose proof (write_turn_in_range c) as Hr.
      destruct (Bonus.write_body c) as [c'|[r w']]; [|exact Hstep].
      split; [exact Hstep|]. specialize (Hr c' H1 H2 Hg H3 H4 eq_refl). lia.
    + intros c (Hw & _) _. exact Hw.
    + exists r, w'. split; [exact H|]. destruct HQ as (_ & Hd & Hp & _). split; assumption.
Qed.

Lemma write_stays_in_own_blocks_witness :
  exists r w',
    Bonus.osfs_write (two_block_file (flat_user 0 64 Byte.x42) 4090) 0 10 = Some (r, w') /\
    forall a, data_blocks (w_sb w') a <> Byte.x41 ->
      exists j, 0 <= j < MAX_BLOCKS_PER_FILE /\ Bonus.slot (w_osfs w') j <> 0 /\
                in_block (Bonus.slot (w_osfs w') j) a.
Proof.
  destruct (write_stays_in_own_blocks
              (one_block_file (flat_user 0 64 Byte.x42) 0)
              (two_block_file (flat_user 0 64 Byte.x42) 4090) 0 10)
    as (_ & r & w' & H & Hd & _).
  - unfold vfs_range. cbn. lia.
  - unfold vfs_range. cbn. lia.
  - reflexivity.
  - exists r, w'. split; [exact H|]. exact Hd.
Defined.

(** ** The bytes of the file that a write leaves alone *)

Lemma extent_ok_after_turn c :
  extent_ok (Bonus.l_w c) -> extent_ok (after_turn (Bonus.write_body c)).
Proof.
  intros H. pose proof (write_body_extent_ok c H) as H'.
  destruct (Bonus.write_body c) as [c'|[r w']]; exact H'.
Qed.

Lemma write_turn_keeps_slots c j :
  length (Bonus.blocks (w_osfs (Bonus.l_w c))) = Z.to_nat MAX_BLOCKS_PER_FILE ->
  Bonus.loop_guard c = true ->
  0 <= j -> Bonus.slot (w_osfs (Bonus.l_w c)) j <> 0 ->
  Bonus.slot (w_osfs (after_turn (Bonus.write_body c))) j = Bonus.slot (w_osfs (Bonus.l_w c)) j.
Proof.
  intros Hlen Hg Hj Hnz.
  destruct (write_turn_extent c Hg) as [(E1 & _)|(w1 & Ha & Hidx & E1 & _)].
  - now apply slot_eq.
  - pose proof (blk_index_range (w_pos (Bonus.l_w c))) as Hir.
    assert ((Z.to_nat (Bonus.blk_index (w_pos (Bonus.l_w c)))
             < length (Bonus.blocks (w_osfs (Bonus.l_w c))))%nat) as Hin
      by (rewrite Hlen; unfold MAX_BLOCKS_PER_FILE in *; lia).
    destruct (alloc_if_needed_slots _ _ _ Ha ltac:(lia) Hin) as (_ & _ & Hkeep & _).
    rewrite (slot_eq _ (w_osfs w1) j E1). now apply Hkeep.
Qed.

Lemma in_block_unique b b' a : in_block b a -> in_block b' a -> b = b'.
Proof. unfold in_block, BLOCK_SIZE. lia. Qed.

Lemma write_turn_keeps_other_content w0 len c :
  extent_ok (Bonus.l_w c) -> keeps_other_content w0 len (Bonus.l_w c) ->
  0 <= w_pos w0 -> w_pos w0 <= w_pos (Bonus.l_w c) ->
  w_pos (Bonus.l_w c) + Bonus.l_len c = w_pos w0 + len ->
  w_pos (Bonus.l_w c) < 2 ^ 32 * BLOCK_SIZE ->
  Bonus.loop_guard c = true ->
  keeps_other_content w0 len (after_turn (Bonus.write_body c)).
Proof.
  intros Hok (Hk & Hd) Hp0 Hpc Hsum Hcap Hg.
  pose proof Hok as (Hlen & Hbits & Hinj).
  assert (0 < Bonus.l_len c) as Hl by (unfold Bonus.loop_guard in Hg; lia).
  split.
  - intros j Hj Hnz. rewrite write_turn_keeps_slots; auto. now rewrite Hk.
  - intros p Hp Hnz Hout.
    destruct (write_turn_data c (byte_addr (w_osfs w0) p) ltac:(lia) Hg Hlen) as [->|Hch];
      [now apply Hd|exfalso].
    destruct Hch as (Hidx & Hblk & Hin).
    set (idx := Bonus.blk_index (w_pos (Bonus.l_w c))) in *.
    set (blk := Bonus.slot (w_osfs (after_turn (Bonus.write_body c))) idx) in *.
    pose proof (Z.mod_pos_bound (w_pos (Bonus.l_w c)) BLOCK_SIZE ltac:(unfold BLOCK_SIZE; lia)) as Hoff.
    pose proof (Z.mod_pos_bound p BLOCK_SIZE ltac:(unfold BLOCK_SIZE; lia)) as Hpm.
    assert (0 <= p / BLOCK_SIZE) as Hq by (apply Z.div_pos; unfold BLOCK_SIZE; lia).
    assert (in_block (Bonus.slot (w_osfs w0) (p / BLOCK_SIZE)) (byte_addr (w_osfs w0) p)) as Hmine
      by (unfold in_block, byte_addr; lia).
    assert (in_block blk (byte_addr (w_osfs w0) p)) as Hturn
      by (unfold in_block; destruct Hin as [(_ & _ & Hin)|Hin]; lia).
    pose proof (in_block_unique _ _ _ Hmine Hturn) as Hsame.
    pose proof (Hk _ Hq Hnz) as Hkc.
    destruct Hin as [(Hz & Hfree & _)|Hin].
    + (* the block of the turn was free, the block of [p] is in use *)
      assert (Bonus.slot (w_osfs (Bonus.l_w c)) (p / BLOCK_SIZE) <> 0) as Hnzc by congruence.
      destruct (Hbits _ _ (slot_lookup _ _ Hnzc) Hnzc) as (_ & Hused).
      rewrite Hkc, Hsame in Hused. congruence.
    + (* the turn copies into the block of [p]: [p] is in the request *)
      pose proof (extent_ok_after_turn c Hok) as (_ & _ & Hinj').
      assert (Bonus.slot (w_osfs (after_turn (Bonus.write_body c))) (p / BLOCK_SIZE) = blk) as Hpb.
      { rewrite write_turn_keeps_slots; auto; congruence. }
      assert (Z.to_nat (p / BLOCK_SIZE) = Z.to_nat idx) as Hij.
      { apply (Hinj' _ _ blk); [| |exact Hblk].
        - rewrite <- Hpb. apply slot_lookup. now rewrite Hpb.
        - now apply slot_lookup. }
      assert (idx = w_pos (Bonus.l_w c) / BLOCK_SIZE) as Hidx'
        by (apply blk_index_small; lia).
      pose proof (blk_index_range (w_pos (Bonus.l_w c))) as Hir. fold idx in Hir.
      assert (p / BLOCK_SIZE = idx) as Hpi by lia.
      unfold byte_addr in Hin. rewrite Hsame in Hin.
      pose proof (Z.div_mod p BLOCK_SIZE ltac:(unfold BLOCK_SIZE; lia)) as Hdp.
      pose proof (Z.div_mod (w_pos (Bonus.l_w c)) BLOCK_SIZE ltac:(unfold BLOCK_SIZE; lia)) as Hdc.
      rewrite Hpi in Hdp. rewrite <- Hidx' in Hdc. lia.
Qed.

Lemma two_block_file_extent_ok um pos : extent_ok (two_block_file um pos).
Proof.
  split; [reflexivity|]. split.
  - intros i b Hi Hb. do 5 (destruct i as [|i]; [injection Hi as <-; try contradiction;
      (split; [lia|reflexivity])|]). discriminate.
  - intros i j b Hi Hj Hb.
    do 5 (destruct i as [|i]; [injection Hi as <-; try contradiction;
      do 5 (destruct j as [|j]; [first [reflexivity|discriminate]|]); discriminate|]).
    discriminate.
Qed.

Lemma bonus_write_frame (w : Bonus.W) buf len :
  vfs_range (w_pos w) len ->
  w_pos w < 2 ^ 32 * BLOCK_SIZE ->
  extent_ok w ->
  exists r w', Bonus.osfs_write w buf len = Some (r, w') /\
    forall p, 0 <= p -> Bonus.slot (w_osfs w) (p / BLOCK_SIZE) <> 0 ->
      ~ (w_pos w <= p < w_pos w + len) ->
      byte_addr (w_osfs w') p = byte_addr (w_osfs w) p /\
      data_blocks (w_sb w') (byte_addr (w_osfs w') p)
      = data_blocks (w_sb w) (byte_addr (w_osfs w) p).
Proof.
  intros Hrb Hcap Hok.
  destruct (osfs_write_rule
              (fun c => extent_ok (Bonus.l_w c) /\ keeps_other_content w len (Bonus.l_w c) /\
                        w_pos (Bonus.l_w c) < 2 ^ 32 * BLOCK_SIZE /\
                        0 <= Bonus.l_bytes c /\
                        w_pos (Bonus.l_w c) = w_pos w + Bonus.l_bytes c /\
                        Bonus.l_bytes c + Bonus.l_len c = len)
              (fun '(_, w') => keeps_other_content w len w')
              w buf len) as ([r w'] & H & HQ).
  - cbn. split; [exact Hok|]. split; [split; auto|]. split; [exact Hcap|lia].
  - intros c (Hokc & Hkc & Hsmall & H1 & H2 & H3) Hg. unfold vfs_range in Hrb.
    pose proof (write_turn_keeps_other_content w len c Hokc Hkc
                  ltac:(lia) ltac:(lia) ltac:(lia) Hsmall Hg) as Hstep.
    pose proof (extent_ok_after_turn c Hokc) as Hok'.
    pose proof (write_turn_in_range c) as Hr.
    pose proof (write_turn_capacity c) as Hturn.
    destruct (Bonus.write_body c) as [c'|[r w']]; [|exact Hstep].
    split; [exact Hok'|]. split; [exact Hstep|].
    specialize (Hr c' ltac:(lia) H1 Hg ltac:(lia) ltac:(lia) eq_refl).
    destruct (Hturn c' ltac:(lia) H1 Hg Hsmall ltac:(lia) ltac:(lia) eq_refl) as (Hp' & _).
    split; [unfold MAX_BLOCKS_PER_FILE, BLOCK_SIZE in *; lia|lia].
  - intros c (_ & Hkc & _) _. exact Hkc.
  - exists r, w'. split; [exact H|]. destruct HQ as (Hk & Hd).
    intros p Hp Hnz Hout.
    assert (byte_addr (w_osfs w') p = byte_addr (w_osfs w) p) as Ea.
    { unfold byte_addr. rewrite Hk; [reflexivity| |exact Hnz].
      apply Z.div_pos; unfold BLOCK_SIZE; lia. }
    split; [exact Ea|]. rewrite Ea. now apply Hd.
Qed.

(** X5: a write of [len] bytes at the position [pos] leaves the bytes of the
    file at the positions outside [pos .. pos + len - 1] as they were,
    whatever it returns, a fault included. *)
Theorem write_keeps_other_content (wl : Lab4.W) (wb : Bonus.W) (buf len : Z) :
  vfs_range (w_pos wl) len ->
  Lab4.i_blocks (w_osfs wl) <> 0 ->
  vfs_range (w_pos wb) len ->
  w_pos wb < 2 ^ 32 * BLOCK_SIZE ->
  extent_ok wb ->
  (forall p, ~ (w_pos wl <= p < w_pos wl + len) ->
     data_blocks (w_sb (snd (Lab4.osfs_write wl buf len)))
       (Lab4.i_block (w_osfs wl) * BLOCK_SIZE + p)
     = data_blocks (w_sb wl) (Lab4.i_block (w_osfs wl) * BLOCK_SIZE + p)) /\
  (exists r w', Bonus.osfs_write wb buf len = Some (r, w') /\
     forall p, 0 <= p -> Bonus.slot (w_osfs wb) (p / BLOCK_SIZE) <> 0 ->
       ~ (w_pos wb <= p < w_pos wb + len) ->
       byte_addr (w_osfs w') p = byte_addr (w_osfs wb) p /\
       data_blocks (w_sb w') (byte_addr (w_osfs w') p)
       = data_blocks (w_sb wb) (byte_addr (w_osfs wb) p)).
Proof.
  intros Hrl Hhas Hrb Hcap Hok. split.
  - intros p Hout.
    destruct (lab4_write_data wl buf len (Lab4.i_block (w_osfs wl) * BLOCK_SIZE + p) Hrl)
      as (Hd & _). cbv zeta in Hd.
    destruct (Hd Hhas) as (_ & _ & _ & [E|Hin]); [exact E|]. exfalso. lia.
  - now apply bonus_write_frame.
Qed.

Lemma write_keeps_other_content_witness :
  exists r w',
    Bonus.osfs_write (two_block_file (flat_user 0 64 Byte.x42) 4090) 0 10 = Some (r, w') /\
    data_blocks (w_sb w') (byte_addr (w_osfs w') 4089) = Byte.x41.
Proof.
  destruct (write_keeps_other_content
              (one_block_file (flat_user 0 64 Byte.x42) 0)
              (two_block_file (flat_user 0 64 Byte.x42) 4090) 0 10)
    as (_ & r & w' & H & Hd).
  - unfold vfs_range. cbn. lia.
  - cbn. lia.
  - unfold vfs_range. cbn. lia.
  - cbn. unfold BLOCK_SIZE. lia.
  - apply two_block_file_extent_ok.
  - exists r, w'. split; [exact H|].
    destruct (Hd 4089) as (_ & ->); [lia|vm_compute; discriminate|cbn; lia|reflexivity].
Defined.

(** ** What a read returns *)

Lemma read_len_available (w : Bonus.W) len :
  vfs_range (w_pos w) len -> w_pos w < Bonus.i_size (w_osfs w) ->
  read_len w len = available (Bonus.i_size (w_osfs w)) (w_pos w) len /\
  read_len w (available (Bonus.i_size (w_osfs w)) (w_pos w) len)
  = available (Bonus.i_size (w_osfs w)) (w_pos w) len.
Proof.
  intros (Hp & Hl & Hs) Hlt. unfold read_len, available.
  rewrite (u64_small (w_pos w + len)) by lia.
  rewrite (u64_small (w_pos w + Z.max 0 (Z.min len (Bonus.i_size (w_osfs w) - w_pos w)))) by lia.
  destruct (Z.gtb_spec (w_pos w + len) (Bonus.i_size (w_osfs w)));
    destruct (Z.gtb_spec (w_pos w + Z.max 0 (Z.min len (Bonus.i_size (w_osfs w) - w_pos w)))
                (Bonus.i_size (w_osfs w))); try rewrite u64_small by lia; lia.
Qed.

Lemma bonus_read_clamp (w : Bonus.W) buf len :
  vfs_range (w_pos w) len ->
  Bonus.osfs_read w buf len
  = Bonus.osfs_read w buf (available (Bonus.i_size (w_osfs w)) (w_pos w) len).
Proof.
  intros Hr. unfold Bonus.osfs_read.
  destruct (Z.geb_spec (w_pos w) (Bonus.i_size (w_osfs w))) as [Hge|Hlt]; [reflexivity|].
  destruct (read_len_available w len Hr Hlt) as (E1 & E2). unfold read_len in E1, E2.
  cbv zeta. rewrite E1, E2. reflexivity.
Qed.

Lemma lab4_read_clamp (w : Lab4.W) buf len :
  vfs_range (w_pos w) len ->
  Lab4.osfs_read w buf len
  = Lab4.osfs_read w buf (available (Lab4.i_size (w_osfs w)) (w_pos w) len).
Proof.
  intros (Hp & Hl & Hs). unfold Lab4.osfs_read.
  destruct (Lab4.i_blocks (w_osfs w) =? 0); [reflexivity|].
  destruct (Z.geb_spec (w_pos w) (Lab4.i_size (w_osfs w))) as [Hge|Hlt]; [reflexivity|].
  assert ((if u64 (w_pos w + len) >? Lab4.i_size (w_osfs w)
           then u64 (Lab4.i_size (w_osfs w) - w_pos w) else len)
          = available (Lab4.i_size (w_osfs w)) (w_pos w) len) as E1.
  { unfold available. rewrite (u64_small (w_pos w + len)) by lia.
    destruct (Z.gtb_spec (w_pos w + len) (Lab4.i_size (w_osfs w)));
      try rewrite u64_small by lia; lia. }
  assert ((if u64 (w_pos w + available (Lab4.i_size (w_osfs w)) (w_pos w) len)
              >? Lab4.i_size (w_osfs w)
           then u64 (Lab4.i_size (w_osfs w) - w_pos w)
           else available (Lab4.i_size (w_osfs w)) (w_pos w) len)
          = available (Lab4.i_size (w_osfs w)) (w_pos w) len) as E2.
  { unfold available.
    rewrite (u64_small (w_pos w + Z.max 0 (Z.min len (Lab4.i_size (w_osfs w) - w_pos w)))) by lia.
    destruct (Z.gtb_spec (w_pos w + Z.max 0 (Z.min len (Lab4.i_size (w_osfs w) - w_pos w)))
                (Lab4.i_size (w_osfs w))); try rewrite u64_small by lia; lia. }
  cbv zeta. rewrite E1, E2. reflexivity.
Qed.

(** X6: a read that asks for more than the file holds from the position on is
    the read of what the file holds: the same result, the same world. *)
Theorem read_is_clamped (wl : Lab4.W) (wb : Bonus.W) (buf len : Z) :
  vfs_range (w_pos wl) len ->
  vfs_range (w_pos wb) len ->
  Lab4.osfs_read wl buf len
  = Lab4.osfs_read wl buf (available (Lab4.i_size (w_osfs wl)) (w_pos wl) len) /\
  Bonus.osfs_read wb buf len
  = Bonus.osfs_read wb buf (available (Bonus.i_size (w_osfs wb)) (w_pos wb) len).
Proof.
  intros Hl Hb. split; [now apply lab4_read_clamp|now apply bonus_read_clamp].
Qed.

Lemma read_is_clamped_witness :
  Bonus.osfs_read (two_block_file (flat_user 0 64 Byte.x42) 8190) 0 10
  = Bonus.osfs_read (two_block_file (flat_user 0 64 Byte.x42) 8190) 0
      (available 8192 8190 10).
Proof.
  apply (read_is_clamped (one_block_file (flat_user 0 64 Byte.x42) 98)
           (two_block_file (flat_user 0 64 Byte.x42) 8190) 0 10);
    unfold vfs_range; cbn; lia.
Defined.

(** One turn of the read loop: how far it moves, and which bytes of user
    space it may change. *)
Lemma read_body_effect c :
  let w := Bonus.l_w c in
  0 <= w_pos w -> 0 <= Bonus.l_bytes c -> Bonus.loop_guard c = true ->
  w_pos w + Bonus.l_len c < 2 ^ 63 -> Bonus.l_bytes c + Bonus.l_len c < 2 ^ 63 ->
  match Bonus.read_body c with
  | inl c' =>
      exists n, 1 <= n <= Bonus.l_len c /\
        w_pos (Bonus.l_w c') = w_pos w + n /\
        Bonus.l_len c' = Bonus.l_len c - n /\
        Bonus.l_bytes c' = Bonus.l_bytes c + n /\
        Bonus.l_buf c' = Bonus.l_buf c + n /\
        u_ok (w_user (Bonus.l_w c')) = u_ok (w_user w) /\
        (forall a, ~ (Bonus.l_buf c <= a < Bonus.l_buf c + n) ->
           u_byte (w_user (Bonus.l_w c')) a = u_byte (w_user w) a)
  | inr (r, w') =>
      r = - EFAULT /\ w_pos w' = w_pos w /\
      u_ok (w_user w') = u_ok (w_user w) /\
      (forall a, ~ (Bonus.l_buf c <= a < Bonus.l_buf c + Bonus.l_len c) ->
         u_byte (w_user w') a = u_byte (w_user w) a)
  end.
Proof.
  intros w Hp Hb Hg Hs1 Hs2. subst w. unfold Bonus.loop_guard in Hg. apply Z.gtb_lt in Hg.
  pose proof (seg_len_bounds (w_pos (Bonus.l_w c)) (Bonus.l_len c) Hg) as Hn.
  unfold Bonus.read_body, copy_to_user.
  set (n := Bonus.seg_len (w_pos (Bonus.l_w c)) (Bonus.l_len c)) in *.
  set (bs := load_bytes _ _ (Z.to_nat n)).
  assert (length bs = Z.to_nat n) as Hbs by apply length_load_bytes.
  set (k := accessible_prefix _ _ _).
  assert (forall a m, ~ (Bonus.l_buf c <= a < Bonus.l_buf c + n) ->
            store_bytes m (Bonus.l_buf c) (firstn k bs) a = m a) as Hout.
  { intros a m Ha. apply store_bytes_out. rewrite length_take. lia. }
  destruct (_ =? 0).
  - exists n. cbn. rewrite s64_small, s64_small, u64_small by lia.
    repeat (split; [lia || reflexivity|]). intros a Ha. now apply Hout.
  - cbn. repeat (split; [reflexivity|]). intros a Ha. apply Hout. lia.
Qed.

Lemma bonus_read_effect (w : Bonus.W) buf len :
  vfs_range (w_pos w) len ->
  let k := available (Bonus.i_size (w_osfs w)) (w_pos w) len in
  exists r w', Bonus.osfs_read w buf len = Some (r, w') /\
    ((r = - EFAULT /\ w_pos w <= w_pos w' < w_pos w + k) \/
     (r = k /\ w_pos w' = w_pos w + k)) /\
    u_ok (w_user w') = u_ok (w_user w) /\
    (forall a, ~ (buf <= a < buf + k) -> u_byte (w_user w') a = u_byte (w_user w) a).
Proof.
  intros Hr k. pose proof Hr as (Hp & Hl & Hs).
  assert (0 <= k <= len) as Hk by (unfold k, available; lia).
  destruct (osfs_read_rule
              (fun c => 0 <= Bonus.l_bytes c /\ 0 <= Bonus.l_len c /\
                        Bonus.l_bytes c + Bonus.l_len c = k /\
                        w_pos (Bonus.l_w c) = w_pos w + Bonus.l_bytes c /\
                        Bonus.l_buf c = buf + Bonus.l_bytes c /\
                        u_ok (w_user (Bonus.l_w c)) = u_ok (w_user w) /\
                        (forall a, ~ (buf <= a < buf + k) ->
                           u_byte (w_user (Bonus.l_w c)) a = u_byte (w_user w) a))
              (fun '(r, w') =>
                 ((r = - EFAULT /\ w_pos w <= w_pos w' < w_pos w + k) \/
                  (r = k /\ w_pos w' = w_pos w + k)) /\
                 u_ok (w_user w') = u_ok (w_user w) /\
                 (forall a, ~ (buf <= a < buf + k) -> u_byte (w_user w') a = u_byte (w_user w) a))
              w buf len) as ([r w'] & H & HQ).
  - intros Hge. split; [right; unfold k, available; lia|]. split; auto.
  - intros Hlt. destruct (read_len_available w len Hr Hlt) as (-> & _). fold k. cbn.
    repeat (split; [lia || reflexivity|]). auto.
  - intros c (H1 & H2 & H3 & H4 & H5 & H6 & H7) Hg.
    pose proof (read_body_effect c ltac:(lia) H1 Hg ltac:(lia) ltac:(lia)) as Hstep.
    cbv zeta in Hstep.
    destruct (Bonus.read_body c) as [c'|[r w']].
    + destruct Hstep as (n & Hn & E1 & E2 & E3 & E4 & E5 & E6).
      repeat (split; [lia || congruence|]).
      intros a Ha. rewrite E6 by lia. now apply H7.
    + destruct Hstep as (-> & E1 & E2 & E3). unfold Bonus.loop_guard in Hg.
      split; [left; split; [reflexivity|lia]|]. split; [congruence|].
      intros a Ha. rewrite E3 by lia. now apply H7.
  - intros c (H1 & H2 & H3 & H4 & H5 & H6 & H7) Hg. unfold Bonus.loop_guard in Hg.
    split; [right; lia|]. split; assumption.
  - exists r, w'. split; [exact H|exact HQ].
Qed.

Lemma lab4_read_effect (w : Lab4.W) buf len :
  vfs_range (w_pos w) len ->
  let k := if Lab4.i_blocks (w_osfs w) =? 0 then 0
           else available (Lab4.i_size (w_osfs w)) (w_pos w) len in
  let r := fst (Lab4.osfs_read w buf len) in
  let w' := snd (Lab4.osfs_read w buf len) in
  ((r = - EFAULT /\ w_pos w' = w_pos w) \/ (r = k /\ w_pos w' = w_pos w + k)) /\
  u_ok (w_user w') = u_ok (w_user w) /\
  (forall a, ~ (buf <= a < buf + k) -> u_byte (w_user w') a = u_byte (w_user w) a).
Proof.
  intros Hr. rewrite (lab4_read_clamp w buf len Hr). destruct Hr as (Hp & Hl & Hs).
  assert (0 <= available (Lab4.i_size (w_osfs w)) (w_pos w) len <= len) as Hk
    by (unfold available; lia).
  unfold Lab4.osfs_read.
  destruct (Lab4.i_blocks (w_osfs w) =? 0); [cbn; split; [right; lia|auto]|].
  destruct (Z.geb_spec (w_pos w) (Lab4.i_size (w_osfs w))) as [Hge|Hlt].
  { cbn. split; [right; unfold available; lia|auto]. }
  assert ((if u64 (w_pos w + available (Lab4.i_size (w_osfs w)) (w_pos w) len)
              >? Lab4.i_size (w_osfs w)
           then u64 (Lab4.i_size (w_osfs w) - w_pos w)
           else available (Lab4.i_size (w_osfs w)) (w_pos w) len)
          = available (Lab4.i_size (w_osfs w)) (w_pos w) len) as ->.
  { unfold available.
    rewrite (u64_small (w_pos w + Z.max 0 (Z.min len (Lab4.i_size (w_osfs w) - w_pos w)))) by lia.
    destruct (Z.gtb_spec (w_pos w + Z.max 0 (Z.min len (Lab4.i_size (w_osfs w) - w_pos w)))
                (Lab4.i_size (w_osfs w))); try rewrite u64_small by lia; lia. }
  set (k := available _ _ _) in *. unfold copy_to_user.
  set (bs := load_bytes _ _ (Z.to_nat k)).
  assert (length bs = Z.to_nat k) as Hbs by apply length_load_bytes.
  set (n := accessible_prefix _ _ _).
  assert (forall a m, ~ (buf <= a < buf + k) -> store_bytes m buf (firstn n bs) a = m a) as Hout.
  { intros a m Ha. apply store_bytes_out. rewrite length_take. lia. }
  cbv zeta. destruct (_ =? 0); cbn.
  - rewrite !s64_small by lia. split; [right; split; reflexivity|]. split; [reflexivity|].
    intros a Ha. now apply Hout.
  - split; [left; split; reflexivity|]. split; [reflexivity|]. intros a Ha. now apply Hout.
Qed.

(** X7: a read returns [-EFAULT] or the number of bytes the file holds from
    the position on, at most [len]; in the second case the position moves
    on by this number.  A read of the single-block variant that fails
    leaves the position alone, a read of the multi-block variant that fails
    has moved it over the blocks it could copy. *)
Theorem read_returns_available (wl : Lab4.W) (wb : Bonus.W) (buf len : Z) :
  vfs_range (w_pos wl) len ->
  vfs_range (w_pos wb) len ->
  ((fst (Lab4.osfs_read wl buf len) = - EFAULT /\
    w_pos (snd (Lab4.osfs_read wl buf len)) = w_pos wl) \/
   (fst (Lab4.osfs_read wl buf len)
    = (if Lab4.i_blocks (w_osfs wl) =? 0 then 0
       else available (Lab4.i_size (w_osfs wl)) (w_pos wl) len) /\
    w_pos (snd (Lab4.osfs_read wl buf len))
    = w_pos wl + fst (Lab4.osfs_read wl buf len))) /\
  (exists r w', Bonus.osfs_read wb buf len = Some (r, w') /\
     ((r = - EFAULT /\
       w_pos wb <= w_pos w' < w_pos wb + available (Bonus.i_size (w_osfs wb)) (w_pos wb) len) \/
      (r = available (Bonus.i_size (w_osfs wb)) (w_pos wb) len /\
       w_pos w' = w_pos wb + r))).
Proof.
  intros Hl Hb. split.
  - destruct (lab4_read_effect wl buf len Hl) as ([H|(H1 & H2)] & _); cbv zeta in *;
      [left; exact H|right]. split; [exact H1|]. now rewrite H1.
  - destruct (bonus_read_effect wb buf len Hb) as (r & w' & H & [Hf|(H1 & H2)] & _);
      exists r, w'; (split; [exact H|]); [left; exact Hf|right].
    split; [exact H1|]. now rewrite H1.
Qed.

Lemma read_returns_available_witness :
  exists r w',
    Bonus.osfs_read (two_block_file (flat_user 0 64 Byte.x42) 8190) 0 10 = Some (r, w') /\
    r = 2 /\ w_pos w' = 8192.
Proof.
  destruct (read_returns_available (one_block_file (flat_user 0 64 Byte.x42) 98)
              (two_block_file (flat_user 0 64 Byte.x42) 8190) 0 10)
    as (_ & r & w' & H & Hr).
  - unfold vfs_range. cbn. lia.
  - unfold vfs_range. cbn. lia.
  - exists r, w'. split; [exact H|].
    pose proof (f_equal (option_map fst) H) as Hv. vm_compute in Hv. injection Hv as Hv.
    destruct Hr as [(E & _)|(E & Hp)].
    + exfalso. rewrite E in Hv. vm_compute in Hv. discriminate.
    + split; [now symmetry|]. rewrite Hp, <- Hv. reflexivity.
Defined.

(** X8: a read changes user space only within the buffer, and there only
    within the bytes the file can deliver; it makes no address accessible
    or inaccessible.  This holds whatever the read returns. *)
Theorem read_writes_only_the_buffer (wl : Lab4.W) (wb : Bonus.W) (buf len : Z) :
  vfs_range (w_pos wl) len ->
  vfs_range (w_pos wb) len ->
  (u_ok (w_user (snd (Lab4.osfs_read wl buf len))) = u_ok (w_user wl) /\
   forall a, ~ (buf <= a < buf + available (Lab4.i_size (w_osfs wl)) (w_pos wl) len) ->
     u_byte (w_user (snd (Lab4.osfs_read wl buf len))) a = u_byte (w_user wl) a) /\
  (exists r w', Bonus.osfs_read wb buf len = Some (r, w') /\
     u_ok (w_user w') = u_ok (w_user wb) /\
     forall a, ~ (buf <= a < buf + available (Bonus.i_size (w_osfs wb)) (w_pos wb) len) ->
       u_byte (w_user w') a = u_byte (w_user wb) a).
Proof.
  intros Hl Hb. split.
  - destruct (lab4_read_effect wl buf len Hl) as (_ & Hok & Hby). cbv zeta in *.
    split; [exact Hok|]. intros a Ha. apply Hby.
    destruct (Lab4.i_blocks (w_osfs wl) =? 0); [|exact Ha].
    unfold available in Ha. lia.
  - destruct (bonus_read_effect wb buf len Hb) as (r & w' & H & _ & Hok & Hby).
    exists r, w'. auto.
Qed.

Lemma read_writes_only_the_buffer_witness :
  exists r w',
    Bonus.osfs_read (two_block_file (striped_user 0 64) 8190) 0 10 = Some (r, w') /\
    u_byte (w_user w') 2 = Byte.x41.
Proof.
  destruct (read_writes_only_the_buffer (one_block_file (striped_user 0 64) 98)
              (two_block_file (striped_user 0 64) 8190) 0 10)
    as (_ & r & w' & H & _ & Hby).
  - unfold vfs_range. cbn. lia.
  - unfold vfs_range. cbn. lia.
  - exists r, w'. split; [exact H|]. rewrite Hby; [reflexivity|]. vm_compute. intros [_ Hc].
    discriminate Hc.
Defined.

(** X9: a read into an accessible buffer delivers the bytes of the file from
    the position on, as many as the file holds and at most [len], and
    moves the position behind them.  In the multi-block variant the block
    numbers are such that the unsigned product [phy_block_no * BLOCK_SIZE]
    of the read loop does not wrap. *)
Theorem read_delivers_content (wl : Lab4.W) (wb : Bonus.W) (buf len : Z) :
  vfs_range (w_pos wl) len ->
  Lab4.i_blocks (w_osfs wl) <> 0 ->
  Lab4.i_size (w_osfs wl) <= BLOCK_SIZE ->
  user_ok (w_user wl) buf (available (Lab4.i_size (w_osfs wl)) (w_pos wl) len) = true ->
  vfs_range (w_pos wb) len ->
  Bonus.i_size (w_osfs wb) <= MAX_BLOCKS_PER_FILE * BLOCK_SIZE ->
  blocks_addressable (w_osfs wb) ->
  user_ok (w_user wb) buf (available (Bonus.i_size (w_osfs wb)) (w_pos wb) len) = true ->
  (fst (Lab4.osfs_read wl buf len) = available (Lab4.i_size (w_osfs wl)) (w_pos wl) len /\
   w_pos (snd (Lab4.osfs_read wl buf len))
   = w_pos wl + available (Lab4.i_size (w_osfs wl)) (w_pos wl) len /\
   forall j, 0 <= j < available (Lab4.i_size (w_osfs wl)) (w_pos wl) len ->
     u_byte (w_user (snd (Lab4.osfs_read wl buf len))) (buf + j)
     = data_blocks (w_sb wl) (Lab4.i_block (w_osfs wl) * BLOCK_SIZE + w_pos wl + j)) /\
  (exists w',
     Bonus.osfs_read wb buf len
     = Some (available (Bonus.i_size (w_osfs wb)) (w_pos wb) len, w') /\
     w_pos w' = w_pos wb + available (Bonus.i_size (w_osfs wb)) (w_pos wb) len /\
     forall j, 0 <= j < available (Bonus.i_size (w_osfs wb)) (w_pos wb) len ->
       u_byte (w_user w') (buf + j)
       = data_blocks (w_sb wb) (byte_addr (w_osfs wb) (w_pos wb + j))).
Proof.
  intros Hrl Hhas Hszl Hokl Hrb Hszb Haddr Hokb. split.
  - destruct (lab4_read_effect wl buf len Hrl) as (Hres & _). cbv zeta in Hres.
    destruct (Z.eqb_spec (Lab4.i_blocks (w_osfs wl)) 0) as [|_]; [contradiction|].
    rewrite (lab4_read_clamp wl buf len Hrl) in *.
    set (k := available (Lab4.i_size (w_osfs wl)) (w_pos wl) len) in *.
    assert (0 <= k /\ (0 < k -> w_pos wl + k <= Lab4.i_size (w_osfs wl))) as (Hk & Hin)
      by (unfold k, available; lia).
    destruct (Z_lt_le_dec (w_pos wl) (Lab4.i_size (w_osfs wl))) as [Hlt|Hge].
    + destruct (lab4_read_content wl buf k) as (Hr & Hby);
        [unfold vfs_range in Hrl; lia|exact Hk|unfold k, available; lia|exact Hhas|exact Hin
        |exact Hokl|].
      split; [exact Hr|]. split; [|exact Hby].
      destruct Hres as [(E & _)|(_ & E)]; [|exact E].
      rewrite Hr in E. unfold EFAULT in E. lia.
    + assert (k = 0) as Hk0 by (unfold k, available; lia).
      unfold Lab4.osfs_read. destruct (Lab4.i_blocks (w_osfs wl) =? 0); [cbn; split; [|split]; lia|].
      destruct (Z.geb_spec (w_pos wl) (Lab4.i_size (w_osfs wl))) as [_|Hlt]; [|lia].
      cbn. split; [lia|]. split; [lia|]. intros j Hj. lia.
  - destruct (bonus_read_effect wb buf len Hrb) as (r & w' & H & Hres & _). cbv zeta in Hres.
    set (k := available (Bonus.i_size (w_osfs wb)) (w_pos wb) len) in *.
    assert (0 <= k /\ (0 < k -> w_pos wb + k <= Bonus.i_size (w_osfs wb))) as (Hk & Hin)
      by (unfold k, available; lia).
    destruct (Z_lt_le_dec (w_pos wb) (Bonus.i_size (w_osfs wb))) as [Hlt|Hge].
    + destruct (osfs_read_content wb buf k) as (w2 & H2 & Hby);
        [unfold vfs_range in Hrb; lia|exact Hk|unfold k, available; lia|exact Hin|exact Hokb|].
      rewrite (bonus_read_clamp wb buf len Hrb) in H. fold k in H.
      rewrite H2 in H. injection H as <- <-.
      exists w2. rewrite (bonus_read_clamp wb buf len Hrb). fold k.
      split; [exact H2|]. split.
      * destruct Hres as [(E & _)|(_ & E)]; [unfold EFAULT in E; lia|exact E].
      * intros j Hj. rewrite (Hby j Hj). unfold byte_addr.
        now rewrite read_addr_small by apply Haddr.
    + assert (k = 0) as Hk0 by (unfold k, available; lia).
      exists wb. unfold Bonus.osfs_read.
      destruct (Z.geb_spec (w_pos wb) (Bonus.i_size (w_osfs wb))) as [_|Hlt]; [|lia].
      rewrite Hk0. split; [reflexivity|]. split; [lia|]. intros j Hj. lia.
Qed.

Lemma read_delivers_content_witness :
  exists w',
    Bonus.osfs_read (two_block_file (flat_user 0 64 Byte.x42) 8190) 0 10 = Some (2, w') /\
    u_byte (w_user w') 1 = Byte.x41.
Proof.
  destruct (read_delivers_content (one_block_file (flat_user 0 64 Byte.x42) 98)
              (two_block_file (flat_user 0 64 Byte.x42) 8190) 0 10)
    as (_ & w' & H & _ & Hby).
  - unfold vfs_range. cbn. lia.
  - cbn. lia.
  - cbn. unfold BLOCK_SIZE. lia.
  - vm_compute. reflexivity.
  - unfold vfs_range. cbn. lia.
  - cbn. unfold MAX_BLOCKS_PER_FILE, BLOCK_SIZE. lia.
  - apply (extent_ok_addressable (two_block_file (flat_user 0 64 Byte.x42) 8190)).
    + apply two_block_file_extent_ok.
    + vm_compute. discriminate.
  - vm_compute. reflexivity.
  - exists w'. split; [exact H|]. refine (Hby 1 _). vm_compute. split; congruence.
Defined.

(** ** What a write returns and where it leaves the position *)

Lemma write_body_progress w len c :
  0 <= w_pos w -> w_pos w + len < 2 ^ 63 ->
  write_progress w len c -> Bonus.loop_guard c = true ->
  match Bonus.write_body c with
  | inl c' => write_progress w len c'
  | inr (r, w') =>
      (r = - EFAULT \/ (0 < Bonus.l_bytes c /\ r = Bonus.l_bytes c)
       \/ (Bonus.l_bytes c = 0 /\ r = - ENOSPC)) /\
      w_pos w' = w_pos (Bonus.l_w c) /\
      Bonus.i_size (w_osfs w') = Bonus.i_size (w_osfs (Bonus.l_w c)) /\
      w_user w' = w_user w
  end.
Proof.
  intros Hp Hpl (Hb & Hlen & Hsum & Hpos & Hsz & Hc & Hu & Ht & evs & Hlog & Hev) Hg.
  pose proof (write_body_effect c ltac:(lia) Hb Hg ltac:(lia) ltac:(lia)) as He.
  destruct (Bonus.write_body c) as [c'|[r w']].
  - destruct He as (n & Hn & E1 & E2 & E3 & E4 & E5 & E6 & E7 & E8 & evs' & E9 & Hev').
    unfold write_progress. rewrite E1, E2, E3, E5, E6, E7, Hpos, Hsz, Hc, Hu.
    split; [lia|]. split; [lia|]. split; [lia|]. split; [lia|].
    split. { destruct (Z.gtb_spec (Bonus.l_bytes c) 0), (Z.gtb_spec (Bonus.l_bytes c + n) 0); lia. }
    split; [reflexivity|]. split; [reflexivity|].
    split. { destruct E8 as (? & ? & ?), Ht as (? & ? & ?). split; [|split]; congruence. }
    exists (evs ++ evs'). split; [now rewrite E9, Hlog, app_assoc|].
    apply Forall_app. split; assumption.
  - destruct He as (Hr & E1 & E2 & _ & E4 & _). split; [exact Hr|]. split; [exact E1|].
    split; [exact E2|congruence].
Qed.

Lemma bonus_write_account (w : Bonus.W) buf len :
  vfs_range (w_pos w) len ->
  exists r w', Bonus.osfs_write w buf len = Some (r, w') /\
    w_user w' = w_user w /\
    ((0 <= r <= len /\ (r < len -> 0 < r) /\ w_pos w' = w_pos w + r) \/
     (r = - ENOSPC /\ w_pos w' = w_pos w /\ Bonus.i_size (w_osfs w') = Bonus.i_size (w_osfs w)) \/
     (r = - EFAULT /\ w_pos w <= w_pos w' < w_pos w + len /\
      Bonus.i_size (w_osfs w')
      = if w_pos w' >? w_pos w then Z.max (Bonus.i_size (w_osfs w)) (w_pos w')
        else Bonus.i_size (w_osfs w))).
Proof.
  intros (Hp & Hl & Hpl).
  destruct (osfs_write_rule (write_progress w len)
              (fun '(r, w') =>
                 w_user w' = w_user w /\
                 ((0 <= r <= len /\ (r < len -> 0 < r) /\ w_pos w' = w_pos w + r) \/
                  (r = - ENOSPC /\ w_pos w' = w_pos w /\
                   Bonus.i_size (w_osfs w') = Bonus.i_size (w_osfs w)) \/
                  (r = - EFAULT /\ w_pos w <= w_pos w' < w_pos w + len /\
                   Bonus.i_size (w_osfs w')
                   = if w_pos w' >? w_pos w then Z.max (Bonus.i_size (w_osfs w)) (w_pos w')
                     else Bonus.i_size (w_osfs w))))
              w buf len) as ([r w'] & H & HQ).
  - unfold write_progress. cbn. repeat (split; [lia || reflexivity|]).
    split; [apply same_times_refl|]. exists []. split; [now rewrite app_nil_r|constructor].
  - intros c Hc Hg.
    pose proof (write_body_progress w len c Hp Hpl Hc Hg) as Hstep.
    destruct (Bonus.write_body c) as [c'|[r w']]; [exact Hstep|].
    destruct Hc as (Hb & Hlen & Hsum & Hpos & Hsz & _).
    destruct Hstep as (Hr & E1 & E2 & E3).
    unfold Bonus.loop_guard in Hg. apply Z.gtb_lt in Hg.
    split; [exact E3|]. rewrite E1, E2, Hpos, Hsz.
    destruct Hr as [->|[(Hpos' & ->)|(Hz & ->)]].
    + right. right. split; [reflexivity|]. split; [lia|].
      destruct (Z.gtb_spec (Bonus.l_bytes c) 0), (Z.gtb_spec (w_pos w + Bonus.l_bytes c) (w_pos w));
        try lia; reflexivity.
    + left. split; [lia|]. split; [lia|reflexivity].
    + right. left. split; [reflexivity|]. split; [lia|].
      destruct (Z.gtb_spec (Bonus.l_bytes c) 0); [lia|reflexivity].
  - intros c (Hb & Hlen & Hsum & Hpos & Hsz & Hc & Hu & _) Hg.
    unfold Bonus.loop_guard in Hg.
    assert (Bonus.l_len c = 0) as H0 by (destruct (Z.gtb_spec (Bonus.l_len c) 0); [discriminate|lia]).
    destruct (touch_effect (Bonus.l_w c)) as (_ & _ & _ & _ & _ & T6 & _ & T8).
    rewrite T6, T8. split; [exact Hu|]. left. split; [lia|]. split; [lia|exact Hpos].
  - exists r, w'. split; [exact H|exact HQ].
Qed.

Lemma lab4_write_account (w : Lab4.W) buf len :
  vfs_range (w_pos w) len ->
  w_user (snd (Lab4.osfs_write w buf len)) = w_user w /\
  (fst (Lab4.osfs_write w buf len) < 0 ->
   fst (Lab4.osfs_write w buf len) = - ENOSPC \/ fst (Lab4.osfs_write w buf len) = - EFAULT).
Proof.
  intros (Hp & Hl & Hs).
  assert (forall w1 : Lab4.W, w_pos w1 = w_pos w ->
            w_user (snd (Lab4.write_steps_3_to_6 w1 buf len)) = w_user w1 /\
            (fst (Lab4.write_steps_3_to_6 w1 buf len) < 0 ->
             fst (Lab4.write_steps_3_to_6 w1 buf len) = - ENOSPC \/
             fst (Lab4.write_steps_3_to_6 w1 buf len) = - EFAULT)) as Hsteps.
  { intros w1 Hw1. unfold Lab4.write_steps_3_to_6. rewrite Hw1.
    destruct (Z.geb_spec (w_pos w) BLOCK_SIZE); [cbn; auto|].
    assert (0 <= (if u64 (w_pos w + len) >? BLOCK_SIZE then u64 (BLOCK_SIZE - w_pos w) else len)
            < 2 ^ 63) as Hn.
    { destruct (_ >? _); [rewrite u64_small|]; unfold BLOCK_SIZE in *; lia. }
    revert Hn.
    generalize (if u64 (w_pos w + len) >? BLOCK_SIZE then u64 (BLOCK_SIZE - w_pos w) else len).
    intros n Hn. destruct (copy_from_user _ _ _) as [uncopied bs].
    destruct (uncopied =? 0); cbv zeta; [|cbn; auto].
    cbn [fst snd]. rewrite (s64_small n) by lia.
    split; [|lia]. destruct (_ >? _); reflexivity. }
  unfold Lab4.osfs_write.
  destruct (Lab4.i_blocks (w_osfs w) =? 0); [|now apply Hsteps].
  destruct (alloc_cases (w_sb w)) as [(i & -> & _)| ->]; cbn [Z.eqb].
  - match goal with |- context [Lab4.write_steps_3_to_6 ?x buf len] =>
      destruct (Hsteps x eq_refl) as (Hu & He) end.
    split; [now rewrite Hu|exact He].
  - cbn. auto.
Qed.

(** X10: a write returns the number of bytes it stored, [-ENOSPC] or [-EFAULT],
    and it never changes user space.  When it returns a count, the
    position has moved on by this count, and a count below [len] is not 0;
    when it returns [-ENOSPC], position and size are as before.  When a
    write of the single-block variant returns [-EFAULT], position and size
    are as before too; a write of the multi-block variant that returns
    [-EFAULT] has moved the position over the blocks it had stored, and
    the size has followed the position. *)
Theorem write_moves_position (wl : Lab4.W) (wb : Bonus.W) (buf len : Z) :
  vfs_range (w_pos wl) len ->
  vfs_range (w_pos wb) len ->
  (w_user (snd (Lab4.osfs_write wl buf len)) = w_user wl /\
   ((0 <= fst (Lab4.osfs_write wl buf len) <= len /\
     w_pos (snd (Lab4.osfs_write wl buf len)) = w_pos wl + fst (Lab4.osfs_write wl buf len)) \/
    ((fst (Lab4.osfs_write wl buf len) = - ENOSPC \/
      fst (Lab4.osfs_write wl buf len) = - EFAULT) /\
     w_pos (snd (Lab4.osfs_write wl buf len)) = w_pos wl /\
     Lab4.i_size (w_osfs (snd (Lab4.osfs_write wl buf len))) = Lab4.i_size (w_osfs wl)))) /\
  (exists r w', Bonus.osfs_write wb buf len = Some (r, w') /\
     w_user w' = w_user wb /\
     ((0 <= r <= len /\ (r < len -> 0 < r) /\ w_pos w' = w_pos wb + r) \/
      (r = - ENOSPC /\ w_pos w' = w_pos wb /\
       Bonus.i_size (w_osfs w') = Bonus.i_size (w_osfs wb)) \/
      (r = - EFAULT /\ w_pos wb <= w_pos w' < w_pos wb + len /\
       Bonus.i_size (w_osfs w')
       = if w_pos w' >? w_pos wb then Z.max (Bonus.i_size (w_osfs wb)) (w_pos w')
         else Bonus.i_size (w_osfs wb)))).
Proof.
  intros Hl Hb. split.
  - destruct (lab4_write_account wl buf len Hl) as (Hu & Herr). split; [exact Hu|].
    destruct (lab4_write_effect wl buf len Hl) as [(Hneg & Hsz & Hpos & _)|(Hr & _ & Hpos & _)];
      cbv zeta in *.
    + right. split; [now apply Herr|]. split; assumption.
    + left. split; assumption.
  - now apply bonus_write_account.
Qed.

Lemma write_moves_position_witness :
  exists r w',
    Bonus.osfs_write (bonus_fresh (fresh_sb 8 Byte.xff) (flat_user 0 6 Byte.x41) 4090) 0 10
    = Some (r, w') /\
    r = - EFAULT /\ w_pos w' = 4096 /\ Bonus.i_size (w_osfs w') = 4096.
Proof.
  destruct (write_moves_position
              (lab4_fresh (fresh_sb 8 Byte.xff) (flat_user 0 6 Byte.x41) 4090)
              (bonus_fresh (fresh_sb 8 Byte.xff) (flat_user 0 6 Byte.x41) 4090) 0 10)
    as (_ & r & w' & H & _ & Hres).
  - unfold vfs_range. cbn. lia.
  - unfold vfs_range. cbn. lia.
  - exists r, w'. split; [exact H|].
    pose proof (f_equal (option_map fst) H) as Hv. vm_compute in Hv. injection Hv as Hv.
    pose proof (f_equal (option_map (fun rw => w_pos (snd rw))) H) as Hq.
    vm_compute in Hq. injection Hq as Hq.
    assert (w_pos w' = 4096) as Hq' by (symmetry; exact Hq).
    destruct Hres as [(Hr & _)|[(Hr & _)|(Hr & _ & Hsz)]].
    + exfalso. rewrite <- Hv in Hr. lia.
    + exfalso. rewrite <- Hv in Hr. vm_compute in Hr. discriminate.
    + split; [exact Hr|]. split; [exact Hq'|]. rewrite Hsz, Hq'. reflexivity.
Defined.

(** ** The capacity of a file *)

Lemma bonus_write_capacity (w : Bonus.W) buf len :
  vfs_range (w_pos w) len ->
  w_pos w < 2 ^ 32 * BLOCK_SIZE ->
  Bonus.i_size (w_osfs w) <= MAX_BLOCKS_PER_FILE * BLOCK_SIZE ->
  exists r w', Bonus.osfs_write w buf len = Some (r, w') /\
    Bonus.i_size (w_osfs w') <= MAX_BLOCKS_PER_FILE * BLOCK_SIZE /\
    (0 < r -> w_pos w' <= MAX_BLOCKS_PER_FILE * BLOCK_SIZE).
Proof.
  intros (Hp & Hl & Hpl) Hcap Hsz.
  destruct (osfs_write_rule
              (fun c => write_progress w len c /\
                        Bonus.i_size (w_osfs (Bonus.l_w c)) <= MAX_BLOCKS_PER_FILE * BLOCK_SIZE /\
                        w_pos (Bonus.l_w c) < 2 ^ 32 * BLOCK_SIZE /\
                        (0 < Bonus.l_bytes c ->
                         w_pos (Bonus.l_w c) <= MAX_BLOCKS_PER_FILE * BLOCK_SIZE))
              (fun '(r, w') =>
                 Bonus.i_size (w_osfs w') <= MAX_BLOCKS_PER_FILE * BLOCK_SIZE /\
                 (0 < r -> w_pos w' <= MAX_BLOCKS_PER_FILE * BLOCK_SIZE))
              w buf len) as ([r w'] & H & HQ).
  - split; [|cbn; split; [exact Hsz|split; [exact Hcap|lia]]].
    unfold write_progress. cbn. repeat (split; [lia || reflexivity|]).
    split; [apply same_times_refl|]. exists []. split; [now rewrite app_nil_r|constructor].
  - intros c (Hc & Hszc & Hsmall & Hposc) Hg.
    pose proof (write_body_progress w len c Hp Hpl Hc Hg) as Hstep.
    pose proof (write_turn_capacity c) as Hturn.
    destruct Hc as (Hb & Hlen & Hsum & Hpos & _).
    destruct (Bonus.write_body c) as [c'|[r w']].
    + split; [exact Hstep|].
      destruct (Hturn c' ltac:(lia) Hb Hg Hsmall ltac:(lia) ltac:(lia) eq_refl) as (Hp' & ->).
      split; [lia|]. split; [unfold MAX_BLOCKS_PER_FILE, BLOCK_SIZE in *; lia|].
      intros _. exact Hp'.
    + destruct Hstep as (Hr & E1 & E2 & _). rewrite E1, E2. split; [exact Hszc|].
      intros Hpos'. apply Hposc. unfold EFAULT, ENOSPC in Hr. lia.
  - intros c ((Hb & Hlen & Hsum & _) & Hszc & _ & Hposc) Hg.
    destruct (touch_effect (Bonus.l_w c)) as (_ & _ & _ & _ & T5 & T6 & _).
    rewrite T5, T6. split; assumption.
  - exists r, w'. split; [exact H|exact HQ].
Qed.

(** X11: a file never grows beyond its capacity, one block in the single-block
    variant and [MAX_BLOCKS_PER_FILE] blocks in the multi-block variant,
    and a write that stores a byte leaves the position within the
    capacity. *)
Theorem write_respects_capacity (wl : Lab4.W) (wb : Bonus.W) (buf len : Z) :
  vfs_range (w_pos wl) len ->
  Lab4.i_size (w_osfs wl) <= BLOCK_SIZE ->
  vfs_range (w_pos wb) len ->
  w_pos wb < 2 ^ 32 * BLOCK_SIZE ->
  Bonus.i_size (w_osfs wb) <= MAX_BLOCKS_PER_FILE * BLOCK_SIZE ->
  (Lab4.i_size (w_osfs (snd (Lab4.osfs_write wl buf len))) <= BLOCK_SIZE /\
   (0 < fst (Lab4.osfs_write wl buf len) ->
    w_pos (snd (Lab4.osfs_write wl buf len)) <= BLOCK_SIZE)) /\
  (exists r w', Bonus.osfs_write wb buf len = Some (r, w') /\
     Bonus.i_size (w_osfs w') <= MAX_BLOCKS_PER_FILE * BLOCK_SIZE /\
     (0 < r -> w_pos w' <= MAX_BLOCKS_PER_FILE * BLOCK_SIZE)).
Proof.
  intros Hrl Hszl Hrb Hcap Hszb. split.
  - destruct (lab4_write_effect wl buf len Hrl)
      as [(Hneg & Hsz & _)|(Hr & Hfit & Hpos & Hsz & _)]; cbv zeta in *.
    + split; [lia|]. intros; lia.
    + split; [lia|]. intros; lia.
  - now apply bonus_write_capacity.
Qed.

Lemma write_respects_capacity_witness :
  exists r w',
    Bonus.osfs_write (bonus_fresh (fresh_sb 8 Byte.xff) (flat_user 0 64 Byte.x41) 20470) 0 20
    = Some (r, w') /\
    Bonus.i_size (w_osfs w') <= MAX_BLOCKS_PER_FILE * BLOCK_SIZE.
Proof.
  destruct (write_respects_capacity
              (lab4_fresh (fresh_sb 8 Byte.xff) (flat_user 0 64 Byte.x41) 4090)
              (bonus_fresh (fresh_sb 8 Byte.xff) (flat_user 0 64 Byte.x41) 20470) 0 20)
    as (_ & r & w' & H & Hsz & _).
  - unfold vfs_range. cbn. lia.
  - cbn. unfold BLOCK_SIZE. lia.
  - unfold vfs_range. cbn. lia.
  - cbn. unfold BLOCK_SIZE. lia.
  - cbn. unfold MAX_BLOCKS_PER_FILE, BLOCK_SIZE. lia.
  - exists r, w'. split; [exact H|exact Hsz].
Defined.

(** ** Writes from an accessible buffer *)

Lemma copy_from_user_all um from n :
  0 <= n -> (forall a, from <= a < from + n -> u_ok um a = true) ->
  fst (copy_from_user um from n) = 0.
Proof.
  intros Hn Hok. unfold copy_from_user. cbn [fst].
  assert (accessible_prefix (u_ok um) from (Z.to_nat n) = Z.to_nat n) as ->
    by (apply accessible_prefix_all; intros a Ha; apply Hok; lia).
  lia.
Qed.

Lemma write_turn_no_fault c :
  0 <= Bonus.l_bytes c -> Bonus.loop_guard c = true ->
  (forall a, Bonus.l_buf c <= a
             < Bonus.l_buf c + Bonus.seg_len (w_pos (Bonus.l_w c)) (Bonus.l_len c) ->
     u_ok (w_user (Bonus.l_w c)) a = true) ->
  match Bonus.write_body c with
  | inl _ => True
  | inr (r, _) => r <> - EFAULT
  end.
Proof.
  intros Hb Hg Hok.
  assert (0 < Bonus.l_len c) as Hl by (unfold Bonus.loop_guard in Hg; lia).
  pose proof (seg_len_bounds (w_pos (Bonus.l_w c)) (Bonus.l_len c) Hl) as Hn.
  assert ((if Bonus.l_bytes c >? 0 then Bonus.l_bytes c else - ENOSPC) <> - EFAULT) as Hne
    by (destruct (Z.gtb_spec (Bonus.l_bytes c) 0); unfold ENOSPC, EFAULT; lia).
  destruct (write_body_cases c) as [(_ & E)|[(_ & _ & _ & E)|(_ & w1 & _ & Hc)]].
  - now rewrite E.
  - now rewrite E.
  - cbv zeta in Hc. destruct Hc as [(Hf & _)|(_ & E)]; [|now rewrite E].
    exfalso. apply Hf. apply copy_from_user_all; [lia|exact Hok].
Qed.

Lemma bonus_write_no_fault (w : Bonus.W) buf len :
  vfs_range (w_pos w) len ->
  user_ok (w_user w) buf len = true ->
  exists r w', Bonus.osfs_write w buf len = Some (r, w') /\ r <> - EFAULT.
Proof.
  intros Hr Hok0. pose proof Hr as (Hp & Hl & Hpl).
  pose proof (proj1 (user_ok_spec _ _ _ Hl) Hok0) as Hok.
  destruct (osfs_write_rule
              (fun c => write_progress w len c /\ Bonus.l_buf c = buf + Bonus.l_bytes c)
              (fun '(r, _) => r <> - EFAULT)
              w buf len) as ([r w'] & H & HQ).
  - split; [|cbn; lia].
    unfold write_progress. cbn. repeat (split; [lia || reflexivity|]).
    split; [apply same_times_refl|]. exists []. split; [now rewrite app_nil_r|constructor].
  - intros c (Hc & Hbuf) Hg.
    pose proof (write_body_progress w len c Hp Hpl Hc Hg) as Hstep.
    pose proof (write_turn_in_range c) as Hrange.
    destruct Hc as (Hb & Hlen & Hsum & Hpos & _ & _ & Hu & _).
    pose proof (write_turn_no_fault c Hb Hg) as Hnf.
    assert (0 < Bonus.l_len c) as Hlc by (unfold Bonus.loop_guard in Hg; lia).
    pose proof (seg_len_bounds (w_pos (Bonus.l_w c)) (Bonus.l_len c) Hlc) as Hn.
    destruct (Bonus.write_body c) as [c'|[r w']].
    + split; [exact Hstep|].
      specialize (Hrange c' ltac:(lia) Hb Hg ltac:(lia) ltac:(lia) eq_refl). lia.
    + apply Hnf. intros a Ha. rewrite Hu. apply Hok. lia.
  - intros c ((Hb & _) & _) _. unfold EFAULT. lia.
  - exists r, w'. split; [exact H|exact HQ].
Qed.

Lemma lab4_write_no_fault (w : Lab4.W) buf len :
  vfs_range (w_pos w) len ->
  user_ok (w_user w) buf len = true ->
  fst (Lab4.osfs_write w buf len) <> - EFAULT.
Proof.
  intros (Hp & Hl & Hs) Hok0.
  pose proof (proj1 (user_ok_spec _ _ _ Hl) Hok0) as Hok.
  assert (forall w1 : Lab4.W, w_pos w1 = w_pos w -> w_user w1 = w_user w ->
            fst (Lab4.write_steps_3_to_6 w1 buf len) <> - EFAULT) as Hsteps.
  { intros w1 Hw1 Hu1. unfold Lab4.write_steps_3_to_6. rewrite Hw1, Hu1.
    destruct (Z.geb_spec (w_pos w) BLOCK_SIZE); [cbn; unfold ENOSPC, EFAULT; lia|].
    assert (0 <= (if u64 (w_pos w + len) >? BLOCK_SIZE then u64 (BLOCK_SIZE - w_pos w) else len)
            <= len) as Hn.
    { rewrite (u64_small (w_pos w + len)) by lia.
      destruct (Z.gtb_spec (w_pos w + len) BLOCK_SIZE); [rewrite u64_small|];
        unfold BLOCK_SIZE in *; lia. }
    revert Hn.
    generalize (if u64 (w_pos w + len) >? BLOCK_SIZE then u64 (BLOCK_SIZE - w_pos w) else len).
    intros n Hn.
    pose proof (copy_from_user_all (w_user w) buf n ltac:(lia)
                  ltac:(intros a Ha; apply Hok; lia)) as Hcp.
    destruct (copy_from_user _ _ _) as [uncopied bs]. cbn [fst] in Hcp. subst uncopied.
    cbn [Z.eqb fst]. rewrite (s64_small n) by lia. unfold EFAULT. lia. }
  unfold Lab4.osfs_write.
  destruct (Lab4.i_blocks (w_osfs w) =? 0); [|now apply Hsteps].
  destruct (alloc_cases (w_sb w)) as [(i & -> & _)| ->]; cbn [Z.eqb].
  - now apply Hsteps.
  - change (- ENOSPC =? 0) with false. cbn [fst]. unfold ENOSPC, EFAULT. lia.
Qed.

(** X12: a write returns [-EFAULT] only when a byte of the buffer is
    inaccessible. *)
Theorem write_fault_needs_bad_buffer (wl : Lab4.W) (wb : Bonus.W) (buf len : Z) :
  vfs_range (w_pos wl) len ->
  user_ok (w_user wl) buf len = true ->
  vfs_range (w_pos wb) len ->
  user_ok (w_user wb) buf len = true ->
  fst (Lab4.osfs_write wl buf len) <> - EFAULT /\
  (exists r w', Bonus.osfs_write wb buf len = Some (r, w') /\ r <> - EFAULT).
Proof.
  intros Hrl Hokl Hrb Hokb. split.
  - now apply lab4_write_no_fault.
  - now apply bonus_write_no_fault.
Qed.

Lemma write_fault_needs_bad_buffer_witness :
  exists r w',
    Bonus.osfs_write (bonus_fresh (fresh_sb 8 Byte.xff) (flat_user 0 64 Byte.x41) 4090) 0 10
    = Some (r, w') /\ r <> - EFAULT.
Proof.
  apply (write_fault_needs_bad_buffer
           (lab4_fresh (fresh_sb 8 Byte.xff) (flat_user 0 64 Byte.x41) 4090)
           (bonus_fresh (fresh_sb 8 Byte.xff) (flat_user 0 64 Byte.x41) 4090) 0 10).
  - unfold vfs_range. cbn. lia.
  - vm_compute. reflexivity.
  - unfold vfs_range. cbn. lia.
  - vm_compute. reflexivity.
Defined.

(** ** Overwriting in place *)

Lemma write_turn_in_place c :
  length (Bonus.blocks (w_osfs (Bonus.l_w c))) = Z.to_nat MAX_BLOCKS_PER_FILE ->
  0 <= w_pos (Bonus.l_w c) < 2 ^ 32 * BLOCK_SIZE ->
  Bonus.loop_guard c = true ->
  Bonus.slot (w_osfs (Bonus.l_w c)) (w_pos (Bonus.l_w c) / BLOCK_SIZE) <> 0 ->
  (forall a, Bonus.l_buf c <= a
             < Bonus.l_buf c + Bonus.seg_len (w_pos (Bonus.l_w c)) (Bonus.l_len c) ->
     u_ok (w_user (Bonus.l_w c)) a = true) ->
  exists c', Bonus.write_body c = inl c' /\
    Bonus.blocks (w_osfs (Bonus.l_w c')) = Bonus.blocks (w_osfs (Bonus.l_w c)) /\
    Bonus.i_blocks (w_osfs (Bonus.l_w c')) = Bonus.i_blocks (w_osfs (Bonus.l_w c)) /\
    block_bitmap (w_sb (Bonus.l_w c')) = block_bitmap (w_sb (Bonus.l_w c)).
Proof.
  intros Hlen Hpos Hg Hnz Hok.
  assert (0 < Bonus.l_len c) as Hl by (unfold Bonus.loop_guard in Hg; lia).
  pose proof (seg_len_bounds (w_pos (Bonus.l_w c)) (Bonus.l_len c) Hl) as Hn.
  rewrite <- (blk_index_small _ Hpos) in Hnz.
  pose proof (lookup_lt_Some _ _ _ (slot_lookup _ _ Hnz)) as Hin.
  pose proof (blk_index_range (w_pos (Bonus.l_w c))) as Hir.
  pose proof (write_turn_extent c Hg) as Hext.
  destruct (write_body_cases c) as [(Hidx & _)|[(_ & Hz & _)|(_ & w1 & Ha & Hc)]].
  - exfalso. rewrite Hlen in Hin. lia.
  - contradiction.
  - cbv zeta in Hc. destruct Hc as [(Hf & _)|(_ & E)].
    + exfalso. apply Hf. apply copy_from_user_all; [lia|exact Hok].
    + destruct (alloc_if_needed_inl _ _ _ Ha) as (_ & _ & _ & _ & _ & [(_ & ->)|(Hz & _)]);
        [|contradiction].
      rewrite E in Hext |- *. eexists. split; [reflexivity|]. cbn [after_turn] in Hext.
      destruct Hext as [Hsame|(w1 & Ha' & _ & Hsame)]; [exact Hsame|].
      rewrite Ha in Ha'. injection Ha' as <-. exact Hsame.
Qed.





(** ** Two writes and a read *)

Lemma osfs_write_written w wbuf k w1 :
  extent_ok w -> 0 <= w_pos w -> 0 <= k ->
  w_pos w + k <= MAX_BLOCKS_PER_FILE * BLOCK_SIZE ->
  Bonus.osfs_write w wbuf k = Some (k, w1) ->
  forall p, w_pos w <= p < w_pos w + k ->
    Bonus.slot (w_osfs w1) (p / BLOCK_SIZE) <> 0 /\
    data_blocks (w_sb w1) (byte_addr (w_osfs w1) p) = u_byte (w_user w) (wbuf + (p - w_pos w)).
Proof.
  intros Hok Hp0 Hk Hcap Hw.
  destruct (osfs_write_rule (written_so_far w wbuf k)
              (fun '(r, w') => r = k ->
                 forall p, w_pos w <= p < w_pos w + k ->
                   Bonus.slot (w_osfs w') (p / BLOCK_SIZE) <> 0 /\
                   data_blocks (w_sb w') (byte_addr (w_osfs w') p)
                   = u_byte (w_user w) (wbuf + (p - w_pos w)))
              w wbuf k) as ([r w'] & H & HQ).
  - unfold written_so_far. cbn [Bonus.l_w Bonus.l_buf Bonus.l_len Bonus.l_bytes].
    split; [lia|]. split; [lia|]. split; [lia|]. split; [lia|]. split; [lia|].
    split; [reflexivity|]. split; [exact Hok|]. intros p Hp. lia.
  - intros c Hc Hg. pose proof (write_body_written w wbuf k c Hp0 Hcap Hc Hg) as Hstep.
    destruct (Bonus.write_body c) as [c'|[r w']]; [exact Hstep|]. intros; contradiction.
  - intros c (Hb & Hl & Hsum & Hpos & _ & _ & _ & Hdata) Hg _ p Hp.
    unfold Bonus.loop_guard in Hg.
    assert (Bonus.l_len c = 0) by (destruct (Z.gtb_spec (Bonus.l_len c) 0); [discriminate|lia]).
    apply (Hdata p). lia.
  - rewrite Hw in H. injection H as <- <-. now apply HQ.
Qed.

Lemma lab4_later_write (wl : Lab4.W) (buf1 k1 pos2 buf2 k2 rbuf : Z) (um2 um3 : umem) :
  0 <= w_pos wl -> 0 <= k1 -> w_pos wl + k1 <= BLOCK_SIZE ->
  fst (Lab4.osfs_write wl buf1 k1) = k1 ->
  vfs_range pos2 k2 ->
  (pos2 + k2 <= w_pos wl \/ w_pos wl + k1 <= pos2) ->
  user_ok um3 rbuf k1 = true ->
  fst (Lab4.osfs_read
         (set_pos (set_user
            (snd (Lab4.osfs_write
                    (set_pos (set_user (snd (Lab4.osfs_write wl buf1 k1)) um2) pos2) buf2 k2))
            um3) (w_pos wl)) rbuf k1) = k1 /\
  load_bytes
    (u_byte (w_user (snd (Lab4.osfs_read
       (set_pos (set_user
          (snd (Lab4.osfs_write
                  (set_pos (set_user (snd (Lab4.osfs_write wl buf1 k1)) um2) pos2) buf2 k2))
          um3) (w_pos wl)) rbuf k1))))
    rbuf (Z.to_nat k1)
  = load_bytes (u_byte (w_user wl)) buf1 (Z.to_nat k1).
Proof.
  intros Hlp Hk Hlcap Hlw Hr2 Hdisl Hacc.
  destruct (lab4_write_content wl buf1 k1 Hlp Hk Hlcap Hlw) as (Hnb & Hsz & Hcontent).
  set (wa := snd (Lab4.osfs_write wl buf1 k1)) in *.
  set (wb := set_pos (set_user wa um2) pos2).
  assert (vfs_range (w_pos wb) k2) as Hrb by exact Hr2.
  set (wc := snd (Lab4.osfs_write wb buf2 k2)).
  assert (Lab4.i_size (w_osfs wa) <= Lab4.i_size (w_osfs wc)) as Hgrow.
  { destruct (lab4_write_effect wb buf2 k2 Hrb) as [(_ & Hsz2 & _)|(_ & _ & _ & Hsz2 & _)];
      cbv zeta in Hsz2; fold wc in Hsz2; rewrite Hsz2;
      cbn [wb w_osfs set_pos set_user]; lia. }
  assert (Lab4.i_block (w_osfs wc) = Lab4.i_block (w_osfs wa) /\
          Lab4.i_blocks (w_osfs wc) = Lab4.i_blocks (w_osfs wa)) as (Eb & Enb).
  { destruct (lab4_write_data wb buf2 k2 0 Hrb) as (Hd & _).
    destruct (Hd Hnb) as (E1 & E2 & _). split; assumption. }
  assert (forall j, 0 <= j < k1 ->
            data_blocks (w_sb wc) (Lab4.i_block (w_osfs wa) * BLOCK_SIZE + w_pos wl + j)
            = data_blocks (w_sb wa) (Lab4.i_block (w_osfs wa) * BLOCK_SIZE + w_pos wl + j))
    as Hkeep.
  { intros j Hj.
    destruct (lab4_write_data wb buf2 k2
                (Lab4.i_block (w_osfs wa) * BLOCK_SIZE + w_pos wl + j) Hrb) as (Hd & _).
    destruct (Hd Hnb) as (_ & _ & _ & [E|Hin]); [exact E|].
    exfalso. cbn [wb w_osfs w_pos set_pos set_user] in Hin. destruct Hr2 as (? & ? & ?). lia. }
  destruct (lab4_read_content (set_pos (set_user wc um3) (w_pos wl)) rbuf k1)
    as (Hrd & Hbytes); cbn [w_pos w_osfs w_user w_sb set_pos set_user];
    try assumption; try congruence.
  { intros Hk0. specialize (Hsz Hk0). lia. }
  split; [exact Hrd|]. apply load_bytes_ext. intros j Hj.
  rewrite Hbytes by lia. cbn [w_pos w_osfs w_user w_sb set_pos set_user].
  rewrite Eb, Hkeep by lia. apply Hcontent. lia.
Qed.

Lemma bonus_later_write (w w1 w2 : Bonus.W) (buf1 k1 pos2 buf2 k2 r2 rbuf : Z)
    (um2 um3 : umem) :
  extent_ok w -> arena_addressable (w_sb w) ->
  0 <= w_pos w -> 0 <= k1 ->
  w_pos w + k1 <= MAX_BLOCKS_PER_FILE * BLOCK_SIZE ->
  Bonus.osfs_write w buf1 k1 = Some (k1, w1) ->
  vfs_range pos2 k2 -> pos2 < 2 ^ 32 * BLOCK_SIZE ->
  (pos2 + k2 <= w_pos w \/ w_pos w + k1 <= pos2) ->
  Bonus.osfs_write (set_pos (set_user w1 um2) pos2) buf2 k2 = Some (r2, w2) ->
  user_ok um3 rbuf k1 = true ->
  exists w3,
    Bonus.osfs_read (set_pos (set_user w2 um3) (w_pos w)) rbuf k1 = Some (k1, w3) /\
    load_bytes (u_byte (w_user w3)) rbuf (Z.to_nat k1)
    = load_bytes (u_byte (w_user w)) buf1 (Z.to_nat k1).
Proof.
  intros Hok Harena Hp0 Hk Hcap Hw Hr2 Hcap2 Hdisb Hw2 Hacc.
  pose proof (osfs_write_written w buf1 k1 w1 Hok Hp0 Hk Hcap Hw) as Hcontent.
  destruct (bonus_write_effect w buf1 k1) as (r & w' & H & _ & _ & Hsz & _).
  { unfold vfs_range, MAX_BLOCKS_PER_FILE, BLOCK_SIZE in *. lia. }
  rewrite Hw in H. injection H as <- <-.
  destruct (osfs_write_extent_ok w buf1 k1 Hok) as (r & w' & H & Hok1).
  rewrite Hw in H. injection H as <- <-.
  set (wb := set_pos (set_user w1 um2) pos2) in *.
  assert (extent_ok wb) as Hokb by (apply (extent_ok_same w1); [reflexivity|reflexivity|exact Hok1]).
  destruct (bonus_write_frame wb buf2 k2 Hr2 Hcap2 Hokb) as (r & w' & H & Hframe).
  rewrite Hw2 in H. injection H as <- <-.
  destruct (bonus_write_effect wb buf2 k2 Hr2) as (r & w' & H & _ & Hgrow & _).
  rewrite Hw2 in H. injection H as <- <-.
  destruct (osfs_write_arena w buf1 k1 Harena) as (r & w' & H & Harena1).
  rewrite Hw in H. injection H as <- <-.
  destruct (osfs_write_extent_ok wb buf2 k2 Hokb) as (r & w' & H & Hok2).
  rewrite Hw2 in H. injection H as <- <-.
  destruct (osfs_write_arena wb buf2 k2 Harena1) as (r & w' & H & Harena2).
  rewrite Hw2 in H. injection H as <- <-.
  pose proof (extent_ok_addressable w2 Hok2 Harena2) as Haddr.
  cbn [wb w_pos w_osfs w_sb set_pos set_user] in Hframe, Hgrow.
  destruct (osfs_read_content (set_pos (set_user w2 um3) (w_pos w)) rbuf k1)
    as (w3 & Hrd & Hbytes);
    cbn [w_pos w_osfs w_user w_sb set_pos set_user]; try assumption.
  { intros Hk0. specialize (Hsz Hk0). lia. }
  exists w3. split; [exact Hrd|].
  apply load_bytes_ext. intros j Hj.
  rewrite Hbytes by lia. cbn [w_pos w_osfs w_user w_sb set_pos set_user].
  destruct (Hcontent (w_pos w + Z.of_nat j) ltac:(lia)) as (Hnz & Hdata).
  destruct (Hframe (w_pos w + Z.of_nat j) ltac:(lia) Hnz ltac:(lia)) as (_ & Hsame).
  rewrite read_addr_small by apply Haddr.
  unfold byte_addr in Hsame, Hdata. rewrite Hsame, Hdata. f_equal. lia.
Qed.

(** X14: what was written stays readable when another write goes elsewhere:
    after a write of [k1] bytes that stored them all and a second write,
    from another buffer at another position, whose range does not meet the
    range of the first, a read at the first position delivers the bytes of
    the first buffer.  The second write may return anything.  The two
    variants have their own files, positions, lengths and buffers; in the
    multi-block variant the extent map is sound, the arena is one that an
    unsigned int can address, and the ranges may lie in any blocks of the
    file. *)
Theorem later_write_keeps_earlier
    (wl : Lab4.W) (buf1l k1l pos2l buf2l k2l rbufl : Z) (um2l um3l : umem)
    (w w1 w2 : Bonus.W) (buf1 k1 pos2 buf2 k2 r2 rbuf : Z) (um2 um3 : umem) :
  0 <= w_pos wl -> 0 <= k1l -> w_pos wl + k1l <= BLOCK_SIZE ->
  fst (Lab4.osfs_write wl buf1l k1l) = k1l ->
  vfs_range pos2l k2l ->
  (pos2l + k2l <= w_pos wl \/ w_pos wl + k1l <= pos2l) ->
  user_ok um3l rbufl k1l = true ->
  extent_ok w -> arena_addressable (w_sb w) ->
  0 <= w_pos w -> 0 <= k1 ->
  w_pos w + k1 <= MAX_BLOCKS_PER_FILE * BLOCK_SIZE ->
  Bonus.osfs_write w buf1 k1 = Some (k1, w1) ->
  vfs_range pos2 k2 -> pos2 < 2 ^ 32 * BLOCK_SIZE ->
  (pos2 + k2 <= w_pos w \/ w_pos w + k1 <= pos2) ->
  Bonus.osfs_write (set_pos (set_user w1 um2) pos2) buf2 k2 = Some (r2, w2) ->
  user_ok um3 rbuf k1 = true ->
  (fst (Lab4.osfs_read
          (set_pos (set_user
             (snd (Lab4.osfs_write
                     (set_pos (set_user (snd (Lab4.osfs_write wl buf1l k1l)) um2l) pos2l)
                     buf2l k2l))
             um3l) (w_pos wl)) rbufl k1l) = k1l /\
   load_bytes
     (u_byte (w_user (snd (Lab4.osfs_read
        (set_pos (set_user
           (snd (Lab4.osfs_write
                   (set_pos (set_user (snd (Lab4.osfs_write wl buf1l k1l)) um2l) pos2l)
                   buf2l k2l))
           um3l) (w_pos wl)) rbufl k1l))))
     rbufl (Z.to_nat k1l)
   = load_bytes (u_byte (w_user wl)) buf1l (Z.to_nat k1l)) /\
  (exists w3,
     Bonus.osfs_read (set_pos (set_user w2 um3) (w_pos w)) rbuf k1 = Some (k1, w3) /\
     load_bytes (u_byte (w_user w3)) rbuf (Z.to_nat k1)
     = load_bytes (u_byte (w_user w)) buf1 (Z.to_nat k1)).
Proof.
  intros L1 L2 L3 L4 L5 L6 L7 B1 B2 B3 B4 B5 B6 B7 B8 B9 B10 B11. split.
  - now apply lab4_later_write.
  - now apply (bonus_later_write w w1 w2 buf1 k1 pos2 buf2 k2 r2 rbuf um2 um3).
Qed.

Lemma later_write_keeps_earlier_witness :
  exists w1 r2 w2 w3,
    Bonus.osfs_write (bonus_fresh (fresh_sb 8 Byte.xff) (striped_user 0 64) 8192) 0 10
    = Some (10, w1) /\
    Bonus.osfs_write (set_pos (set_user w1 (flat_user 0 8000 Byte.x43)) 0) 0 8000
    = Some (r2, w2) /\
    Bonus.osfs_read (set_pos (set_user w2 (flat_user 100 110 Byte.x00)) 8192) 100 10
    = Some (10, w3) /\
    load_bytes (u_byte (w_user w3)) 100 10
    = [Byte.x41; Byte.x42; Byte.x41; Byte.x42; Byte.x41;
       Byte.x42; Byte.x41; Byte.x42; Byte.x41; Byte.x42].
Proof.
  destruct (osfs_write_total (bonus_fresh (fresh_sb 8 Byte.xff) (striped_user 0 64) 8192) 0 10)
    as [[r w1] E].
  pose proof (f_equal (option_map fst) E) as Er. vm_compute in Er. injection Er as Er.
  rewrite <- Er in E. clear Er r.
  destruct (osfs_write_total (set_pos (set_user w1 (flat_user 0 8000 Byte.x43)) 0) 0 8000)
    as [[r2 w2] E2].
  destruct (later_write_keeps_earlier
              (lab4_fresh (fresh_sb 8 Byte.xff) (striped_user 0 64) 20) 0 10 0 0 8 100
              (flat_user 0 64 Byte.x43) (flat_user 100 110 Byte.x00)
              (bonus_fresh (fresh_sb 8 Byte.xff) (striped_user 0 64) 8192)
              w1 w2 0 10 0 0 8000 r2 100 (flat_user 0 8000 Byte.x43) (flat_user 100 110 Byte.x00))
    as (_ & w3 & Hrd & Hbytes).
  - simpl. lia.
  - lia.
  - simpl. unfold BLOCK_SIZE. lia.
  - vm_compute. reflexivity.
  - unfold vfs_range. lia.
  - left. simpl. lia.
  - vm_compute. reflexivity.
  - apply (reachable_extent_ok any_write). apply reach_fresh.
  - vm_compute. discriminate.
  - simpl. lia.
  - lia.
  - simpl. unfold MAX_BLOCKS_PER_FILE, BLOCK_SIZE. lia.
  - exact E.
  - unfold vfs_range. lia.
  - unfold BLOCK_SIZE. lia.
  - left. simpl. lia.
  - exact E2.
  - vm_compute. reflexivity.
  - exists w1, r2, w2, w3. split; [exact E|]. split; [exact E2|]. split; [exact Hrd|].
    change (Z.to_nat 10) with 10%nat in Hbytes. rewrite Hbytes. vm_compute. reflexivity.
Defined.

(** ** Writes that reach the end of the capacity *)

Lemma lab4_write_cut (w : Lab4.W) buf len :
  vfs_range (w_pos w) len ->
  Lab4.i_blocks (w_osfs w) <> 0 ->
  w_pos w < BLOCK_SIZE <= w_pos w + len ->
  user_ok (w_user w) buf (BLOCK_SIZE - w_pos w) = true ->
  fst (Lab4.osfs_write w buf len) = BLOCK_SIZE - w_pos w.
Proof.
  intros (Hp & Hl & Hs) Hhas Hcut Hok0.
  pose proof (proj1 (user_ok_spec (w_user w) buf (BLOCK_SIZE - w_pos w) ltac:(lia)) Hok0) as Hok.
  unfold Lab4.osfs_write.
  destruct (Z.eqb_spec (Lab4.i_blocks (w_osfs w)) 0); [contradiction|].
  unfold Lab4.write_steps_3_to_6.
  destruct (Z.geb_spec (w_pos w) BLOCK_SIZE) as [Hge|_]; [lia|].
  assert ((if u64 (w_pos w + len) >? BLOCK_SIZE then u64 (BLOCK_SIZE - w_pos w) else len)
          = BLOCK_SIZE - w_pos w) as ->.
  { rewrite (u64_small (w_pos w + len)) by lia.
    destruct (Z.gtb_spec (w_pos w + len) BLOCK_SIZE); [apply u64_small|];
      unfold BLOCK_SIZE in *; lia. }
  pose proof (copy_from_user_all (w_user w) buf (BLOCK_SIZE - w_pos w) ltac:(lia) Hok) as Hcp.
  destruct (copy_from_user _ _ _) as [uncopied bs]. cbn [fst] in Hcp. subst uncopied.
  cbn [Z.eqb fst]. apply s64_small. unfold BLOCK_SIZE in *. lia.
Qed.

Lemma bonus_write_cut (w : Bonus.W) buf len :
  vfs_range (w_pos w) len ->
  length (Bonus.blocks (w_osfs w)) = Z.to_nat MAX_BLOCKS_PER_FILE ->
  (forall j, 0 <= j < MAX_BLOCKS_PER_FILE -> Bonus.slot (w_osfs w) j <> 0) ->
  w_pos w < MAX_BLOCKS_PER_FILE * BLOCK_SIZE < w_pos w + len ->
  user_ok (w_user w) buf (MAX_BLOCKS_PER_FILE * BLOCK_SIZE - w_pos w) = true ->
  exists w', Bonus.osfs_write w buf len = Some (MAX_BLOCKS_PER_FILE * BLOCK_SIZE - w_pos w, w') /\
    w_pos w' = MAX_BLOCKS_PER_FILE * BLOCK_SIZE /\
    metadata_untouched w w'.
Proof.
  intros Hr Hlen Hfull Hcut Hok0. pose proof Hr as (Hp & Hl & Hpl).
  pose proof (proj1 (user_ok_spec (w_user w) buf (MAX_BLOCKS_PER_FILE * BLOCK_SIZE - w_pos w)
                       ltac:(lia)) Hok0) as Hok.
  destruct (osfs_write_rule
              (fun c => write_progress w len c /\ Bonus.l_buf c = buf + Bonus.l_bytes c /\
                        Bonus.blocks (w_osfs (Bonus.l_w c)) = Bonus.blocks (w_osfs w) /\
                        w_pos (Bonus.l_w c) <= MAX_BLOCKS_PER_FILE * BLOCK_SIZE)
              (fun '(r, w') => r = MAX_BLOCKS_PER_FILE * BLOCK_SIZE - w_pos w /\
                        w_pos w' = MAX_BLOCKS_PER_FILE * BLOCK_SIZE /\
                        metadata_untouched w w')
              w buf len) as ([r w'] & H & -> & HQ).
  - split; [|cbn; split; [lia|split; [reflexivity|lia]]].
    unfold write_progress. cbn. repeat (split; [lia || reflexivity|]).
    split; [apply same_times_refl|]. exists []. split; [now rewrite app_nil_r|constructor].
  - intros c (Hc & Hbuf & Hbl & Hin) Hg.
    pose proof (write_body_progress w len c Hp Hpl Hc Hg) as Hstep.
    pose proof (write_turn_in_range c) as Hrange.
    pose proof (write_turn_capacity c) as Hturn.
    destruct Hc as (Hb & Hlenc & Hsum & Hpos & _ & _ & Hu & Ht & evs & Hlog & Hev).
    assert (0 < Bonus.l_len c) as Hlc by (unfold Bonus.loop_guard in Hg; lia).
    pose proof (Z.div_mod (w_pos (Bonus.l_w c)) BLOCK_SIZE ltac:(unfold BLOCK_SIZE; lia)) as Hdm.
    pose proof (Z.mod_pos_bound (w_pos (Bonus.l_w c)) BLOCK_SIZE ltac:(unfold BLOCK_SIZE; lia))
      as Hoff.
    destruct (Z_lt_le_dec (w_pos (Bonus.l_w c)) (MAX_BLOCKS_PER_FILE * BLOCK_SIZE)) as [Hlt|Hge].
    + assert (0 <= w_pos (Bonus.l_w c) / BLOCK_SIZE < MAX_BLOCKS_PER_FILE) as Hidx
        by (unfold MAX_BLOCKS_PER_FILE, BLOCK_SIZE in *; lia).
      assert (Bonus.slot (w_osfs (Bonus.l_w c)) (w_pos (Bonus.l_w c) / BLOCK_SIZE) <> 0) as Hnz
        by (rewrite (slot_eq _ (w_osfs w) _ Hbl); now apply Hfull).
      assert (w_pos (Bonus.l_w c) < 2 ^ 32 * BLOCK_SIZE) as Hsmall
        by (unfold MAX_BLOCKS_PER_FILE, BLOCK_SIZE in *; lia).
      destruct (write_turn_in_place c ltac:(congruence) ltac:(lia) Hg Hnz)
        as (c' & E & E1 & _).
      { intros a Ha. rewrite Hu. apply Hok.
        rewrite seg_len_nonneg in Ha by lia.
        unfold MAX_BLOCKS_PER_FILE, BLOCK_SIZE in *. lia. }
      rewrite E in Hstep |- *. split; [exact Hstep|].
      specialize (Hrange c' ltac:(lia) Hb Hg ltac:(lia) ltac:(lia) E).
      destruct (Hturn c' ltac:(lia) Hb Hg Hsmall ltac:(lia) ltac:(lia) E) as (Hp' & _).
      split; [lia|]. split; [congruence|exact Hp'].
    + assert (Bonus.blk_index (w_pos (Bonus.l_w c)) = MAX_BLOCKS_PER_FILE) as Hidx.
      { rewrite blk_index_small by (unfold MAX_BLOCKS_PER_FILE, BLOCK_SIZE in *; lia).
        unfold MAX_BLOCKS_PER_FILE, BLOCK_SIZE in *. lia. }
      destruct (write_body_cases c) as [(_ & E)|[(Hc & _)|(Hc & _)]]; cbv zeta in *;
        [|lia|lia].
      rewrite E. destruct (Z.gtb_spec (Bonus.l_bytes c) 0); [|lia].
      split; [lia|]. split; [lia|].
      now apply (metadata_untouched_intro w (Bonus.l_w c) evs).
  - intros c ((Hb & Hlenc & Hsum & Hpos & _) & _ & _ & Hin) Hg. exfalso.
    unfold Bonus.loop_guard in Hg.
    assert (Bonus.l_len c = 0) as H0 by (destruct (Z.gtb_spec (Bonus.l_len c) 0); [discriminate|lia]).
    lia.
  - exists w'. split; [exact H|exact HQ].
Qed.

(** X15: a write from an accessible buffer that goes beyond the capacity of a
    file that holds all its blocks is cut at the capacity: it returns the
    number of bytes up to there and leaves the position there.  The
    single-block variant then updates the times and marks the inode dirty;
    the multi-block variant returns from inside its loop and does not. *)
Theorem write_is_cut_at_capacity (wl : Lab4.W) (wb : Bonus.W) (buf len : Z) :
  vfs_range (w_pos wl) len ->
  Lab4.i_blocks (w_osfs wl) <> 0 ->
  w_pos wl < BLOCK_SIZE <= w_pos wl + len ->
  user_ok (w_user wl) buf (BLOCK_SIZE - w_pos wl) = true ->
  vfs_range (w_pos wb) len ->
  length (Bonus.blocks (w_osfs wb)) = Z.to_nat MAX_BLOCKS_PER_FILE ->
  (forall j, 0 <= j < MAX_BLOCKS_PER_FILE -> Bonus.slot (w_osfs wb) j <> 0) ->
  w_pos wb < MAX_BLOCKS_PER_FILE * BLOCK_SIZE < w_pos wb + len ->
  user_ok (w_user wb) buf (MAX_BLOCKS_PER_FILE * BLOCK_SIZE - w_pos wb) = true ->
  (fst (Lab4.osfs_write wl buf len) = BLOCK_SIZE - w_pos wl /\
   w_pos (snd (Lab4.osfs_write wl buf len)) = BLOCK_SIZE /\
   metadata_updated wl (snd (Lab4.osfs_write wl buf len))) /\
  (exists w',
     Bonus.osfs_write wb buf len = Some (MAX_BLOCKS_PER_FILE * BLOCK_SIZE - w_pos wb, w') /\
     w_pos w' = MAX_BLOCKS_PER_FILE * BLOCK_SIZE /\
     metadata_untouched wb w').
Proof.
  intros Hrl Hhas Hcutl Hokl Hrb Hlen Hfull Hcutb Hokb. split.
  - pose proof (lab4_write_cut wl buf len Hrl Hhas Hcutl Hokl) as Hr.
    destruct (lab4_write_effect wl buf len Hrl) as [(Hneg & _)|(_ & _ & Hpos & _ & Hmd)];
      cbv zeta in *; [lia|].
    split; [exact Hr|]. split; [lia|exact Hmd].
  - now apply bonus_write_cut.
Qed.

Lemma write_is_cut_at_capacity_witness :
  exists w',
    Bonus.osfs_write (five_block_file (flat_user 0 64 Byte.x42) 20470) 0 20 = Some (10, w') /\
    w_pos w' = 20480 /\ VFS.i_dirty (w_inode w') = false.
Proof.
  destruct (write_is_cut_at_capacity (one_block_file (flat_user 0 64 Byte.x42) 4090)
              (five_block_file (flat_user 0 64 Byte.x42) 20470) 0 20)
    as (_ & w' & H & Hpos & _ & _ & _ & Hd).
  - unfold vfs_range. cbn. lia.
  - cbn. lia.
  - cbn. unfold BLOCK_SIZE. lia.
  - vm_compute. reflexivity.
  - unfold vfs_range. cbn. lia.
  - reflexivity.
  - intros j Hj. unfold MAX_BLOCKS_PER_FILE in Hj.
    assert (j = 0 \/ j = 1 \/ j = 2 \/ j = 3 \/ j = 4) as [-> |[-> |[-> |[-> | ->]]]] by lia;
      vm_compute; discriminate.
  - cbn. unfold MAX_BLOCKS_PER_FILE, BLOCK_SIZE. lia.
  - vm_compute. reflexivity.
  - exists w'. split; [exact H|]. split; [exact Hpos|]. rewrite Hd. reflexivity.
Defined.

(** ** Where a read looks *)

Lemma read_body_source c :
  0 <= w_pos (Bonus.l_w c) -> Bonus.loop_guard c = true ->
  blocks_addressable (w_osfs (Bonus.l_w c)) ->
  exists e,
    w_log (after_turn (Bonus.read_body c)) = w_log (Bonus.l_w c) ++ [e] /\
    copies_out (span_in_block (Bonus.slot (w_osfs (Bonus.l_w c))
                                 (Bonus.blk_index (w_pos (Bonus.l_w c))))) e.
Proof.
  intros Hp Hg Haddr.
  assert (0 < Bonus.l_len c) as Hl by (unfold Bonus.loop_guard in Hg; lia).
  pose proof (seg_len_bounds (w_pos (Bonus.l_w c)) (Bonus.l_len c) Hl) as Hn.
  pose proof (Z.mod_pos_bound (w_pos (Bonus.l_w c)) BLOCK_SIZE ltac:(unfold BLOCK_SIZE; lia)) as Ho.
  pose proof (seg_len_nonneg (w_pos (Bonus.l_w c)) (Bonus.l_len c) Hp) as Hseg.
  pose proof (blk_offset_nonneg (w_pos (Bonus.l_w c)) Hp) as Hoff.
  destruct (Haddr (Bonus.blk_index (w_pos (Bonus.l_w c)))) as (Hb0 & Hb1).
  unfold Bonus.read_body.
  rewrite (u32_small (Bonus.slot _ _)) by (unfold BLOCK_SIZE in *; lia).
  rewrite (u32_small (Bonus.slot _ _ * BLOCK_SIZE)) by (unfold BLOCK_SIZE in *; lia).
  destruct (copy_to_user _ _ _) as [uncopied um].
  eexists. split.
  - destruct (uncopied =? 0); cbn; reflexivity.
  - cbn. unfold span_in_block. rewrite Hoff. lia.
Qed.

Lemma Forall_app_one {A : Type} (P : A -> Prop) l x : Forall P l -> P x -> Forall P (l ++ [x]).
Proof. intros Hl Hx. apply Forall_app. split; [exact Hl|now constructor]. Qed.

Lemma bonus_read_sources (w : Bonus.W) buf len :
  vfs_range (w_pos w) len ->
  Bonus.i_size (w_osfs w) <= MAX_BLOCKS_PER_FILE * BLOCK_SIZE ->
  blocks_addressable (w_osfs w) ->
  exists r w', Bonus.osfs_read w buf len = Some (r, w') /\
    Forall (copies_out (fun src n =>
              exists j, 0 <= j < MAX_BLOCKS_PER_FILE /\
                        span_in_block (Bonus.slot (w_osfs w) j) src n))
           (new_events w w').
Proof.
  intros Hr Hsz Haddr. pose proof Hr as (Hp & Hl & Hs).
  set (P := copies_out (fun src n =>
              exists j, 0 <= j < MAX_BLOCKS_PER_FILE /\
                        span_in_block (Bonus.slot (w_osfs w) j) src n)).
  set (k := available (Bonus.i_size (w_osfs w)) (w_pos w) len).
  destruct (osfs_read_rule
              (fun c => 0 <= Bonus.l_bytes c /\ 0 <= Bonus.l_len c /\
                        Bonus.l_bytes c + Bonus.l_len c = k /\
                        w_pos (Bonus.l_w c) = w_pos w + Bonus.l_bytes c /\
                        w_osfs (Bonus.l_w c) = w_osfs w /\
                        exists evs, w_log (Bonus.l_w c) = w_log w ++ evs /\ Forall P evs)
              (fun '(_, w') => exists evs, w_log w' = w_log w ++ evs /\ Forall P evs)
              w buf len) as ([r w'] & H & evs & Hlog & HP).
  - intros _. exists []. split; [now rewrite app_nil_r|constructor].
  - intros Hlt. destruct (read_len_available w len Hr Hlt) as (-> & _). fold k. cbn.
    assert (0 <= k) by (unfold k, available; lia).
    repeat (split; [lia || reflexivity|]).
    exists []. split; [now rewrite app_nil_r|constructor].
  - intros c (H1 & H2 & H3 & H4 & H5 & evs & H6 & H7) Hg.
    assert (0 < Bonus.l_len c) as Hlc by (unfold Bonus.loop_guard in Hg; lia).
    assert (k <= Bonus.i_size (w_osfs w) - w_pos w /\ k <= len) as (Hk & Hkl)
      by (unfold k, available in *; lia).
    pose proof (read_body_effect c ltac:(lia) H1 Hg ltac:(lia) ltac:(lia)) as Hstep.
    pose proof (read_body_frame c) as Hframe.
    destruct (read_body_source c ltac:(lia) Hg ltac:(now rewrite H5)) as (e & Elog & He).
    assert (P e) as HPe.
    { rewrite H5 in He. destruct e; try contradiction. cbn in He |- *.
      exists (Bonus.blk_index (w_pos (Bonus.l_w c))). split; [|exact He].
      rewrite blk_index_small by (unfold MAX_BLOCKS_PER_FILE, BLOCK_SIZE in *; lia).
      pose proof (Z.div_mod (w_pos (Bonus.l_w c)) BLOCK_SIZE ltac:(unfold BLOCK_SIZE; lia)).
      pose proof (Z.mod_pos_bound (w_pos (Bonus.l_w c)) BLOCK_SIZE ltac:(unfold BLOCK_SIZE; lia)).
      assert (0 <= w_pos (Bonus.l_w c) / BLOCK_SIZE) by (apply Z.div_pos; unfold BLOCK_SIZE; lia).
      unfold MAX_BLOCKS_PER_FILE, BLOCK_SIZE in *. lia. }
    cbv zeta in Hstep.
    destruct (Bonus.read_body c) as [c'|[r w']]; cbn [after_turn] in Elog.
    + destruct Hstep as (n & Hn & E1 & E2 & E3 & _). destruct Hframe as (Eo & _).
      repeat (split; [lia || congruence|]).
      exists (evs ++ [e]). split; [now rewrite Elog, H6, app_assoc|now apply Forall_app_one].
    + exists (evs ++ [e]). split; [now rewrite Elog, H6, app_assoc|now apply Forall_app_one].
  - intros c (_ & _ & _ & _ & _ & Hev) _. exact Hev.
  - exists r, w'. split; [exact H|]. now rewrite (new_events_app w w' evs Hlog).
Qed.

Lemma lab4_read_sources (w : Lab4.W) buf len :
  vfs_range (w_pos w) len ->
  Lab4.i_size (w_osfs w) <= BLOCK_SIZE ->
  Forall (copies_out (span_in_block (Lab4.i_block (w_osfs w))))
         (new_events w (snd (Lab4.osfs_read w buf len))).
Proof.
  intros Hr Hsz. rewrite (lab4_read_clamp w buf len Hr). destruct Hr as (Hp & Hl & Hs).
  assert (forall w', w_log w' = w_log w -> new_events w w' = []) as Hnone
    by (intros w' E; apply new_events_app; now rewrite app_nil_r).
  unfold Lab4.osfs_read.
  destruct (Lab4.i_blocks (w_osfs w) =? 0); [cbn [snd]; now rewrite Hnone|].
  destruct (Z.geb_spec (w_pos w) (Lab4.i_size (w_osfs w))) as [Hge|Hlt];
    [cbn [snd]; now rewrite Hnone|].
  assert ((if u64 (w_pos w + available (Lab4.i_size (w_osfs w)) (w_pos w) len)
              >? Lab4.i_size (w_osfs w)
           then u64 (Lab4.i_size (w_osfs w) - w_pos w)
           else available (Lab4.i_size (w_osfs w)) (w_pos w) len)
          = available (Lab4.i_size (w_osfs w)) (w_pos w) len) as ->.
  { unfold available.
    rewrite (u64_small (w_pos w + Z.max 0 (Z.min len (Lab4.i_size (w_osfs w) - w_pos w)))) by lia.
    destruct (Z.gtb_spec (w_pos w + Z.max 0 (Z.min len (Lab4.i_size (w_osfs w) - w_pos w)))
                (Lab4.i_size (w_osfs w))); try rewrite u64_small by lia; lia. }
  set (k := available _ _ _).
  assert (0 <= k <= Lab4.i_size (w_osfs w) - w_pos w) as Hk by (unfold k, available; lia).
  destruct (copy_to_user _ _ _) as [uncopied um]. cbv zeta.
  assert (copies_out (span_in_block (Lab4.i_block (w_osfs w)))
            (Ev_copy_to_user buf (Lab4.i_block (w_osfs w) * BLOCK_SIZE + w_pos w) k uncopied))
    as He by (cbn; unfold span_in_block; lia).
  destruct (uncopied =? 0); cbn [snd];
    rewrite (new_events_app w _
               [Ev_copy_to_user buf (Lab4.i_block (w_osfs w) * BLOCK_SIZE + w_pos w) k uncopied])
      by reflexivity; (constructor; [exact He|constructor]).
Qed.

(** X16: a read copies only from the blocks of the file: every call of
    [copy_to_user] takes its bytes from within one block, the file's block
    in the single-block variant and the block of a slot of the extent map
    in the multi-block variant (block 0 for a slot that holds none), and a
    read calls nothing else.  In the multi-block variant the block numbers
    are such that the unsigned product [phy_block_no * BLOCK_SIZE] of the
    read loop does not wrap. *)
Theorem read_copies_from_own_blocks (wl : Lab4.W) (wb : Bonus.W) (buf len : Z) :
  vfs_range (w_pos wl) len ->
  Lab4.i_size (w_osfs wl) <= BLOCK_SIZE ->
  vfs_range (w_pos wb) len ->
  Bonus.i_size (w_osfs wb) <= MAX_BLOCKS_PER_FILE * BLOCK_SIZE ->
  blocks_addressable (w_osfs wb) ->
  Forall (copies_out (span_in_block (Lab4.i_block (w_osfs wl))))
         (new_events wl (snd (Lab4.osfs_read wl buf len))) /\
  (exists r w', Bonus.osfs_read wb buf len = Some (r, w') /\
     Forall (copies_out (fun src n =>
               exists j, 0 <= j < MAX_BLOCKS_PER_FILE /\
                         span_in_block (Bonus.slot (w_osfs wb) j) src n))
            (new_events wb w')).
Proof.
  intros H1 H2 H3 H4 H5. split.
  - now apply lab4_read_sources.
  - now apply bonus_read_sources.
Qed.

Lemma read_copies_from_own_blocks_witness :
  exists r w',
    Bonus.osfs_read (two_block_file (flat_user 0 64 Byte.x42) 4090) 0 10 = Some (r, w') /\
    Forall (copies_out (fun src n =>
              exists j, 0 <= j < MAX_BLOCKS_PER_FILE /\
                span_in_block
                  (Bonus.slot (w_osfs (two_block_file (flat_user 0 64 Byte.x42) 4090)) j) src n))
           (new_events (two_block_file (flat_user 0 64 Byte.x42) 4090) w').
Proof.
  apply (read_copies_from_own_blocks (one_block_file (flat_user 0 64 Byte.x42) 90)
           (two_block_file (flat_user 0 64 Byte.x42) 4090) 0 10).
  - unfold vfs_range. cbn. lia.
  - cbn. unfold BLOCK_SIZE. lia.
  - unfold vfs_range. cbn. lia.
  - cbn. unfold MAX_BLOCKS_PER_FILE, BLOCK_SIZE. lia.
  - apply (extent_ok_addressable (two_block_file (flat_user 0 64 Byte.x42) 4090)).
    + apply two_block_file_extent_ok.
    + vm_compute. discriminate.
Defined.

(** ** The two variants on a file of one block *)

Lemma osfs_write_first_turn w buf len :
  0 < len ->
  Bonus.osfs_write w buf len
  = match Bonus.write_body (Bonus.mkLoop w buf len 0) with
    | inr r => Some r
    | inl c' =>
        match while Bonus.loop_guard Bonus.write_body (Z.to_nat len) c' with
        | None => None
        | Some (inr r) => Some r
        | Some (inl c) => Some (Bonus.l_bytes c, touch (Bonus.l_w c))
        end
    end.
Proof.
  intros Hl. unfold Bonus.osfs_write. cbn [while].
  assert (Bonus.loop_guard (Bonus.mkLoop w buf len 0) = true) as ->
    by (unfold Bonus.loop_guard; cbn; lia).
  destruct (Bonus.write_body _) as [c'|r]; reflexivity.
Qed.

Lemma while_done {C R : Type} (guard : C -> bool) (body : C -> C + R) n c :
  (0 < n)%nat -> guard c = false -> while guard body n c = Some (inl c).
Proof. intros Hn Hg. destruct n; [lia|]. cbn. now rewrite Hg. Qed.

Lemma first_block_locals pos len :
  0 <= pos -> 0 < len -> pos + len <= BLOCK_SIZE ->
  Bonus.blk_index pos = 0 /\ Bonus.blk_offset pos = pos /\ Bonus.seg_len pos len = len.
Proof.
  intros Hp Hl Hfit.
  rewrite blk_index_small, blk_offset_nonneg, seg_len_nonneg by (unfold BLOCK_SIZE in *; lia).
  rewrite Z.div_small, Z.mod_small by lia. lia.
Qed.

Lemma bonus_write_agrees (wl : Lab4.W) (wb : Bonus.W) (buf len : Z) :
  same_file wl wb ->
  0 <= w_pos wl -> 0 < len -> w_pos wl + len <= BLOCK_SIZE ->
  exists wb',
    Bonus.osfs_write wb buf len = Some (fst (Lab4.osfs_write wl buf len), wb') /\
    same_file (snd (Lab4.osfs_write wl buf len)) wb'.
Proof.
  intros (Hi & Hsb & Hu & Hpos & Hclk & Hlog & Hsz & Hlen & Hblk) Hp Hl Hfit.
  rewrite Hpos in Hp, Hfit.
  destruct (first_block_locals (w_pos wb) len Hp Hl Hfit) as (Eidx & Eoff & Eseg).
  assert (forall sz nb b,
            Bonus.slot (Bonus.mkOsfsInode sz nb (<[Z.to_nat 0 := b]> (Bonus.blocks (w_osfs wb)))) 0
            = b) as Hslot.
  { intros. rewrite slot_insert by (rewrite ?Hlen; unfold MAX_BLOCKS_PER_FILE; lia).
    reflexivity. }
  assert ((if u64 (w_pos wb + len) >? BLOCK_SIZE then u64 (BLOCK_SIZE - w_pos wb) else len) = len)
    as Elen.
  { rewrite (u64_small (w_pos wb + len)) by (unfold BLOCK_SIZE in *; lia).
    destruct (Z.gtb_spec (w_pos wb + len) BLOCK_SIZE); [lia|reflexivity]. }
  assert ((w_pos wb >=? BLOCK_SIZE) = false) as Ein by lia.
  rewrite osfs_write_first_turn by exact Hl.
  set (rest := while Bonus.loop_guard Bonus.write_body (Z.to_nat len)).
  assert (forall c, Bonus.l_len c = 0 -> rest c = Some (inl c)) as Hrest.
  { intros c Hc. apply while_done; [lia|]. unfold Bonus.loop_guard. rewrite Hc. reflexivity. }
  clearbody rest.
  unfold Bonus.write_body. world_norm.
  rewrite Eidx, Eoff, Eseg.
  change (0 >=? MAX_BLOCKS_PER_FILE) with false. cbv iota.
  unfold Bonus.alloc_if_needed, Lab4.osfs_write.
  destruct Hblk as [(Hnb & Hs0)|(Hnb & Hs0 & Hb)].
  - (* neither file has a block *)
    rewrite Hs0, Hnb, Hsb. cbn [Z.eqb].
    destruct (alloc_cases (w_sb wb)) as [(i & -> & Hi1 & Hfree)| ->].
    + cbn [Z.eqb]. unfold Lab4.write_steps_3_to_6. world_norm.
      rewrite Hpos, Hu, Ein, Elen, !Hslot.
      destruct (copy_from_user (w_user wb) buf len) as [uncopied bs].
      destruct (uncopied =? 0).
      * rewrite Hrest by (world_norm; rewrite Z.sub_diag; reflexivity).
        world_norm. rewrite Z.add_0_l, Hsz.
        destruct (s64 (w_pos wb + len) >? Bonus.i_size (w_osfs wb));
          (eexists; split; [reflexivity|]); unfold same_file; world_norm;
          rewrite ?Hi, ?Hclk, ?Hlog, ?Hsb, ?Hslot, ?length_insert;
          repeat (split; [reflexivity || assumption|]); right; (split; [lia|]);
          (split; [lia|reflexivity]).
      * eexists. split; [reflexivity|]. unfold same_file. world_norm.
        rewrite ?Hi, ?Hclk, ?Hlog, ?Hsb, ?Hslot, ?length_insert.
        repeat (split; [reflexivity || assumption|]). right. split; [lia|].
        split; [lia|reflexivity].
    + change (- ENOSPC =? 0) with false. cbv iota. world_norm.
      change (0 >? 0) with false. cbv iota.
      eexists. split; [reflexivity|]. unfold same_file. world_norm.
      rewrite ?Hi, ?Hclk, ?Hlog, ?Hsb.
      repeat (split; [reflexivity || assumption|]). left. split; assumption.
  - (* both files have their block *)
    destruct (Z.eqb_spec (Bonus.slot (w_osfs wb) 0) 0) as [|_]; [contradiction|].
    destruct (Z.eqb_spec (Lab4.i_blocks (w_osfs wl)) 0) as [|_]; [contradiction|].
    unfold Lab4.write_steps_3_to_6. world_norm.
    rewrite Hpos, Hu, Hsb, Hb, Ein, Elen.
    destruct (copy_from_user (w_user wb) buf len) as [uncopied bs].
    destruct (uncopied =? 0).
    + rewrite Hrest by (world_norm; rewrite Z.sub_diag; reflexivity).
      world_norm. rewrite Z.add_0_l, Hsz.
      destruct (s64 (w_pos wb + len) >? Bonus.i_size (w_osfs wb));
        (eexists; split; [reflexivity|]); unfold same_file; world_norm;
        rewrite ?Hi, ?Hclk, ?Hlog, ?Hsb, ?(slot_eq _ (w_osfs wb) 0 eq_refl);
        repeat (split; [reflexivity || assumption|]); right; (split; [assumption|]);
        (split; [assumption|first [reflexivity|exact Hb]]).
    + eexists. split; [reflexivity|]. unfold same_file. world_norm.
      rewrite ?Hi, ?Hclk, ?Hlog, ?Hsb.
      repeat (split; [reflexivity || assumption|]). right. split; [assumption|].
      split; [assumption|exact Hb].
Qed.

Lemma bonus_read_agrees (wl : Lab4.W) (wb : Bonus.W) (buf len : Z) :
  same_file wl wb ->
  Lab4.i_blocks (w_osfs wl) <> 0 ->
  Lab4.i_size (w_osfs wl) <= BLOCK_SIZE ->
  0 <= Bonus.slot (w_osfs wb) 0 * BLOCK_SIZE < 2 ^ 32 ->
  vfs_range (w_pos wl) len -> 0 < len ->
  exists wb',
    Bonus.osfs_read wb buf len = Some (fst (Lab4.osfs_read wl buf len), wb') /\
    same_file (snd (Lab4.osfs_read wl buf len)) wb'.
Proof.
  intros Hsame Hhas Hcap Haddr (Hp & _ & Hs) Hl.
  pose proof Hsame as (Hi & Hsb & Hu & Hpos & Hclk & Hlog & Hsz & Hlen & Hblk).
  destruct Hblk as [(Hnb & _)|(_ & Hs0 & Hb)]; [contradiction|].
  rewrite Hpos in Hp, Hs. rewrite Hsz in Hcap.
  unfold Bonus.osfs_read, Lab4.osfs_read.
  destruct (Z.eqb_spec (Lab4.i_blocks (w_osfs wl)) 0) as [|_]; [contradiction|].
  rewrite Hpos, Hsz.
  destruct (Z.geb_spec (w_pos wb) (Bonus.i_size (w_osfs wb))) as [Hge|Hlt].
  { exists wb. split; [reflexivity|exact Hsame]. }
  cbv zeta.
  set (k := if u64 (w_pos wb + len) >? Bonus.i_size (w_osfs wb)
            then u64 (Bonus.i_size (w_osfs wb) - w_pos wb) else len).
  assert (0 < k /\ w_pos wb + k <= BLOCK_SIZE) as (Hk & Hfit).
  { unfold k. rewrite (u64_small (w_pos wb + len)) by lia.
    destruct (Z.gtb_spec (w_pos wb + len) (Bonus.i_size (w_osfs wb)));
      [rewrite u64_small by (unfold BLOCK_SIZE in *; lia)|]; lia. }
  clearbody k.
  destruct (first_block_locals (w_pos wb) k Hp Hk Hfit) as (Eidx & Eoff & Eseg).
  cbn [while].
  assert (Bonus.loop_guard (Bonus.mkLoop wb buf k 0) = true) as ->
    by (unfold Bonus.loop_guard; cbn; lia).
  set (rest := while Bonus.loop_guard Bonus.read_body (Z.to_nat k)).
  assert (forall c, Bonus.l_len c = 0 -> rest c = Some (inl c)) as Hrest.
  { intros c Hc. apply while_done; [lia|]. unfold Bonus.loop_guard. rewrite Hc. reflexivity. }
  clearbody rest.
  unfold Bonus.read_body. world_norm. rewrite Eidx, Eoff, Eseg, Hu, Hsb, Hb.
  rewrite (u32_small (Bonus.slot (w_osfs wb) 0)) by (unfold BLOCK_SIZE in *; lia).
  rewrite (u32_small (Bonus.slot (w_osfs wb) 0 * BLOCK_SIZE)) by lia.
  destruct (copy_to_user (w_user wb) buf _) as [uncopied um].
  destruct (uncopied =? 0).
  - rewrite Hrest by (world_norm; rewrite Z.sub_diag; reflexivity).
    world_norm. rewrite Z.add_0_l.
    eexists. split; [reflexivity|]. unfold same_file. world_norm. rewrite ?Hlog, ?Hpos.
    repeat (split; [reflexivity || assumption|]). right. split; [assumption|].
    split; assumption.
  - eexists. split; [reflexivity|]. unfold same_file. world_norm. rewrite ?Hlog, ?Hpos.
    repeat (split; [reflexivity || assumption|]). right. split; [assumption|].
    split; assumption.
Qed.

(** X17: on a file of one block the two variants do the same: for a request of
    at least one byte that stays within the first block, a write of the
    multi-block variant returns what the write of the single-block variant
    returns and leaves the same file behind, with the same bytes in the
    arena, the same size, position, times and the same calls in the same
    order; so does a read of a file that has its block, when the number of
    the block is such that the unsigned product [phy_block_no * BLOCK_SIZE]
    of the multi-block read does not wrap. *)
Theorem variants_agree_on_first_block (wl : Lab4.W) (wb : Bonus.W) (buf len : Z) :
  same_file wl wb ->
  0 <= w_pos wl -> 0 < len ->
  (w_pos wl + len <= BLOCK_SIZE ->
   exists wb',
     Bonus.osfs_write wb buf len = Some (fst (Lab4.osfs_write wl buf len), wb') /\
     same_file (snd (Lab4.osfs_write wl buf len)) wb') /\
  (Lab4.i_blocks (w_osfs wl) <> 0 -> Lab4.i_size (w_osfs wl) <= BLOCK_SIZE ->
   0 <= Bonus.slot (w_osfs wb) 0 * BLOCK_SIZE < 2 ^ 32 ->
   w_pos wl + len < 2 ^ 63 ->
   exists wb',
     Bonus.osfs_read wb buf len = Some (fst (Lab4.osfs_read wl buf len), wb') /\
     same_file (snd (Lab4.osfs_read wl buf len)) wb').
Proof.
  intros Hsame Hp Hl. split.
  - intros Hfit. now apply bonus_write_agrees.
  - intros Hhas Hcap Haddr Hs. apply bonus_read_agrees; try assumption.
    unfold vfs_range. lia.
Qed.

Lemma variants_agree_on_first_block_witness :
  exists wb',
    Bonus.osfs_write (bonus_fresh (fresh_sb 8 Byte.xff) (flat_user 0 64 Byte.x41) 20) 0 10
    = Some (10, wb') /\
    same_file (snd (Lab4.osfs_write
                      (lab4_fresh (fresh_sb 8 Byte.xff) (flat_user 0 64 Byte.x41) 20) 0 10)) wb'.
Proof.
  assert (same_file (lab4_fresh (fresh_sb 8 Byte.xff) (flat_user 0 64 Byte.x41) 20)
            (bonus_fresh (fresh_sb 8 Byte.xff) (flat_user 0 64 Byte.x41) 20)) as Hsame.
  { unfold same_file. cbn. repeat (split; [reflexivity|]). left. split; reflexivity. }
  destruct (proj1 (variants_agree_on_first_block
                     (lab4_fresh (fresh_sb 8 Byte.xff) (flat_user 0 64 Byte.x41) 20)
                     (bonus_fresh (fresh_sb 8 Byte.xff) (flat_user 0 64 Byte.x41) 20) 0 10
                     Hsame ltac:(cbn; lia) ltac:(lia)))
    as (wb' & H & Hsame').
  - cbn. unfold BLOCK_SIZE. lia.
  - exists wb'. split; [|exact Hsame'].
    assert (fst (Lab4.osfs_write
                   (lab4_fresh (fresh_sb 8 Byte.xff) (flat_user 0 64 Byte.x41) 20) 0 10) = 10)
      as E by (vm_compute; reflexivity).
    rewrite E in H. exact H.
Defined.

(** ** The extent map of a reachable file *)

(** X18: in every state that reads and writes lead to, the extent map has
    [MAX_BLOCKS_PER_FILE] slots, a slot that holds a block holds a block
    other than block 0 that the bitmap marks as in use, and no two slots
    hold the same block. *)
Theorem extent_map_is_sound (w : Bonus.W) :
  reachable any_write w ->
  length (Bonus.blocks (w_osfs w)) = Z.to_nat MAX_BLOCKS_PER_FILE /\
  (forall j, 0 <= j -> Bonus.slot (w_osfs w) j <> 0 ->
     j < MAX_BLOCKS_PER_FILE /\ 0 < Bonus.slot (w_osfs w) j /\
     block_bitmap (w_sb w) !! Z.to_nat (Bonus.slot (w_osfs w) j) = Some true) /\
  (forall i j, 0 <= i -> 0 <= j -> Bonus.slot (w_osfs w) i <> 0 ->
     Bonus.slot (w_osfs w) i = Bonus.slot (w_osfs w) j -> i = j).
Proof.
  intros Hr. destruct (reachable_extent_ok _ _ Hr) as (Hlen & Hbits & Hinj).
  split; [exact Hlen|]. split.
  - intros j Hj Hnz. pose proof (slot_lookup _ _ Hnz) as Hl.
    pose proof (lookup_lt_Some _ _ _ Hl) as Hlt. rewrite Hlen in Hlt.
    split; [lia|]. exact (Hbits _ _ Hl Hnz).
  - intros i j Hi Hj Hnz E.
    assert (Z.to_nat i = Z.to_nat j) as Hij.
    { apply (Hinj _ _ (Bonus.slot (w_osfs w) i)); [now apply slot_lookup| |exact Hnz].
      rewrite E. apply slot_lookup. now rewrite <- E. }
    lia.
Qed.

Lemma extent_map_is_sound_witness :
  exists w, reachable any_write w /\ Bonus.slot (w_osfs w) 1 <> 0 /\
    block_bitmap (w_sb w) !! Z.to_nat (Bonus.slot (w_osfs w) 1) = Some true.
Proof.
  destruct (osfs_write_total (bonus_fresh (fresh_sb 8 Byte.xff) (flat_user 0 64 Byte.x41) 4090) 0 10)
    as [[r w'] E].
  assert (reachable any_write w') as Hr
    by (eapply reach_write; [apply reach_fresh|exact I|exact E]).
  pose proof (f_equal (option_map (fun rw => Bonus.slot (w_osfs (snd rw)) 1)) E) as E'.
  vm_compute in E'. injection E' as E'.
  assert (Bonus.slot (w_osfs w') 1 = 2) as Hs by (symmetry; exact E').
  exists w'. split; [exact Hr|]. split; [rewrite Hs; lia|].
  destruct (extent_map_is_sound w' Hr) as (_ & Hbits & _).
  apply (Hbits 1); [lia|rewrite Hs; lia].
Defined.
